(** * Graph tool adapter: binding, request synthesis, response normalisation

    A shallow embedding of [src/graph-tools.ts] ([registerGraphTools]) and of
    the JavaScript built-ins its handler calls, followed by the properties of
    the specification that concern it.

    Conventions of the embedding.
    - A JavaScript string is a [string]: the UTF-8 units of its text, a
      surrogate that stands alone being the three units of its number.
      The names and methods the code compares after [toLowerCase] and
      [toUpperCase] are ASCII words: case mapping is the one of the ASCII
      letters, and lower case takes the Kelvin sign, the other character
      that becomes an ASCII letter, to [k].
    - A JavaScript number is a binary64 value: an integer [Z], a fraction
      with a power of two as denominator, or an infinity.  A number literal
      denotes the nearest such value, and a number is printed with the
      fewest digits that denote it, as [Number::toString] does.  The two
      zeros are one value: the program does not tell them apart.
    - An object is the list of its own properties in the order in which
      [Object.entries] enumerates them.
    - A computation that may throw has type [completion A]; what is thrown
      is an [Error] object or any other value.
    - [Handler] is the callback on the invocations whose conversions to
      text and escapings succeed; [Callback] is the callback with the
      conversions that throw, and agrees with it on those invocations.
    - Calls to [logger] have no effect on the values computed and are left
      out; where the argument of such a call can throw, its evaluation is
      kept. *)

From Stdlib Require Import String Ascii List ZArith Lia Bool Arith.
From Stdlib Require Import DecimalString.
Import ListNotations.

Set Warnings "-register-all".
Open Scope list_scope.
Open Scope string_scope.
Open Scope nat_scope.

(** ** JavaScript strings *)

Module JS.

Definition char_code (c : ascii) : nat := nat_of_ascii c.

Definition in_range (lo hi : nat) (c : ascii) : bool :=
  (lo <=? char_code c) && (char_code c <=? hi).

Definition is_upper (c : ascii) : bool := in_range 65 90 c.
Definition is_lower (c : ascii) : bool := in_range 97 122 c.
Definition is_digit (c : ascii) : bool := in_range 48 57 c.

Definition lower_char (c : ascii) : ascii :=
  if is_upper c then ascii_of_nat (char_code c + 32) else c.

Definition upper_char (c : ascii) : ascii :=
  if is_lower c then ascii_of_nat (char_code c - 32) else c.

Fixpoint map_chars (f : ascii -> ascii) (s : string) : string :=
  match s with
  | EmptyString => EmptyString
  | String c r => String (f c) (map_chars f r)
  end.


(** [String.prototype.toLowerCase].  The ASCII letters and the Kelvin sign
    are mapped; every other character outside ASCII is left as it is, its
    lower case being outside ASCII as well, so that the result is exact
    wherever it is compared with ASCII text, as it is here. *)
Fixpoint toLowerCase (s : string) : string :=
  match s with
  | EmptyString => EmptyString
  | String a r =>
      match r with
      | String b (String c r') =>
          if (char_code a =? 226) && (char_code b =? 132)
             && (char_code c =? 170)
          then String "k" (toLowerCase r')
          else String (lower_char a) (toLowerCase r)
      | _ => String (lower_char a) (toLowerCase r)
      end
  end.

(** [String.prototype.toUpperCase] on the methods of a catalog, which are
    ASCII words: the ASCII letters are mapped.  The upper case of a text
    with a character outside ASCII is never [GET], so the comparison with
    [GET] is exact on every text. *)
Definition toUpperCase (s : string) : string := map_chars upper_char s.



(** [c] does not occur in [s]. *)
Fixpoint lacks (c : ascii) (s : string) : bool :=
  match s with
  | EmptyString => true
  | String x r => negb (Ascii.eqb x c) && lacks c r
  end.

(** [s.includes(p)]. *)
Fixpoint includes (s p : string) : bool :=
  if prefix p s then true
  else match s with
       | EmptyString => false
       | String _ r => includes r p
       end.

Fixpoint drop (n : nat) (s : string) : string :=
  match n, s with
  | O, _ => s
  | S _, EmptyString => EmptyString
  | S m, String _ r => drop m r
  end.

(** [s.endsWith(p)]. *)
Definition endsWith (s p : string) : bool :=
  if String.length s <? String.length p then false
  else String.eqb (drop (String.length s - String.length p) s) p.

(** [p] put in front of the first component of a result, if any. *)
Definition prepend (p : string) (r : option (string * string))
  : option (string * string) :=
  match r with
  | Some (s, rest) => Some (p ++ s, rest)
  | None => None
  end.

(** The text before and after the first occurrence of [p] in [s]. *)
Fixpoint find_first (p s : string) : option (string * string) :=
  if prefix p s then Some (EmptyString, drop (String.length p) s)
  else match s with
       | EmptyString => None
       | String c r => prepend (String c EmptyString) (find_first p r)
       end.

(** [GetSubstitution] for a string pattern (no captures): in the replacement
    text [$$] stands for [$], [$&] for the match, [$`] for the text before it
    and [$'] for the text after it; any other [$] is literal. *)
Fixpoint GetSubstitution (matched before after repl : string) : string :=
  match repl with
  | EmptyString => EmptyString
  | String c r =>
      if Ascii.eqb c "$" then
        match r with
        | EmptyString => String c EmptyString
        | String d r1 =>
            if Ascii.eqb d "$"
            then String "$" (GetSubstitution matched before after r1)
            else if Ascii.eqb d "&"
            then matched ++ GetSubstitution matched before after r1
            else if Ascii.eqb d "`"
            then before ++ GetSubstitution matched before after r1
            else if Ascii.eqb d "'"
            then after ++ GetSubstitution matched before after r1
            else String c (GetSubstitution matched before after r)
        end
      else String c (GetSubstitution matched before after r)
  end.

(** [s.replace(p, repl)] with a string pattern: the first occurrence only. *)
Definition replace (s p repl : string) : string :=
  match find_first p s with
  | None => s
  | Some (b, a) => b ++ GetSubstitution p b a repl ++ a
  end.

(** *** [encodeURIComponent] *)

Definition hex_digit (n : nat) : ascii :=
  if n <? 10 then ascii_of_nat (48 + n) else ascii_of_nat (55 + n).

Definition percent_encode (c : ascii) : string :=
  String "%" (String (hex_digit (char_code c / 16))
                     (String (hex_digit (char_code c mod 16)) EmptyString)).

(** The characters [encodeURIComponent] leaves alone: letters, digits and
    [- _ . ! ~ * ' ( )]. *)
Definition uri_unreserved (c : ascii) : bool :=
  is_upper c || is_lower c || is_digit c ||
  existsb (Ascii.eqb c)
    ["-"; "_"; "."; "!"; "~"; "*"; "'"; "("; ")"]%char.

Fixpoint encodeURIComponent (s : string) : string :=
  match s with
  | EmptyString => EmptyString
  | String c r =>
      (if uri_unreserved c then String c EmptyString else percent_encode c)
      ++ encodeURIComponent r
  end.

(** [xs.join(sep)] on strings. *)
Fixpoint join (sep : string) (xs : list string) : string :=
  match xs with
  | [] => EmptyString
  | [x] => x
  | x :: r => x ++ sep ++ join sep r
  end.

End JS.

(** ** JavaScript values *)

(** The values that reach the handler: they come from JSON text, so there is
    no [undefined] among them.  An absent property is an [option].  A number
    is a binary64 value: [JNum n] is the integer [n], the two zeros being
    one value; [JFrac negative m k] is [m / 2^k] of the given sign, for an
    odd [m]; [JInf negative] is an infinity, which a literal beyond the
    range denotes. *)
Inductive jsval : Type :=
| JNull
| JBool (b : bool)
| JNum (n : Z)
| JStr (s : string)
| JArr (xs : list jsval)
| JObj (props : list (string * jsval))
| JFrac (negative : bool) (numerator scale : positive)
| JInf (negative : bool).

(** ** Numbers *)

Module Number.

Definition signed (negative : bool) (n : Z) : Z :=
  if negative then (- n)%Z else n.

Fixpoint trailing_zeros (p : positive) : nat :=
  match p with
  | xO q => S (trailing_zeros q)
  | _ => O
  end.

(** The number [M * 2^e] of the given sign, for [0 <= M]. *)
Definition of_dyadic (negative : bool) (M e : Z) : jsval :=
  match M with
  | Zpos p =>
      if (0 <=? e)%Z then JNum (signed negative (M * 2 ^ e))
      else
        let t := Z.min (Z.of_nat (trailing_zeros p)) (- e) in
        match (- e - t)%Z with
        | Zpos k => JFrac negative (Z.to_pos (M / 2 ^ t)) k
        | _ => JNum (signed negative (M / 2 ^ t))
        end
  | _ => JNum 0
  end.

(** The binary64 value nearest to [num / den], ties going to the even
    significand: the significand has 53 bits, the exponent is at least
    -1074, and a value from [2^1024] is an infinity. *)
Definition nearest (negative : bool) (num den : positive) : jsval :=
  let n := Zpos num in
  let d := Zpos den in
  let s := (Z.log2 n - Z.log2 d)%Z in
  let below := if (0 <=? s)%Z then (n <? d * 2 ^ s)%Z
               else (n * 2 ^ (- s) <? d)%Z in
  let e := Z.max ((if below then s - 1 else s) - 52) (-1074) in
  let N := if (e <? 0)%Z then (n * 2 ^ (- e))%Z else n in
  let D := if (e <? 0)%Z then d else (d * 2 ^ e)%Z in
  let q := (N / D)%Z in
  let r := (N mod D)%Z in
  let M := match (2 * r ?= D)%Z with
           | Lt => q
           | Gt => (q + 1)%Z
           | Eq => if Z.even q then q else (q + 1)%Z
           end in
  if (1024 <=? Z.log2 M + e)%Z then JInf negative
  else of_dyadic negative M e.

Definition digits (p : positive) : string :=
  NilEmpty.string_of_uint (Pos.to_uint p).

(** The number that the decimal [D * 10^E] denotes. *)
Definition of_decimal (negative : bool) (D : N) (E : Z) : jsval :=
  match D with
  | N0 => JNum 0
  | Npos d =>
      let magnitude := (E + Z.of_nat (String.length (digits d)))%Z in
      if (400 <? magnitude)%Z then JInf negative
      else if (magnitude <? -400)%Z then JNum 0
      else if (0 <=? E)%Z
           then nearest negative (Z.to_pos (Zpos d * 10 ^ E)) 1
           else nearest negative d (Z.to_pos (10 ^ (- E)))
  end.

Definition eqb (x y : jsval) : bool :=
  match x, y with
  | JNum a, JNum b => Z.eqb a b
  | JFrac s m k, JFrac s' m' k' =>
      Bool.eqb s s' && Pos.eqb m m' && Pos.eqb k k'
  | JInf s, JInf s' => Bool.eqb s s'
  | _, _ => false
  end.

(** The decimal [s * 10^p] reads as [x]. *)
Definition reads (negative : bool) (x : jsval) (c : positive * Z) : bool :=
  eqb (of_decimal negative (Npos (fst c)) (snd c)) x.

(** The decimal without zero at the end of its digits. *)
Fixpoint strip (fuel : nat) (s : Z) (p : Z) : positive * Z :=
  match fuel with
  | O => (Z.to_pos s, p)
  | S f =>
      if (s mod 10 =? 0)%Z then strip f (s / 10)%Z (p + 1)%Z
      else (Z.to_pos s, p)
  end.

(** The decimals with [drop] digits less than [full * 10^scale] that are next to
    it, if one reads as [x]: the nearer one if both do. *)
Definition pick (negative : bool) (x : jsval) (full : positive) (scale : Z)
  (drop : nat) : option (positive * Z) :=
  let t := (10 ^ Z.of_nat drop)%Z in
  let lo := (Zpos full / t)%Z in
  let r := (Zpos full mod t)%Z in
  let fuel := String.length (digits full) in
  let below := strip fuel lo (scale + Z.of_nat drop) in
  let above := strip fuel (lo + 1) (scale + Z.of_nat drop) in
  match reads negative x below, reads negative x above with
  | true, true =>
      Some (match (2 * r ?= t)%Z with
            | Lt => below
            | Gt => above
            | Eq => if Z.even lo then below else above
            end)
  | true, false => Some below
  | false, true => Some above
  | false, false => None
  end.

(** The decimal with the fewest digits that reads as [x], from one digit
    up to the digits of [full * 10^scale], the exact value of [x]. *)
Fixpoint shorten (negative : bool) (x : jsval) (full : positive) (scale : Z)
  (drop : nat) : positive * Z :=
  match drop with
  | O => (full, scale)
  | S d =>
      match pick negative x full scale drop with
      | Some c => c
      | None => shorten negative x full scale d
      end
  end.

Definition shortest (negative : bool) (x : jsval) (full : positive) (scale : Z)
  : positive * Z :=
  shorten negative x full scale (Nat.pred (String.length (digits full))).

Fixpoint zeros (n : nat) : string :=
  match n with
  | O => EmptyString
  | S k => String "0" (zeros k)
  end.

Fixpoint take (n : nat) (s : string) : string :=
  match n, s with
  | S k, String c r => String c (take k r)
  | _, _ => EmptyString
  end.

(** [Number::toString] for the decimal [s * 10^p] of [k] digits, with
    [n = k + p]. *)
Definition decimal_text (s : positive) (p : Z) : string :=
  let ds := digits s in
  let k := Z.of_nat (String.length ds) in
  let n := (k + p)%Z in
  if (k <=? n)%Z && (n <=? 21)%Z then ds ++ zeros (Z.to_nat (n - k))
  else if (0 <? n)%Z && (n <=? 21)%Z
  then take (Z.to_nat n) ds ++ "." ++ JS.drop (Z.to_nat n) ds
  else if (-6 <? n)%Z && (n <=? 0)%Z
  then "0." ++ zeros (Z.to_nat (- n)) ++ ds
  else
    let exponent :=
      (if (n - 1 <? 0)%Z then "-" else "+")
      ++ digits (Z.to_pos (Z.abs (n - 1))) in
    match ds with
    | String d EmptyString => String d ("e" ++ exponent)
    | String d r => String d ("." ++ r ++ "e" ++ exponent)
    | EmptyString => EmptyString
    end.

(** The sign and the exact decimal of a finite number other than zero. *)
Definition expansion (x : jsval) : option (bool * (positive * Z)) :=
  match x with
  | JNum (Zpos n) => Some (false, (n, 0%Z))
  | JNum (Zneg n) => Some (true, (n, 0%Z))
  | JFrac negative m k => Some (negative, ((m * 5 ^ k)%positive, Zneg k))
  | _ => None
  end.

(** The number is a finite binary64 value: an integer below [2^1024] with
    at most 53 significant bits, or an odd numerator below [2^53] over a
    power of two up to [2^1074]. *)
Definition binary64 (x : jsval) : bool :=
  match x with
  | JNum n =>
      let a := Z.log2 (Z.abs n) in
      (a <? 1024)%Z && (Z.abs n mod 2 ^ Z.max 0 (a - 52) =? 0)%Z
  | JFrac _ m k =>
      match m with
      | xO _ => false
      | _ => true
      end
      && (Zpos m <? 2 ^ 53)%Z && (Zpos k <=? 1074)%Z
  | _ => false
  end.

(** [2^c <= n / d], without division. *)
Definition above (n d c : Z) : Prop :=
  (d * 2 ^ Z.max c 0 <= n * 2 ^ Z.max (- c) 0)%Z.

(** [Number::toString]. *)
Definition to_string (x : jsval) : string :=
  match x with
  | JInf negative => (if negative then "-" else EmptyString) ++ "Infinity"
  | _ =>
      match expansion x with
      | Some (negative, (full, scale)) =>
          let (s, p) := shortest negative x full scale in
          (if negative then "-" else EmptyString) ++ decimal_text s p
      | None => "0"
      end
  end.

End Number.

Module Value.

(** [ToString], as applied by a template literal and by
    [encodeURIComponent]; an array is joined with commas, its [null]
    elements rendered empty. *)
Fixpoint ToString (v : jsval) : string :=
  match v with
  | JNull => "null"
  | JBool true => "true"
  | JBool false => "false"
  | JNum _ | JFrac _ _ _ | JInf _ => Number.to_string v
  | JStr s => s
  | JArr xs =>
      JS.join ","
        (map (fun x => match x with
                       | JNull => EmptyString
                       | _ => ToString x
                       end) xs)
  | JObj _ => "[object Object]"
  end.

(** [ToBoolean]. *)
Definition truthy (v : jsval) : bool :=
  match v with
  | JNull => false
  | JBool b => b
  | JNum n => negb (Z.eqb n 0)
  | JStr s => negb (String.eqb s EmptyString)
  | JArr _ | JObj _ | JFrac _ _ _ | JInf _ => true
  end.

Definition is_string (v : jsval) : bool :=
  match v with JStr _ => true | _ => false end.

End Value.

(** ** Objects as ordered property lists *)

Module Obj.

Definition digit_value (c : ascii) : N := N.of_nat (JS.char_code c - 48).

Fixpoint digits_value (acc : N) (s : string) : N :=
  match s with
  | EmptyString => acc
  | String c r => digits_value (acc * 10 + digit_value c)%N r
  end.

Fixpoint all_digits (s : string) : bool :=
  match s with
  | EmptyString => true
  | String c r => JS.is_digit c && all_digits r
  end.

(** A property key is an array index when it is the canonical decimal text
    of an integer below 2^32 - 1. *)
Definition array_index (k : string) : option N :=
  match k with
  | EmptyString => None
  | String "0" EmptyString => Some 0%N
  | String "0" _ => None
  | _ =>
      if all_digits k && (String.length k <=? 10) then
        let n := digits_value 0 k in
        if (n <? 4294967295)%N then Some n else None
      else None
  end.

Section Properties.
Context {A : Type}.

Definition obj : Type := list (string * A).

Fixpoint get (k : string) (o : obj) : option A :=
  match o with
  | [] => None
  | (k', v) :: r => if String.eqb k k' then Some v else get k r
  end.

Definition has (k : string) (o : obj) : bool :=
  match get k o with Some _ => true | None => false end.

Fixpoint update (k : string) (v : A) (o : obj) : obj :=
  match o with
  | [] => []
  | (k', v') :: r =>
      if String.eqb k k' then (k', v) :: r else (k', v') :: update k v r
  end.

Fixpoint insert_index (i : N) (k : string) (v : A) (o : obj) : obj :=
  match o with
  | [] => [(k, v)]
  | (k', v') :: r =>
      match array_index k' with
      | Some j =>
          if (j <? i)%N then (k', v') :: insert_index i k v r
          else (k, v) :: o
      | None => (k, v) :: o
      end
  end.

(** Defining an own property: an existing key keeps its place and takes the
    new value; a new array-index key goes among the index keys, in ascending
    order, before every other key; any other new key goes last.  This is the
    order of [Object.entries] and [Object.keys]. *)
Definition define (k : string) (v : A) (o : obj) : obj :=
  if has k o then update k v o
  else match array_index k with
       | Some i => insert_index i k v o
       | None => (o ++ [(k, v)])%list
       end.

End Properties.

(** [o[k] = v] on an object created by [{}]: the key [__proto__] reaches the
    setter inherited from [Object.prototype], which defines no own property
    (it ignores a string and takes an object as the new prototype); every
    other key defines an own property. *)
Definition set {A : Type} (k : string) (v : A) (o : @obj A) : @obj A :=
  if String.eqb k "__proto__" then o else define k v o.

Definition entries {A : Type} (o : @obj A) : list (string * A) := o.

End Obj.

(** ** Completions *)

(** What is thrown: an [Error] object with its message, or any other
    value, [None] standing for [undefined].  (The name of the type is the
    one the catch blocks cast to.) *)
Inductive Error : Type :=
| mkError (message : string)
| Thrown (value : option jsval).

Inductive completion (A : Type) : Type :=
| Normal (a : A)
| Throw (e : Error).
Arguments Normal {A} a.
Arguments Throw {A} e.

Definition bind {A B : Type} (c : completion A) (k : A -> completion B)
  : completion B :=
  match c with
  | Normal a => k a
  | Throw e => Throw e
  end.

(** [try { c } catch (e) { h e }]. *)
Definition try_catch {A : Type} (c : completion A) (h : Error -> completion A)
  : completion A :=
  match c with
  | Normal a => Normal a
  | Throw e => h e
  end.

Declare Scope completion_scope.
Delimit Scope completion_scope with completion.
Notation "x <- c ;; k" := (bind c (fun x => k))
  (at level 61, c at next level, right associativity) : completion_scope.
Notation "c ;;; k" := (bind c (fun _ => k))
  (at level 61, right associativity) : completion_scope.

(** ** Conversions that can throw *)

Module Conversion.

Definition TypeError_primitive : Error :=
  mkError "Cannot convert object to primitive value".

Definition URIError_malformed : Error := mkError "URI malformed".

(** [`${v}`] and [String(v)] for a value that came from JSON text: an
    object with a [toString] property of its own has no callable one (and
    [valueOf] gives back the object), so the conversion throws; an array
    joins the texts of its elements, the first conversion that throws
    throwing for the array. *)
Fixpoint text (v : jsval) : completion string :=
  match v with
  | JObj ps =>
      if Obj.has "toString" ps then Throw TypeError_primitive
      else Normal "[object Object]"
  | JArr xs =>
      bind
        ((fix each (l : list jsval) : completion (list string) :=
            match l with
            | [] => Normal []
            | x :: r =>
                bind (match x with
                      | JNull => Normal EmptyString
                      | _ => text x
                      end)
                     (fun t => bind (each r) (fun ts => Normal (t :: ts)))
            end) xs)
        (fun texts => Normal (JS.join "," texts))
  | _ => Normal (Value.ToString v)
  end.

(** [`${v}`], where [v] may be [undefined]. *)
Definition text_of (v : option jsval) : completion string :=
  match v with
  | Some x => text x
  | None => Normal "undefined"
  end.

(** The values that have a text: no object with a [toString] property of
    its own, at any depth of arrays. *)
Fixpoint printable (v : jsval) : bool :=
  match v with
  | JObj ps => negb (Obj.has "toString" ps)
  | JArr xs =>
      (fix all (l : list jsval) : bool :=
         match l with
         | [] => true
         | x :: r => printable x && all r
         end) xs
  | _ => true
  end.

(** A surrogate that is not part of a pair: in the units of a string it is
    the three-unit sequence that begins with [0xED] and a unit from [0xA0]
    (a pair is the four-unit sequence of its character). *)
Fixpoint lone_surrogate (s : string) : bool :=
  match s with
  | EmptyString => false
  | String a r =>
      match r with
      | String b _ =>
          (JS.char_code a =? 237) && JS.in_range 160 191 b
      | EmptyString => false
      end
      || lone_surrogate r
  end.

(** [encodeURIComponent(s)]: it throws [URIError] on a lone surrogate. *)
Definition encodeURIComponent (s : string) : completion string :=
  if lone_surrogate s then Throw URIError_malformed
  else Normal (JS.encodeURIComponent s).

End Conversion.

(** ** JSON *)

Module JSON.

Definition dquote : ascii := "034"%char.
Definition backslash : ascii := "092"%char.

(** *** [JSON.stringify] *)

Definition lower_hex (n : nat) : ascii :=
  if n <? 10 then ascii_of_nat (48 + n) else ascii_of_nat (87 + n).

(** One character of a quoted string ([QuoteJSONString]). *)
Definition quote_char (c : ascii) : string :=
  let n := JS.char_code c in
  if n =? 34 then String backslash (String dquote EmptyString)
  else if n =? 92 then String backslash (String backslash EmptyString)
  else if n =? 8 then String backslash "b"
  else if n =? 12 then String backslash "f"
  else if n =? 10 then String backslash "n"
  else if n =? 13 then String backslash "r"
  else if n =? 9 then String backslash "t"
  else if n <? 32 then
    String backslash
      (String "u" (String "0" (String "0"
         (String (lower_hex (n / 16))
            (String (lower_hex (n mod 16)) EmptyString)))))
  else String c EmptyString.

Fixpoint quote_chars (s : string) : string :=
  match s with
  | EmptyString => EmptyString
  | String c r => quote_char c ++ quote_chars r
  end.

(** A string as [JSON.stringify] writes it.  A surrogate that stands alone
    is written as its units, where [JSON.stringify] writes the escape of
    its number: [JSON.parse] reads either as the same string. *)
Definition quote (s : string) : string :=
  String dquote (quote_chars s ++ String dquote EmptyString).

(** [JSON.stringify(v)] without indentation; an infinity is written
    [null]. *)
Fixpoint stringify (v : jsval) : string :=
  match v with
  | JNull => "null"
  | JBool true => "true"
  | JBool false => "false"
  | JNum _ | JFrac _ _ _ => Number.to_string v
  | JInf _ => "null"
  | JStr s => quote s
  | JArr xs => "[" ++ JS.join "," (map stringify xs) ++ "]"
  | JObj ps =>
      "{" ++ JS.join ","
               (map (fun p => match p with
                              | (k, x) => quote k ++ ":" ++ stringify x
                              end) ps)
          ++ "}"
  end.

(** *** [JSON.parse] *)

Definition is_ws (c : ascii) : bool :=
  existsb (Nat.eqb (JS.char_code c)) [32; 9; 10; 13].

Fixpoint skip_ws (s : string) : string :=
  match s with
  | String c r => if is_ws c then skip_ws r else s
  | EmptyString => EmptyString
  end.

Definition hex_value (c : ascii) : option nat :=
  let n := JS.char_code c in
  if JS.is_digit c then Some (n - 48)
  else if JS.in_range 97 102 c then Some (n - 87)
  else if JS.in_range 65 70 c then Some (n - 55)
  else None.

Definition hex4 (a b c d : ascii) : option nat :=
  match hex_value a, hex_value b, hex_value c, hex_value d with
  | Some x, Some y, Some z, Some w => Some (((x * 16 + y) * 16 + z) * 16 + w)
  | _, _, _, _ => None
  end.

(** The character of number [n] that a [\uXXXX] escape names, as UTF-8
    units; a surrogate that stands alone has the three units of its
    number. *)
Definition code_unit (n : nat) : string :=
  if n <? 128 then String (ascii_of_nat n) EmptyString
  else if n <? 2048 then
    String (ascii_of_nat (192 + n / 64))
      (String (ascii_of_nat (128 + n mod 64)) EmptyString)
  else
    String (ascii_of_nat (224 + n / 4096))
      (String (ascii_of_nat (128 + (n / 64) mod 64))
         (String (ascii_of_nat (128 + n mod 64)) EmptyString)).

Definition high_surrogate (n : nat) : bool :=
  (55296 <=? N.of_nat n)%N && (N.of_nat n <=? 56319)%N.

Definition low_surrogate (n : nat) : bool :=
  (56320 <=? N.of_nat n)%N && (N.of_nat n <=? 57343)%N.

(** The character that a high and a low surrogate name together, as UTF-8
    units. *)
Definition code_pair (high low : nat) : string :=
  let n := (65536 + (N.of_nat high - 55296) * 1024
            + (N.of_nat low - 56320))%N in
  String (ascii_of_N (240 + n / 262144))
    (String (ascii_of_N (128 + (n / 4096) mod 64))
       (String (ascii_of_N (128 + (n / 64) mod 64))
          (String (ascii_of_N (128 + n mod 64)) EmptyString))).

(** The low surrogate that the text names with a [\uXXXX] escape at its
    head. *)
Definition low_escape (s : string) : option nat :=
  match s with
  | String b (String u (String h1 (String h2 (String h3 (String h4 _))))) =>
      if (JS.char_code b =? 92) && (JS.char_code u =? 117) then
        match hex4 h1 h2 h3 h4 with
        | Some n => if low_surrogate n then Some n else None
        | None => None
        end
      else None
  | _ => None
  end.

Definition simple_escape (c : ascii) : option ascii :=
  let n := JS.char_code c in
  if n =? 34 then Some dquote
  else if n =? 92 then Some backslash
  else if n =? 47 then Some "/"%char
  else if n =? 98 then Some (ascii_of_nat 8)
  else if n =? 102 then Some (ascii_of_nat 12)
  else if n =? 110 then Some (ascii_of_nat 10)
  else if n =? 114 then Some (ascii_of_nat 13)
  else if n =? 116 then Some (ascii_of_nat 9)
  else None.

(** The characters of a string after its opening quote, up to and including
    the closing quote; the text that follows is returned with them.  An
    escaped high surrogate with an escaped low surrogate after it is one
    character. *)
Fixpoint parse_string_body (s : string) : option (string * string) :=
  match s with
  | EmptyString => None
  | String c r =>
      if JS.char_code c =? 34 then Some (EmptyString, r)
      else if JS.char_code c =? 92 then
        match r with
        | EmptyString => None
        | String e r1 =>
            match simple_escape e with
            | Some x => JS.prepend (String x EmptyString) (parse_string_body r1)
            | None =>
                if JS.char_code e =? 117 then
                  match r1 with
                  | String h1 (String h2 (String h3 (String h4 r2))) =>
                      match hex4 h1 h2 h3 h4 with
                      | Some n =>
                          match (if high_surrogate n then low_escape r2
                                 else None), r2 with
                          | Some low,
                            String _ (String _ (String _ (String _
                              (String _ (String _ r3))))) =>
                              JS.prepend (code_pair n low)
                                         (parse_string_body r3)
                          | _, _ =>
                              JS.prepend (code_unit n) (parse_string_body r2)
                          end
                      | None => None
                      end
                  | _ => None
                  end
                else None
            end
        end
      else if JS.char_code c <? 32 then None
      else JS.prepend (String c EmptyString) (parse_string_body r)
  end.

Fixpoint span_digits (s : string) : string * string :=
  match s with
  | EmptyString => (EmptyString, EmptyString)
  | String c r =>
      if JS.is_digit c
      then let (d, t) := span_digits r in (String c d, t)
      else (EmptyString, s)
  end.

(** The digits before the point: a single zero, or digits that begin with
    another digit. *)
Definition integer_part (s : string) : option (string * string) :=
  match s with
  | String c r =>
      if Ascii.eqb c "0" then Some ("0", r)
      else if JS.is_digit c then Some (span_digits s)
      else None
  | EmptyString => None
  end.

(** The digits after the point, if there is a point: one at least. *)
Definition fraction_part (s : string) : option (string * string) :=
  match s with
  | String c r =>
      if Ascii.eqb c "." then
        match span_digits r with
        | (EmptyString, _) => None
        | (d, t) => Some (d, t)
        end
      else Some (EmptyString, s)
  | EmptyString => Some (EmptyString, s)
  end.

(** The exponent, if there is one: [e] or [E], a sign or none, and one
    digit at least. *)
Definition exponent_part (s : string) : option (Z * string) :=
  match s with
  | String c r =>
      if Ascii.eqb c "e" || Ascii.eqb c "E" then
        let negative := match r with
                        | String a _ => Ascii.eqb a "-"
                        | EmptyString => false
                        end in
        let sign := match r with
                    | String a _ => Ascii.eqb a "-" || Ascii.eqb a "+"
                    | EmptyString => false
                    end in
        match span_digits (if sign then JS.drop 1 r else r) with
        | (EmptyString, _) => None
        | (d, t) =>
            Some (Number.signed negative (Z.of_N (Obj.digits_value 0 d)), t)
        end
      else Some (0%Z, s)
  | EmptyString => Some (0%Z, s)
  end.

(** A number literal without its sign: the integer part, an optional
    fraction and an optional exponent. *)
Definition parse_unsigned (negative : bool) (s : string)
  : option (jsval * string) :=
  match integer_part s with
  | None => None
  | Some (whole, s1) =>
      match fraction_part s1 with
      | None => None
      | Some (fraction, s2) =>
          match exponent_part s2 with
          | None => None
          | Some (exponent, rest) =>
              Some (Number.of_decimal negative
                      (Obj.digits_value 0 (whole ++ fraction))
                      (exponent - Z.of_nat (String.length fraction)),
                    rest)
          end
      end
  end.

Definition parse_number (s : string) : option (jsval * string) :=
  match s with
  | String c r =>
      if Ascii.eqb c "-" then parse_unsigned true r
      else parse_unsigned false s
  | EmptyString => None
  end.

Definition parse_literal (s : string) : option (jsval * string) :=
  if prefix "true" s then Some (JBool true, JS.drop 4 s)
  else if prefix "false" s then Some (JBool false, JS.drop 5 s)
  else if prefix "null" s then Some (JNull, JS.drop 4 s)
  else parse_number s.

Fixpoint parse_value (fuel : nat) (s : string) {struct fuel}
  : option (jsval * string) :=
  match fuel with
  | O => None
  | S f =>
      match skip_ws s with
      | EmptyString => None
      | String c r =>
          if Ascii.eqb c "{" then
            match skip_ws r with
            | EmptyString => None
            | String d r1 =>
                if Ascii.eqb d "}" then Some (JObj [], r1)
                else parse_members f [] (String d r1)
            end
          else if Ascii.eqb c "[" then
            match skip_ws r with
            | EmptyString => None
            | String d r1 =>
                if Ascii.eqb d "]" then Some (JArr [], r1)
                else parse_elements f [] (String d r1)
            end
          else if Ascii.eqb c dquote then
            match parse_string_body r with
            | Some (x, r1) => Some (JStr x, r1)
            | None => None
            end
          else parse_literal (String c r)
      end
  end

with parse_elements (fuel : nat) (acc : list jsval) (s : string) {struct fuel}
  : option (jsval * string) :=
  match fuel with
  | O => None
  | S f =>
      match parse_value f s with
      | Some (v, r) =>
          match skip_ws r with
          | EmptyString => None
          | String c r1 =>
              if Ascii.eqb c "," then parse_elements f (v :: acc) r1
              else if Ascii.eqb c "]" then Some (JArr (rev (v :: acc)), r1)
              else None
          end
      | None => None
      end
  end

with parse_members (fuel : nat) (acc : list (string * jsval)) (s : string)
  {struct fuel} : option (jsval * string) :=
  match fuel with
  | O => None
  | S f =>
      match skip_ws s with
      | EmptyString => None
      | String q r =>
          if Ascii.eqb q dquote then
            match parse_string_body r with
            | Some (k, r1) =>
                match skip_ws r1 with
                | EmptyString => None
                | String c r2 =>
                    if Ascii.eqb c ":" then
                      match parse_value f r2 with
                      | Some (v, r3) =>
                          match skip_ws r3 with
                          | EmptyString => None
                          | String e r4 =>
                              if Ascii.eqb e ","
                              then parse_members f (Obj.define k v acc) r4
                              else if Ascii.eqb e "}"
                              then Some (JObj (Obj.define k v acc), r4)
                              else None
                          end
                      | None => None
                      end
                    else None
                end
            | None => None
            end
          else None
      end
  end.

(** [JSON.parse(s)]: [None] when it throws [SyntaxError].  The three parsers
    never recurse more than twice without reading a character, so the fuel
    given here is never used up ([JSONFacts.parse_value_fuel]). *)
Definition parse (s : string) : option jsval :=
  match parse_value (2 * String.length s + 1) s with
  | Some (v, r) =>
      match skip_ws r with
      | EmptyString => Some v
      | _ => None
      end
  | None => None
  end.

End JSON.

(** ** The endpoint catalog

    The shape of [api.endpoints] (generated client), as the handler reads
    it. *)

Inductive ParamType : Type := Path | Query | Body | Header.

(** The [zod] schemas that are only passed on to the server. *)
Inductive Schema : Type :=
| z_any
| z_string
| z_union (a b : Schema)
| z_default (s : Schema) (d : string)
| z_describe (s : Schema) (text : string)
| z_ref (id : string).

Module Param.
Record t : Type := make
  { name : string;
    type : ParamType;
    schema : option Schema }.
End Param.

Module EndpointError.
Record t : Type := make { description : option string }.
End EndpointError.

Module Endpoint.
Record t : Type := make
  { method : string;
    path : string;
    alias : string;
    description : option string;
    parameters : option (list Param.t);
    errors : option (list EndpointError.t) }.
End Endpoint.

(** ** The request *)

Module Options.
(** The [options] object given to [graphRequest]; [body] and [excelFile] are
    absent when [None], [rawResponse] is absent when [false]. *)
Record t : Type := make
  { method : string;
    headers : @Obj.obj string;
    body : option string;
    excelFile : option string;
    rawResponse : bool }.
End Options.

(** ** The transport and the result envelope *)

Module McpResponse.
(** What [graphRequest] resolves to: text items, optional metadata and
    error flag. *)
Record item : Type := make_item { text : string }.
Record t : Type := make
  { content : list item;
    _meta : option jsval;
    isError : option bool }.
End McpResponse.

(** The value a call of [graphRequest] yields when it does not throw. *)
Inductive Response : Type :=
| RUndefined
| RNull
| RObject (r : McpResponse.t).

Definition GraphRequest : Type := string -> Options.t -> completion Response.

Inductive ContentItem : Type :=
| TextContent (text : string)
| ImageContent (data mimeType : string)
| AudioContent (data mimeType : string)
| ResourceTextContent (text uri : string) (mimeType : option string)
| ResourceBlobContent (blob uri : string) (mimeType : option string).

Module CallToolResult.
Record t : Type := make
  { content : list ContentItem;
    _meta : option jsval;
    isError : option bool }.
End CallToolResult.

(** ** The handler of a catalog operation *)

Module Handler.

(** The variables of the binding loop. *)
Record Bound : Type := mkBound
  { path : string;
    queryParams : @Obj.obj string;
    headers : @Obj.obj string;
    body : jsval }.

Definition odataParams : list string :=
  ["filter"; "select"; "expand"; "orderby"; "skip"; "top"; "count";
   "search"; "format"].

Definition fixedParamName (paramName : string) : string :=
  if existsb (String.eqb (JS.toLowerCase paramName)) odataParams
  then "$" ++ JS.toLowerCase paramName
  else paramName.

Definition parameterDefinitions (tool : Endpoint.t) : list Param.t :=
  match Endpoint.parameters tool with
  | Some ps => ps
  | None => []
  end.

Definition find_paramDef (tool : Endpoint.t) (paramName : string)
  : option Param.t :=
  find (fun p => String.eqb (Param.name p) paramName)
       (parameterDefinitions tool).

(** The value a [Body] argument (or the legacy [body] argument) leaves in
    [body]: a string is parsed, and kept as it is when parsing throws. *)
Definition body_value (paramValue : jsval) : jsval :=
  match paramValue with
  | JStr s =>
      match JSON.parse s with
      | Some v => v
      | None => JStr s
      end
  | v => v
  end.

Definition substitute (path paramName : string) (paramValue : jsval) : string :=
  let escaped := JS.encodeURIComponent (Value.ToString paramValue) in
  JS.replace (JS.replace path ("{" ++ paramName ++ "}") escaped)
             (":" ++ paramName) escaped.

(** One turn of the loop over [Object.entries(params)]. *)
Definition bind_param (tool : Endpoint.t) (st : Bound)
  (entry : string * jsval) : Bound :=
  let (paramName, paramValue) := entry in
  match find_paramDef tool paramName with
  | Some paramDef =>
      match Param.type paramDef with
      | Path =>
          mkBound (substitute (path st) paramName paramValue)
                  (queryParams st) (headers st) (body st)
      | Query =>
          mkBound (path st)
                  (Obj.set (fixedParamName paramName)
                           (Value.ToString paramValue) (queryParams st))
                  (headers st) (body st)
      | Body =>
          mkBound (path st) (queryParams st) (headers st)
                  (body_value paramValue)
      | Header =>
          mkBound (path st) (queryParams st)
                  (Obj.set (fixedParamName paramName)
                           (Value.ToString paramValue) (headers st))
                  (body st)
      end
  | None =>
      if String.eqb paramName "body"
      then mkBound (path st) (queryParams st) (headers st)
                   (body_value paramValue)
      else st
  end.

(** The arguments the loop acts on: those with a parameter definition and
    the legacy [body]; and among them those that assign [body]. *)
Definition known (tool : Endpoint.t) (paramName : string) : bool :=
  match find_paramDef tool paramName with
  | Some _ => true
  | None => String.eqb paramName "body"
  end.

Definition writes_body (tool : Endpoint.t) (paramName : string) : bool :=
  match find_paramDef tool paramName with
  | Some paramDef =>
      match Param.type paramDef with
      | Body => true
      | _ => false
      end
  | None => String.eqb paramName "body"
  end.

Definition keeps_body (tool : Endpoint.t) (entry : string * jsval) : bool :=
  negb (writes_body tool (fst entry)).

Definition is_known (tool : Endpoint.t) (entry : string * jsval) : bool :=
  known tool (fst entry).

Definition initial (tool : Endpoint.t) : Bound :=
  mkBound (Endpoint.path tool) [] [] JNull.

Definition bind_params (tool : Endpoint.t) (params : list (string * jsval))
  : Bound :=
  fold_left (bind_param tool) params (initial tool).

Definition queryString (queryParams : @Obj.obj string) : string :=
  JS.join "&"
    (map (fun kv => match kv with
                    | (key, value) =>
                        JS.encodeURIComponent key ++ "="
                        ++ JS.encodeURIComponent value
                    end)
         (Obj.entries queryParams)).

Definition with_query (path : string) (queryParams : @Obj.obj string)
  : string :=
  if 0 <? List.length (Obj.entries queryParams)
  then path ++ (if JS.includes path "?" then "&" else "?")
            ++ queryString queryParams
  else path.

Definition attached_body (method : string) (body : jsval) : option string :=
  if negb (String.eqb method "GET") && Value.truthy body
  then Some (match body with
             | JStr s => s
             | v => JSON.stringify v
             end)
  else None.

Fixpoint span_not_colon (s : string) : string * string :=
  match s with
  | EmptyString => (EmptyString, EmptyString)
  | String c r =>
      if Ascii.eqb c ":" then (EmptyString, s)
      else let (g, t) := span_not_colon r in (String c g, t)
  end.

(** The first group of the leftmost match of
    [/\/me\/drive\/root:([^:]+):/]. *)
Fixpoint match_drive_root (s : string) : option string :=
  let here :=
    if prefix "/me/drive/root:" s then
      match span_not_colon (JS.drop 15 s) with
      | (String c g, String _ _) => Some (String c g)
      | _ => None
      end
    else None in
  match here with
  | Some g => Some g
  | None =>
      match s with
      | EmptyString => None
      | String _ r => match_drive_root r
      end
  end.

Definition excel_file (tool : Endpoint.t) (path : string) : option string :=
  if JS.includes (Endpoint.alias tool) "excel" && JS.includes path "workbook"
  then match_drive_root path
  else None.

Definition isProbablyMediaContent (tool : Endpoint.t) (path : string) : bool :=
  match Endpoint.errors tool with
  | Some errs =>
      existsb (fun error =>
                 match EndpointError.description error with
                 | Some d => String.eqb d "Retrieved media content"
                 | None => false
                 end) errs
  | None => false
  end
  || JS.endsWith path "/content".

(** The path and the options handed to [graphRequest]. *)
Definition request (tool : Endpoint.t) (params : list (string * jsval))
  : string * Options.t :=
  let st := bind_params tool params in
  let path := with_query (path st) (queryParams st) in
  let method := JS.toUpperCase (Endpoint.method tool) in
  (path,
   Options.make method (headers st) (attached_body method (body st))
     (excel_file tool path) (isProbablyMediaContent tool path)).

(** *** Normalisation *)

Definition TypeError_read (of_value property : string) : Error :=
  mkError ("Cannot read properties of " ++ of_value
           ++ " (reading '" ++ property ++ "')").

(** What [JSON.parse] throws; its message depends on the engine and on the
    text, and the handler never reads it. *)
Definition SyntaxError_json : Error :=
  mkError "Unexpected token in JSON".

(** [v.k] or [v[k]] for a key that no prototype defines. *)
Definition get_property (v : jsval) (k : string) : completion (option jsval) :=
  match v with
  | JNull => Throw (TypeError_read "null" k)
  | JObj ps => Normal (Obj.get k ps)
  | _ => Normal None
  end.

Local Open Scope completion_scope.

(** The body of the inner [try]: what is evaluated for the log lines. *)
Definition inspect_json (responseText : string) : completion unit :=
  jsonResponse <- match JSON.parse responseText with
                  | Some v => Normal v
                  | None => Throw SyntaxError_json
                  end ;;
  value <- get_property jsonResponse "value" ;;
  match value with
  | Some (JArr (first :: _)) =>
      item_body <- get_property first "body" ;; Normal tt
  | _ => Normal tt
  end ;;;
  nextLink <- get_property jsonResponse "@odata.nextLink" ;;
  Normal tt.

Definition inspect (response : McpResponse.t) : completion unit :=
  match McpResponse.content response with
  | first :: _ =>
      try_catch (inspect_json (McpResponse.text first))
                (fun e => Normal tt)
  | [] => Normal tt
  end.

Definition normalize (response : Response) : completion CallToolResult.t :=
  match response with
  | RUndefined => Throw (TypeError_read "undefined" "content")
  | RNull => Throw (TypeError_read "null" "content")
  | RObject r =>
      inspect r ;;;
      Normal (CallToolResult.make
                (map (fun item => TextContent (McpResponse.text item))
                     (McpResponse.content r))
                (McpResponse._meta r)
                (McpResponse.isError r))
  end.

(** [(error as Error).message]: the cast checks nothing, and reading a
    property of [null] or [undefined] throws. *)
Definition read_message (error : Error) : completion (option jsval) :=
  match error with
  | mkError m => Normal (Some (JStr m))
  | Thrown None => Throw (TypeError_read "undefined" "message")
  | Thrown (Some v) => get_property v "message"
  end.

(** [`Error in tool ${tool.alias}: ${(error as Error).message}`]. *)
Definition error_text (tool : Endpoint.t) (error : Error)
  : completion string :=
  m <- read_message error ;;
  text <- Conversion.text_of m ;;
  Normal ("Error in tool " ++ Endpoint.alias tool ++ ": " ++ text).

Definition error_object (m : string) : jsval := JObj [("error", JStr m)].

(** The [catch] block: the text is built for the log line and again for the
    result, from the same values. *)
Definition error_result (tool : Endpoint.t) (error : Error)
  : completion CallToolResult.t :=
  text <- error_text tool error ;;
  Normal (CallToolResult.make
            [TextContent (JSON.stringify (error_object text))]
            None (Some true)).

(** The body of the outer [try]. *)
Definition attempt (graphRequest : GraphRequest) (tool : Endpoint.t)
  (params : list (string * jsval)) : completion CallToolResult.t :=
  let (path, options) := request tool params in
  response <- graphRequest path options ;;
  normalize response.

(** The callback registered for [tool]. *)
Definition handler (graphRequest : GraphRequest) (tool : Endpoint.t)
  (params : list (string * jsval)) : completion CallToolResult.t :=
  try_catch (attempt graphRequest tool params)
            (fun error => error_result tool error).

End Handler.

(** ** The callback with its conversions

    [Handler] takes the text of an argument and the escaped form of a text
    as given.  Two conversions of the callback can throw: the conversion of
    an argument to text ([`${paramValue}`], and [encodeURIComponent] applied
    to an argument, which converts it first), and [encodeURIComponent]
    itself.  Here they do; what is thrown in the [try] block reaches the
    [catch] block like anything else. *)

Module Callback.

Import Handler.

Local Open Scope completion_scope.

(** [encodeURIComponent(paramValue as string)]. *)
Definition escaped (paramValue : jsval) : completion string :=
  text <- Conversion.text paramValue ;;
  Conversion.encodeURIComponent text.

(** [path.replace(`{${paramName}}`, ...).replace(`:${paramName}`, ...)]:
    the value is converted and escaped for each replacement. *)
Definition substitute (path paramName : string) (paramValue : jsval)
  : completion string :=
  first <- escaped paramValue ;;
  let replaced := JS.replace path ("{" ++ paramName ++ "}") first in
  second <- escaped paramValue ;;
  Normal (JS.replace replaced (":" ++ paramName) second).

(** One turn of the loop over [Object.entries(params)]. *)
Definition bind_param (tool : Endpoint.t) (st : Bound)
  (entry : string * jsval) : completion Bound :=
  let (paramName, paramValue) := entry in
  match find_paramDef tool paramName with
  | Some paramDef =>
      match Param.type paramDef with
      | Path =>
          path' <- substitute (path st) paramName paramValue ;;
          Normal (mkBound path' (queryParams st) (headers st) (body st))
      | Query =>
          text <- Conversion.text paramValue ;;
          Normal (mkBound (path st)
                    (Obj.set (fixedParamName paramName) text (queryParams st))
                    (headers st) (body st))
      | Body =>
          Normal (mkBound (path st) (queryParams st) (headers st)
                    (body_value paramValue))
      | Header =>
          text <- Conversion.text paramValue ;;
          Normal (mkBound (path st) (queryParams st)
                    (Obj.set (fixedParamName paramName) text (headers st))
                    (body st))
      end
  | None =>
      Normal (if String.eqb paramName "body"
              then mkBound (path st) (queryParams st) (headers st)
                     (body_value paramValue)
              else st)
  end.

Fixpoint bind_from (tool : Endpoint.t) (st : Bound)
  (params : list (string * jsval)) : completion Bound :=
  match params with
  | [] => Normal st
  | entry :: rest =>
      st' <- bind_param tool st entry ;;
      bind_from tool st' rest
  end.

Definition bind_params (tool : Endpoint.t) (params : list (string * jsval))
  : completion Bound :=
  bind_from tool (initial tool) params.

(** [Object.entries(queryParams).map(...)]: key and value of each pair are
    escaped in turn. *)
Fixpoint query_pairs (entries : list (string * string))
  : completion (list string) :=
  match entries with
  | [] => Normal []
  | (key, value) :: rest =>
      k <- Conversion.encodeURIComponent key ;;
      v <- Conversion.encodeURIComponent value ;;
      more <- query_pairs rest ;;
      Normal ((k ++ "=" ++ v) :: more)
  end.

Definition with_query (path : string) (queryParams : @Obj.obj string)
  : completion string :=
  if 0 <? List.length (Obj.entries queryParams)
  then
    pairs <- query_pairs (Obj.entries queryParams) ;;
    Normal (path ++ (if JS.includes path "?" then "&" else "?")
                 ++ JS.join "&" pairs)
  else Normal path.

(** The path and the options handed to [graphRequest]. *)
Definition request (tool : Endpoint.t) (params : list (string * jsval))
  : completion (string * Options.t) :=
  st <- bind_params tool params ;;
  path <- with_query (path st) (queryParams st) ;;
  let method := JS.toUpperCase (Endpoint.method tool) in
  Normal (path,
          Options.make method (headers st) (attached_body method (body st))
            (excel_file tool path) (isProbablyMediaContent tool path)).

(** The body of the outer [try]. *)
Definition attempt (graphRequest : GraphRequest) (tool : Endpoint.t)
  (params : list (string * jsval)) : completion CallToolResult.t :=
  sent <- request tool params ;;
  response <- graphRequest (fst sent) (snd sent) ;;
  normalize response.

(** The callback registered for [tool]. *)
Definition handler (graphRequest : GraphRequest) (tool : Endpoint.t)
  (params : list (string * jsval)) : completion CallToolResult.t :=
  try_catch (attempt graphRequest tool params)
            (fun error => error_result tool error).

(** The conversions of one argument succeed: bound to a [Path], [Query] or
    [Header] parameter it has a text, which for a [Path] parameter can be
    escaped. *)
Definition quiet_entry (tool : Endpoint.t) (entry : string * jsval) : bool :=
  match find_paramDef tool (fst entry) with
  | Some paramDef =>
      match Param.type paramDef with
      | Path =>
          Conversion.printable (snd entry)
          && negb (Conversion.lone_surrogate (Value.ToString (snd entry)))
      | Query | Header => Conversion.printable (snd entry)
      | Body => true
      end
  | None => true
  end.

Definition quiet_pair (kv : string * string) : bool :=
  negb (Conversion.lone_surrogate (fst kv))
  && negb (Conversion.lone_surrogate (snd kv)).

(** The conversions of the invocation succeed: those of every argument,
    and the escaping of the query pairs that are left at the end of the
    loop. *)
Definition quiet (tool : Endpoint.t) (params : list (string * jsval))
  : bool :=
  forallb (quiet_entry tool) params
  && forallb quiet_pair
       (Obj.entries (queryParams (Handler.bind_params tool params))).

(** What is thrown is an [Error] object. *)
Definition is_error_object (error : Error) : Prop :=
  exists m, error = mkError m.

End Callback.

(** ** Further notions about a catalog operation *)

Module HandlerNotions.

Import Handler.

(** [tool.errors?.some(...)]: a declared error response described as
    retrieved media content. *)
Definition has_media_error (tool : Endpoint.t) : bool :=
  match Endpoint.errors tool with
  | Some errs =>
      existsb (fun error =>
                 match EndpointError.description error with
                 | Some d => String.eqb d "Retrieved media content"
                 | None => false
                 end) errs
  | None => false
  end.

(** The argument [entry] is bound to a parameter of location [location]
    and stored under [key]. *)
Definition stores (tool : Endpoint.t) (location : ParamType) (key : string)
  (entry : string * jsval) : bool :=
  match find_paramDef tool (fst entry) with
  | Some paramDef =>
      match Param.type paramDef, location with
      | Query, Query | Header, Header =>
          String.eqb (fixedParamName (fst entry)) key
      | _, _ => false
      end
  | None => false
  end.

Definition leaves (tool : Endpoint.t) (location : ParamType) (key : string)
  (entry : string * jsval) : bool :=
  negb (stores tool location key entry).

(** The object an argument of location [Query] or [Header] is stored in;
    the other locations have none. *)
Definition store_of (location : ParamType) (st : Bound) : @Obj.obj string :=
  match location with
  | Query => queryParams st
  | Header => headers st
  | Path | Body => []
  end.

Definition is_store (location : ParamType) : Prop :=
  location = Query \/ location = Header.

Definition drive_root : string := "/me/drive/root:".

(** What the pattern of [match_drive_root] gives at the start of [s]. *)
Definition group_here (s : string) : option string :=
  if prefix drive_root s then
    match span_not_colon (JS.drop 15 s) with
    | (String c g, String _ _) => Some (String c g)
    | _ => None
    end
  else None.

End HandlerNotions.

(** ** Path templates

    A path template seen as literal text and placeholders, in braces or
    after a colon; used to say when every placeholder of a supplied
    argument gets resolved. *)

Module Template.

Inductive segment : Type :=
| Literal (text : string)
| Placeholder (name : string)
| ColonPlaceholder (name : string).

Definition t : Type := list segment.

Fixpoint render (tpl : t) : string :=
  match tpl with
  | [] => EmptyString
  | Literal text :: r => text ++ render r
  | Placeholder name :: r => "{" ++ name ++ "}" ++ render r
  | ColonPlaceholder name :: r => ":" ++ name ++ render r
  end.

(** Text without brace and without colon. *)
Definition plain (s : string) : bool :=
  JS.lacks "{" s && JS.lacks "}" s && JS.lacks ":" s.

(** The segments of a template without colon. *)
Definition plain_segment (seg : segment) : bool :=
  match seg with
  | Literal text => plain text
  | Placeholder name => plain name
  | ColonPlaceholder _ => false
  end.

(** The names in braces. *)
Fixpoint placeholders (tpl : t) : list string :=
  match tpl with
  | [] => []
  | Placeholder name :: r => name :: placeholders r
  | _ :: r => placeholders r
  end.

(** The names after a colon. *)
Fixpoint colon_names (tpl : t) : list string :=
  match tpl with
  | [] => []
  | ColonPlaceholder name :: r => name :: colon_names r
  | _ :: r => colon_names r
  end.

Fixpoint distinct (names : list string) : bool :=
  match names with
  | [] => true
  | n :: r => negb (existsb (String.eqb n) r) && distinct r
  end.

(** A template without colon: literal text and names are plain, and no
    name occurs twice. *)
Definition well_formed (tpl : t) : bool :=
  forallb plain_segment tpl && distinct (placeholders tpl).

(** The template with the segments that [target] selects given the text
    [value]. *)
Definition fill_where (target : segment -> bool) (value : string) (tpl : t)
  : t :=
  map (fun seg => if target seg then Literal value else seg) tpl.

Definition in_braces (name : string) (seg : segment) : bool :=
  match seg with
  | Placeholder m => String.eqb m name
  | _ => false
  end.

Definition after_colon (name : string) (seg : segment) : bool :=
  match seg with
  | ColonPlaceholder m => String.eqb m name
  | _ => false
  end.

Definition names (name : string) (seg : segment) : bool :=
  in_braces name seg || after_colon name seg.

(** The template with the placeholders [name], of either form, given the
    text [value]. *)
Definition fill (name value : string) (tpl : t) : t :=
  fill_where (names name) value tpl.

Definition fill_argument (tool : Endpoint.t) (tpl : t)
  (entry : string * jsval) : t :=
  match Handler.find_paramDef tool (fst entry) with
  | Some paramDef =>
      match Param.type paramDef with
      | Path =>
          fill (fst entry)
               (JS.encodeURIComponent (Value.ToString (snd entry))) tpl
      | _ => tpl
      end
  | None => tpl
  end.

(** The template with the placeholders of the supplied [Path] arguments
    given their escaped values. *)
Definition resolve (tool : Endpoint.t) (params : list (string * jsval))
  (tpl : t) : t :=
  fold_left (fill_argument tool) params tpl.

(** Every [Path] parameter of [tool] has a plain name. *)
Definition plain_names (tool : Endpoint.t) : bool :=
  forallb (fun p => match Param.type p with
                    | Path => plain (Param.name p)
                    | _ => true
                    end)
          (Handler.parameterDefinitions tool).

(** [name] is the name of a supplied argument bound to a [Path] parameter. *)
Definition supplied_path (tool : Endpoint.t) (params : list (string * jsval))
  (name : string) : Prop :=
  exists value paramDef,
    In (name, value) params
    /\ Handler.find_paramDef tool name = Some paramDef
    /\ Param.type paramDef = Path.

(** *** Templates with colons

    A colon in a template may start a placeholder, or be literal text as in
    [/me/drive/root:/book.xlsx:/workbook].  The name of a [Path] parameter
    is looked for after every colon, so the text after each colon has to
    differ from every such name that is not the placeholder's own. *)

(** The names of the [Path] parameters of [tool]. *)
Definition path_names (tool : Endpoint.t) : list string :=
  map Param.name
      (filter (fun p => match Param.type p with
                        | Path => true
                        | _ => false
                        end)
              (Handler.parameterDefinitions tool)).

(** [name] and [text] differ at a place that both have: [name] is found at
    the head of no text that begins with [text]. *)
Fixpoint clash (name text : string) : bool :=
  match name, text with
  | String a n, String b t => if Ascii.eqb a b then clash n t else true
  | _, _ => false
  end.

(** After every colon of the literal text [s] comes text that clashes with
    every name. *)
Fixpoint literal_safe (names : list string) (s : string) : bool :=
  match s with
  | EmptyString => true
  | String c r =>
      (if Ascii.eqb c ":" then forallb (fun n => clash n r) names else true)
      && literal_safe names r
  end.

(** The literal text that follows a segment, as far as the template
    fixes it. *)
Definition following (r : t) : string :=
  match r with
  | Literal text :: _ => text
  | _ => EmptyString
  end.

(** After every colon of the template comes text that clashes with every
    name, but for the own name of a placeholder. *)
Fixpoint colons_safe (names : list string) (tpl : t) : bool :=
  match tpl with
  | [] => true
  | Literal text :: r => literal_safe names text && colons_safe names r
  | Placeholder _ :: r => colons_safe names r
  | ColonPlaceholder m :: r =>
      forallb (fun n => String.eqb n m || clash n (m ++ following r)) names
      && colons_safe names r
  end.

Definition segment_ok (seg : segment) : bool :=
  match seg with
  | Literal text => JS.lacks "{" text
  | Placeholder name => plain name
  | ColonPlaceholder name => plain name
  end.

(** A template for the [Path] parameters of [tool]: literal text without
    opening brace, placeholders with plain names that occur once in each
    form, parameters with plain names, and colons that are safe for these
    names. *)
Definition routed (tool : Endpoint.t) (tpl : t) : bool :=
  forallb segment_ok tpl
  && distinct (placeholders tpl) && distinct (colon_names tpl)
  && plain_names tool
  && colons_safe (path_names tool) tpl.

(** The text of one segment. *)
Definition segment_text (seg : segment) : string :=
  match seg with
  | Literal text => text
  | Placeholder name => "{" ++ name ++ "}"
  | ColonPlaceholder name => ":" ++ name
  end.

(** The search for [pattern] in [tpl] goes over every segment that is not
    a [target], and a [target] is the pattern itself and the only one. *)
Fixpoint passes (pattern : string) (target : segment -> bool) (tpl : t)
  : Prop :=
  match tpl with
  | [] => True
  | seg :: r =>
      (if target seg
       then segment_text seg = pattern
            /\ existsb target r = false
       else JS.find_first pattern (segment_text seg ++ render r)
            = JS.prepend (segment_text seg) (JS.find_first pattern (render r)))
      /\ passes pattern target r
  end.

End Template.

(** ** Registration *)

Module Registrar.

(** Which callback a registration carries. *)
Inductive Callback : Type :=
| CatalogOperation (tool : Endpoint.t)
| DebugExcelAccess
| UploadFileToOneDrive
| CreateEmptyExcelFile.

Record Annotations : Type := mkAnnotations
  { title : string;
    readOnlyHint : bool }.

(** The arguments of one call of [server.tool]. *)
Record Registration : Type := mkRegistration
  { name : string;
    description : string;
    paramSchema : @Obj.obj Schema;
    annotations : option Annotations;
    callback : Callback }.

(** The server, as far as [registerGraphTools] acts on it: the calls of
    [server.tool] it has received, oldest first. *)
Definition Server : Type := list Registration.

Definition server_tool (r : Registration) (server : Server) : Server :=
  (server ++ [r])%list.

Definition is_get (tool : Endpoint.t) : bool :=
  String.eqb (JS.toUpperCase (Endpoint.method tool)) "GET".

Definition param_schema (param : Param.t) : Schema :=
  match Param.type param, Param.schema param with
  | Body, Some s => z_union z_string s
  | _, Some s => s
  | _, None => z_any
  end.

Definition build_paramSchema (tool : Endpoint.t) : @Obj.obj Schema :=
  fold_left
    (fun acc param => Obj.set (Param.name param) (param_schema param) acc)
    (Handler.parameterDefinitions tool) [].

Definition catalog_registration (tool : Endpoint.t) : Registration :=
  mkRegistration
    (Endpoint.alias tool)
    (match Endpoint.description tool with Some d => d | None => EmptyString end)
    (build_paramSchema tool)
    (Some (mkAnnotations (Endpoint.alias tool) (is_get tool)))
    (CatalogOperation tool).

(** One turn of the loop over [api.endpoints]. *)
Definition register_endpoint (readOnly : bool) (server : Server)
  (tool : Endpoint.t) : Server :=
  if readOnly && negb (is_get tool) then server
  else server_tool (catalog_registration tool) server.

Definition debug_excel_access : Registration :=
  mkRegistration "debug-excel-access"
    "Debug Excel file access and permissions"
    [("filePath",
      z_describe z_string "Path to Excel file (e.g., /test.xlsx)")]
    None DebugExcelAccess.

Definition spreadsheet_mime : string :=
  "application/vnd.openxmlformats-officedocument.spreadsheetml.sheet".

Definition upload_file_to_onedrive : Registration :=
  mkRegistration "upload-file-to-onedrive"
    "Upload a new file to OneDrive"
    [("fileName",
      z_describe z_string
        ("Name of the file to create (e.g., " ++ JSON.quote "test.xlsx"
         ++ ")"));
     ("content",
      z_describe z_string "File content (base64 encoded for binary files)");
     ("folderPath",
      z_describe (z_default z_string "/") "Folder path (default: root folder)");
     ("contentType",
      z_describe (z_default z_string spreadsheet_mime) "MIME type of the file")]
    None UploadFileToOneDrive.

Definition create_empty_excel_file : Registration :=
  mkRegistration "create-empty-excel-file"
    "Create an empty Excel file in OneDrive"
    [("fileName",
      z_describe z_string
        ("Name of the Excel file (e.g., " ++ JSON.quote "MyWorkbook.xlsx"
         ++ ")"));
     ("folderPath",
      z_describe (z_default z_string "/") "Folder path (default: root folder)")]
    None CreateEmptyExcelFile.

(** The request of the [upload-file-to-onedrive] callback. *)
Definition upload_request (fileName content folderPath contentType : string)
  : string * Options.t :=
  (if String.eqb folderPath "/"
   then "/me/drive/root:/" ++ fileName ++ ":/content"
   else "/me/drive/root:" ++ folderPath ++ "/" ++ fileName ++ ":/content",
   Options.make "PUT" [("Content-Type", contentType)] (Some content)
     None false).

(** [registerGraphTools(server, graphClient, readOnly)] on a server without
    registrations: the calls of [server.tool] it makes, in order. *)
Definition registerGraphTools (endpoints : list Endpoint.t) (readOnly : bool)
  : Server :=
  let server := fold_left (register_endpoint readOnly) endpoints [] in
  let server := server_tool debug_excel_access server in
  let server := server_tool upload_file_to_onedrive server in
  server_tool create_empty_excel_file server.

(** The descriptors the loop does not skip. *)
Definition eligible (readOnly : bool) (tool : Endpoint.t) : bool :=
  negb (readOnly && negb (is_get tool)).

(** The registrations read-only mode keeps: all but the catalog operations
    whose method is not GET. *)
Definition kept_read_only (r : Registration) : bool :=
  match callback r with
  | CatalogOperation tool => is_get tool
  | _ => true
  end.

(** The last parameter definition named [paramName]. *)
Definition last_paramDef (tool : Endpoint.t) (paramName : string)
  : option Param.t :=
  find (fun p => String.eqb (Param.name p) paramName)
       (rev (Handler.parameterDefinitions tool)).

(** The catalog descriptors among the registered operations. *)
Definition catalog_operations (server : Server) : list Endpoint.t :=
  flat_map (fun r => match callback r with
                     | CatalogOperation tool => [tool]
                     | _ => []
                     end) server.

End Registrar.

(** ** The fixed operations

    The callbacks of [debug-excel-access], [upload-file-to-onedrive] and
    [create-empty-excel-file].  They call the transport themselves, so a
    computation here yields, with its completion, the calls it made, oldest
    first. *)

Module FixedTools.

(** The options literal of a call; a call without options has none. *)
Record Init : Type := mkInit
  { method : string;
    headers : option (@Obj.obj string);
    body : option string }.

Definition Call : Type := (string * option Init)%type.

Definition Transport : Type := string -> option Init -> completion Response.

Definition io (A : Type) : Type := Transport -> completion A * list Call.

Definition ret {A : Type} (c : completion A) : io A := fun _ => (c, []).

Definition call (path : string) (init : option Init) : io Response :=
  fun graphRequest => (graphRequest path init, [(path, init)]).

Definition and_then {A B : Type} (m : io A) (k : A -> io B) : io B :=
  fun graphRequest =>
    match m graphRequest with
    | (Normal a, calls) =>
        let (r, more) := k a graphRequest in (r, (calls ++ more)%list)
    | (Throw e, calls) => (Throw e, calls)
    end.

(** [try { m } catch (error) { h error }]. *)
Definition try_io {A : Type} (m : io A) (h : Error -> io A) : io A :=
  fun graphRequest =>
    match m graphRequest with
    | (Normal a, calls) => (Normal a, calls)
    | (Throw e, calls) =>
        let (r, more) := h e graphRequest in (r, (calls ++ more)%list)
    end.

Declare Scope io_scope.
Delimit Scope io_scope with io.
Notation "x <- c ;; k" := (and_then c (fun x => k))
  (at level 61, c at next level, right associativity) : io_scope.

Definition newline : string := String (ascii_of_nat 10) EmptyString.

(** [JSON.stringify(v, null, 2)], at the indentation [indent]. *)
Fixpoint stringify_pretty (indent : string) (v : jsval) : string :=
  let inner := indent ++ "  " in
  match v with
  | JArr xs =>
      match xs with
      | [] => "[]"
      | _ :: _ =>
          "[" ++ newline ++ inner
          ++ JS.join ("," ++ newline ++ inner)
               (map (stringify_pretty inner) xs)
          ++ newline ++ indent ++ "]"
      end
  | JObj ps =>
      match ps with
      | [] => "{}"
      | _ :: _ =>
          "{" ++ newline ++ inner
          ++ JS.join ("," ++ newline ++ inner)
               (map (fun p => match p with
                              | (k, x) =>
                                  JSON.quote k ++ ": "
                                  ++ stringify_pretty inner x
                              end) ps)
          ++ newline ++ indent ++ "}"
      end
  | _ => JSON.stringify v
  end.

(** [{ error: errorMessage }]: a property that is [undefined] is left out
    by [JSON.stringify]. *)
Definition error_report (errorMessage : option jsval) : jsval :=
  JObj (match errorMessage with
        | Some m => [("error", m)]
        | None => []
        end).

(** The [catch] block of a fixed operation: the message is read, printed
    for the log line, and put in the result. *)
Definition error_result (error : Error) : completion CallToolResult.t :=
  bind (Handler.read_message error) (fun errorMessage =>
  bind (Conversion.text_of errorMessage) (fun _ =>
  Normal (CallToolResult.make
            [TextContent
               (stringify_pretty EmptyString (error_report errorMessage))]
            None (Some true)))).

(** A fixed operation returns the response of the transport as it is, or a
    result it builds. *)
Inductive Returned : Type :=
| Forwarded (response : Response)
| Built (result : CallToolResult.t).

Definition upload_path (fileName folderPath : string) : string :=
  if String.eqb folderPath "/"
  then "/me/drive/root:/" ++ fileName ++ ":/content"
  else "/me/drive/root:" ++ folderPath ++ "/" ++ fileName ++ ":/content".

Local Open Scope io_scope.

(** The callback of [upload-file-to-onedrive]. *)
Definition upload_file_to_onedrive
  (fileName content folderPath contentType : string) : io Returned :=
  try_io
    (response <- call (upload_path fileName folderPath)
                   (Some (mkInit "PUT"
                            (Some [("Content-Type", contentType)])
                            (Some content))) ;;
     ret (Normal (Forwarded response)))
    (fun error => ret (bind (error_result error)
                         (fun result => Normal (Built result)))).

(** The callback of [create-empty-excel-file]. *)
Definition create_empty_excel_file (fileName folderPath : string)
  : io Returned :=
  try_io
    (response <- call (upload_path fileName folderPath)
                   (Some (mkInit "PUT"
                            (Some [("Content-Type", Registrar.spreadsheet_mime)])
                            (Some EmptyString))) ;;
     ret (Normal (Forwarded response)))
    (fun error => ret (bind (error_result error)
                         (fun result => Normal (Built result)))).

Section Engine.

(** The message of the [SyntaxError] that [JSON.parse] throws on a text;
    it is the engine's. *)
Variable SyntaxError_message : string -> string.

(** [JSON.parse(response.content[0].text)]. *)
Definition parse_first_text (response : Response) : completion jsval :=
  match response with
  | RUndefined => Throw (Handler.TypeError_read "undefined" "content")
  | RNull => Throw (Handler.TypeError_read "null" "content")
  | RObject r =>
      match McpResponse.content r with
      | [] => Throw (Handler.TypeError_read "undefined" "text")
      | first :: _ =>
          match JSON.parse (McpResponse.text first) with
          | Some v => Normal v
          | None =>
              Throw (mkError (SyntaxError_message (McpResponse.text first)))
          end
      end
  end.

Definition create_session : Init :=
  mkInit "POST" None
    (Some (JSON.stringify (JObj [("persistChanges", JBool false)]))).

(** The four calls of [debug-excel-access], in order. *)
Definition debug_calls (filePath : string) : list Call :=
  [("/me/drive/root:" ++ filePath, None);
   ("/me/drive/root:" ++ filePath ++ ":/workbook/createSession",
    Some create_session);
   ("/me/drive/root:" ++ filePath ++ ":/workbook/worksheets", None);
   ("/me/drive/root:" ++ filePath
    ++ ":/workbook/worksheets/Sheet1/range(address='A1:C5')", None)].

Definition debug_report (fileInfo sessionResult worksheets range : Response)
  : completion CallToolResult.t :=
  bind (parse_first_text fileInfo) (fun a =>
  bind (parse_first_text sessionResult) (fun b =>
  bind (parse_first_text worksheets) (fun c =>
  bind (parse_first_text range) (fun d =>
  Normal (CallToolResult.make
            [TextContent
               (stringify_pretty EmptyString
                  (JObj [("fileInfo", a); ("sessionResult", b);
                         ("worksheets", c); ("range", d)]))]
            None None))))).

(** The callback of [debug-excel-access]. *)
Definition debug_excel_access (filePath : string) : io CallToolResult.t :=
  try_io
    (fileInfo <- call ("/me/drive/root:" ++ filePath) None ;;
     sessionResult <-
       call ("/me/drive/root:" ++ filePath ++ ":/workbook/createSession")
            (Some create_session) ;;
     worksheets <-
       call ("/me/drive/root:" ++ filePath ++ ":/workbook/worksheets") None ;;
     range <-
       call ("/me/drive/root:" ++ filePath
             ++ ":/workbook/worksheets/Sheet1/range(address='A1:C5')") None ;;
     ret (debug_report fileInfo sessionResult worksheets range))
    (fun error => ret (error_result error)).

End Engine.

(** The responses of the calls that a transport answers without throwing,
    up to the first call it throws on. *)
Fixpoint answered (graphRequest : Transport) (calls : list Call)
  : list Response :=
  match calls with
  | [] => []
  | (path, init) :: rest =>
      match graphRequest path init with
      | Normal r => r :: answered graphRequest rest
      | Throw _ => []
      end
  end.

End FixedTools.

(** ** Reading a query string

    How a reader takes a query string apart: pieces between [&], each cut
    at its first [=], both sides percent-decoded.  Used to show that the
    query string determines the pairs it was made from. *)

Module QueryReading.

Fixpoint decode (s : string) : string :=
  match s with
  | EmptyString => EmptyString
  | String c r =>
      if Ascii.eqb c "%" then
        match r with
        | String h1 (String h2 r1) =>
            match JSON.hex_value h1, JSON.hex_value h2 with
            | Some a, Some b => String (ascii_of_nat (a * 16 + b)) (decode r1)
            | _, _ => String c (decode r)
            end
        | _ => String c (decode r)
        end
      else String c (decode r)
  end.

(** [s.split(c)]. *)
Fixpoint pieces (c : ascii) (s : string) : list string :=
  match s with
  | EmptyString => [EmptyString]
  | String x r =>
      if Ascii.eqb x c then EmptyString :: pieces c r
      else match pieces c r with
           | p :: ps => String x p :: ps
           | [] => [String x EmptyString]
           end
  end.

(** The text before the first [c], and the text after it if there is one. *)
Fixpoint cut (c : ascii) (s : string) : string * option string :=
  match s with
  | EmptyString => (EmptyString, None)
  | String x r =>
      if Ascii.eqb x c then (EmptyString, Some r)
      else let (a, b) := cut c r in (String x a, b)
  end.

(** One pair as the query string renders it. *)
Definition pair_text (kv : string * string) : string :=
  JS.encodeURIComponent (fst kv) ++ "=" ++ JS.encodeURIComponent (snd kv).

Definition read_pair (piece : string) : string * string :=
  match cut "=" piece with
  | (k, Some v) => (decode k, decode v)
  | (k, None) => (decode k, EmptyString)
  end.

Definition read (query : string) : list (string * string) :=
  match query with
  | EmptyString => []
  | _ => map read_pair (pieces "&" query)
  end.

End QueryReading.

(** ** Values as JavaScript holds them *)

Module Canonical.

(** The object whose properties are defined one after the other. *)
Definition of_entries (ps : list (string * jsval)) : list (string * jsval) :=
  fold_left (fun acc p => Obj.define (fst p) (snd p) acc) ps [].

(** The properties of every object of the value are in the order in which
    JavaScript enumerates them, each key once, and its numbers are finite
    binary64 values. *)
Fixpoint canonical (v : jsval) : Prop :=
  match v with
  | JArr xs =>
      (fix all (l : list jsval) : Prop :=
         match l with
         | [] => True
         | x :: r => canonical x /\ all r
         end) xs
  | JObj ps =>
      of_entries ps = ps
      /\ (fix all (l : list (string * jsval)) : Prop :=
            match l with
            | [] => True
            | p :: r => canonical (snd p) /\ all r
            end) ps
  | JNum _ | JFrac _ _ _ | JInf _ => Number.binary64 v = true
  | JNull | JBool _ | JStr _ => True
  end.

(** A character the text of a value can begin with: no white space and no
    closing bracket. *)
Definition opens (c : ascii) : Prop :=
  JSON.is_ws c = false
  /\ Ascii.eqb c "]" = false /\ Ascii.eqb c "}" = false.

(** One member of an object as [JSON.stringify] writes it. *)
Definition member_text (p : string * jsval) : string :=
  JSON.quote (fst p) ++ ":" ++ JSON.stringify (snd p).

(** The text is over, or goes on with a comma or a closing bracket. *)
Definition closes (rest : string) : bool :=
  match rest with
  | EmptyString => true
  | String c _ => existsb (Ascii.eqb c) [","; "]"; "}"]%char
  end.

(** The text does not go on with a digit. *)
Definition no_digit (rest : string) : Prop :=
  match rest with
  | EmptyString => True
  | String c _ => JS.is_digit c = false
  end.

(** The text does not go on with a digit, a point or an exponent. *)
Definition ends_number (rest : string) : Prop :=
  match rest with
  | EmptyString => True
  | String c _ =>
      JS.is_digit c = false /\ Ascii.eqb c "." = false
      /\ Ascii.eqb c "e" = false /\ Ascii.eqb c "E" = false
  end.

(** The text of a canonical value is read back as that value wherever a
    value can stand, with fuel enough for the whole text. *)
Definition reads_back (v : jsval) : Prop :=
  canonical v ->
  forall rest f,
    closes rest = true ->
    2 * String.length (JSON.stringify v ++ rest) + 1 <= f ->
    JSON.parse_value f (JSON.stringify v ++ rest) = Some (v, rest).

End Canonical.

(** ** Sample descriptors *)

Module Sample.

Definition getItem : Endpoint.t :=
  Endpoint.make "GET" "/items/{id}" "getItem" None
    (Some [Param.make "id" Path None]) None.

Definition listItems : Endpoint.t :=
  Endpoint.make "get" "/items" "listItems" None
    (Some [Param.make "filter" Query None]) None.

Definition createItem : Endpoint.t :=
  Endpoint.make "post" "/items" "createItem" None
    (Some [Param.make "payload" Body None;
           Param.make "If-Match" Header None]) None.

Definition copyItem : Endpoint.t :=
  Endpoint.make "post" "/items/{id}/copies/{id}" "copyItem" None
    (Some [Param.make "id" Path None]) None.

Definition linkItem : Endpoint.t :=
  Endpoint.make "get" "/a/:idx/b/:id" "linkItem" None
    (Some [Param.make "id" Path None; Param.make "idx" Path None]) None.

Definition excelRange : Endpoint.t :=
  Endpoint.make "get"
    "/me/drive/root:/book.xlsx:/workbook/worksheets/Sheet1/range(address='{address}')"
    "get-excel-range" None
    (Some [Param.make "address" Path None]) None.

Definition getVersion : Endpoint.t :=
  Endpoint.make "get" "/items/{id}/versions/{version}" "getVersion" None
    (Some [Param.make "id" Path None; Param.make "version" Path None]) None.

Definition getVersion_template : Template.t :=
  [Template.Literal "/items/"; Template.Placeholder "id";
   Template.Literal "/versions/"; Template.Placeholder "version"].

Definition getItem_template : Template.t :=
  [Template.Literal "/items/"; Template.Placeholder "id"].

Definition getMessage : Endpoint.t :=
  Endpoint.make "get" "/users/:user-id/messages/:message-id" "getMessage" None
    (Some [Param.make "user-id" Path None;
           Param.make "message-id" Path None]) None.

Definition getMessage_template : Template.t :=
  [Template.Literal "/users/"; Template.ColonPlaceholder "user-id";
   Template.Literal "/messages/"; Template.ColonPlaceholder "message-id"].

Definition excelRange_template : Template.t :=
  [Template.Literal
     "/me/drive/root:/book.xlsx:/workbook/worksheets/Sheet1/range(address='";
   Template.Placeholder "address"; Template.Literal "')"].

Definition rootItem : Endpoint.t :=
  Endpoint.make "get" "/root:{id}" "rootItem" None
    (Some [Param.make "id" Path None]) None.


Definition no_transport : GraphRequest :=
  fun _ _ => Throw (mkError "network down").

Definition echo_transport (r : McpResponse.t) : GraphRequest :=
  fun _ _ => Normal (RObject r).

End Sample.

(** ** The release script

    [bin/release.mjs] runs shell commands one after the other.  What a
    command prints and whether it fails is the environment's: it is a
    parameter here, with a state that every command may change. *)

Module Release.

(** How the process ends: the script runs to its last line, calls
    [process.exit], or lets an exception escape. *)
Inductive Outcome : Type :=
| Completed
| Exited (code : Z)
| Uncaught (error : Error).

Inductive step (A : Type) : Type :=
| Go (a : A)
| Exit (code : Z)
| Raise (error : Error).

Arguments Go {A} a.
Arguments Exit {A} code.
Arguments Raise {A} error.

(** White space as [String.prototype.trim] strips it: the characters of
    one unit, the no-break space of two, and those of three (U+1680,
    U+2000 to U+200A, U+2028, U+2029, U+202F, U+205F, U+3000 and
    U+FEFF). *)
Definition is_space (c : ascii) : bool :=
  existsb (Nat.eqb (nat_of_ascii c)) [9; 10; 11; 12; 13; 32].

Definition is_space2 (a b : ascii) : bool :=
  (nat_of_ascii a =? 194) && (nat_of_ascii b =? 160).

Definition is_space3 (a b c : ascii) : bool :=
  let x := nat_of_ascii a in
  let y := nat_of_ascii b in
  let z := nat_of_ascii c in
  (x =? 225) && (y =? 154) && (z =? 128)
  || (x =? 226) && (y =? 128)
     && ((128 <=? z) && (z <=? 138) || (z =? 168) || (z =? 169)
         || (z =? 175))
  || (x =? 226) && (y =? 129) && (z =? 159)
  || (x =? 227) && (y =? 128) && (z =? 128)
  || (x =? 239) && (y =? 187) && (z =? 191).

Fixpoint trim_start (s : string) : string :=
  match s with
  | EmptyString => EmptyString
  | String a r =>
      if is_space a then trim_start r
      else
        match r with
        | String b r1 =>
            if is_space2 a b then trim_start r1
            else
              match r1 with
              | String c r2 => if is_space3 a b c then trim_start r2 else s
              | EmptyString => s
              end
        | EmptyString => s
        end
  end.

(** The text without the white space at its end: nothing of a text that is
    white space throughout. *)
Fixpoint trim_end (s : string) : string :=
  match s with
  | EmptyString => EmptyString
  | String c r =>
      match trim_start s with
      | EmptyString => EmptyString
      | _ => String c (trim_end r)
      end
  end.

Definition trim (s : string) : string := trim_end (trim_start s).

(** [`${v}`] for a value that [JSON.parse] built. *)
Definition template_text (v : jsval) : completion string :=
  Conversion.text v.

(** [`${version}`], where [version] may be [undefined]. *)
Definition version_text (version : option jsval) : completion string :=
  match version with
  | Some v => template_text v
  | None => Normal "undefined"
  end.

(** [args[0] || 'patch']. *)
Definition releaseType (args : list string) : string :=
  match args with
  | first :: _ => if String.eqb first EmptyString then "patch" else first
  | [] => "patch"
  end.

Definition release_types : list string := ["major"; "minor"; "patch"].

Definition branch_command : string := "git rev-parse --abbrev-ref HEAD".
Definition status_command : string := "git status --porcelain".
Definition test_command : string := "npm test".

Definition bump_command (releaseType : string) : string :=
  "npm version --no-git-tag-version " ++ releaseType.

Definition add_command : string := "git add package.json package-lock.json".

Definition commit_command (version : string) : string :=
  "git commit -m " ++ String JSON.dquote ("Bump version to " ++ version)
  ++ String JSON.dquote EmptyString.

Definition push_command : string := "git push".

Definition release_command (version : string) : string :=
  "gh release create v" ++ version ++ " --title 'v" ++ version
  ++ "' --notes 'Version " ++ version ++ "'".

(** The commands that only look. *)
Definition probes : list string :=
  [branch_command; status_command; test_command].

(** The commands of a release of [version], in order. *)
Definition plan (releaseType version : string) : list string :=
  (probes
   ++ [bump_command releaseType; add_command; commit_command version;
       push_command; release_command version])%list.

Section Script.

Variable World : Type.

(** [execSync(command)]: what the command prints, or the error thrown when
    it fails, and the state it leaves. *)
Variable execSync : World -> string -> World * completion string.

(** [fs.readFileSync(path, 'utf8')]. *)
Variable readFileSync : World -> string -> completion string.

(** The message of the [SyntaxError] that [JSON.parse] throws on a text. *)
Variable SyntaxError_message : string -> string.

(** A piece of the script: the state it leaves, the commands it ran, and
    how it goes on. *)
Definition script (A : Type) : Type := World -> World * list string * step A.

Definition ret {A : Type} (a : A) : script A := fun w => (w, [], Go a).

Definition exit {A : Type} (code : Z) : script A := fun w => (w, [], Exit code).

Definition lift {A : Type} (c : completion A) : script A :=
  fun w => (w, [], match c with Normal a => Go a | Throw e => Raise e end).

Definition exec (command : string) : script string :=
  fun w =>
    let (w', r) := execSync w command in
    (w', [command], match r with Normal out => Go out | Throw e => Raise e end).

Definition readFile (path : string) : script string :=
  fun w => lift (readFileSync w path) w.

Definition and_then {A B : Type} (m : script A) (k : A -> script B)
  : script B :=
  fun w =>
    match m w with
    | (w', ran, Go a) =>
        match k a w' with
        | (w'', more, s) => (w'', (ran ++ more)%list, s)
        end
    | (w', ran, Exit code) => (w', ran, Exit code)
    | (w', ran, Raise e) => (w', ran, Raise e)
    end.

(** [try { m } catch (error) { h error }]; [process.exit] is not caught. *)
Definition try_script {A : Type} (m : script A) (h : Error -> script A)
  : script A :=
  fun w =>
    match m w with
    | (w', ran, Raise e) =>
        match h e w' with
        | (w'', more, s) => (w'', (ran ++ more)%list, s)
        end
    | r => r
    end.

Declare Scope script_scope.
Delimit Scope script_scope with script.
Notation "x <- c ;; k" := (and_then c (fun x => k))
  (at level 61, c at next level, right associativity) : script_scope.
Notation "c ;;; k" := (and_then c (fun _ => k))
  (at level 61, right associativity) : script_scope.

Local Open Scope script_scope.

Definition check_branch : script unit :=
  try_script
    (out <- exec branch_command ;;
     let currentBranch := trim out in
     if String.eqb currentBranch "main" then ret tt else exit 1)
    (fun _ => exit 1).

Definition check_clean : script unit :=
  try_script
    (changes <- exec status_command ;;
     if 0 <? String.length changes then exit 1 else ret tt)
    (fun _ => exit 1).

Definition check_type (releaseType : string) : script unit :=
  if existsb (String.eqb releaseType) release_types then ret tt else exit 1.

Definition run_tests : script unit :=
  try_script (exec test_command ;;; ret tt) (fun _ => exit 1).

(** [JSON.parse(text).version]. *)
Definition package_version (text : string) : completion (option jsval) :=
  match JSON.parse text with
  | Some packageJson => Handler.get_property packageJson "version"
  | None => Throw (mkError (SyntaxError_message text))
  end.

Definition publish (releaseType : string) : script unit :=
  exec (bump_command releaseType) ;;;
  text <- readFile "./package.json" ;;
  version <- lift (package_version text) ;;
  exec add_command ;;;
  v <- lift (version_text version) ;;
  exec (commit_command v) ;;;
  exec push_command ;;;
  v <- lift (version_text version) ;;
  exec (release_command v) ;;;
  ret tt.

Definition release (args : list string) : script unit :=
  check_branch ;;;
  check_clean ;;;
  let releaseType := releaseType args in
  check_type releaseType ;;;
  run_tests ;;;
  publish releaseType.

(** The commands run and how the process ends. *)
Definition run (args : list string) (w : World) : list string * Outcome :=
  match release args w with
  | (_, ran, Go _) => (ran, Completed)
  | (_, ran, Exit code) => (ran, Exited code)
  | (_, ran, Raise e) => (ran, Uncaught e)
  end.

(** The text of [package.json] as the script reads it, once the guards
    have passed and the version is bumped. *)
Definition bumped_version (args : list string) (w : World)
  : completion string :=
  let w1 := fst (execSync w branch_command) in
  let w2 := fst (execSync w1 status_command) in
  let w3 := fst (execSync w2 test_command) in
  let w4 := fst (execSync w3 (bump_command (releaseType args))) in
  bind (readFileSync w4 "./package.json")
       (fun text => bind (package_version text) version_text).

End Script.

End Release.

(** A repository where every command succeeds: the state counts the
    commands run. *)
Module ReleaseSample.

Definition package_text (version : string) : string :=
  JSON.stringify (JObj [("name", JStr "pkg"); ("version", JStr version)]).

Definition calm (branch : string) : nat -> string -> nat * completion string :=
  fun w command =>
    (S w,
     if String.eqb command Release.branch_command
     then Normal (branch ++ FixedTools.newline)
     else Normal EmptyString).

Definition file (version : string) : nat -> string -> completion string :=
  fun _ _ => Normal (package_text version).

Definition no_message : string -> string := fun _ => "Unexpected token".

End ReleaseSample.

(** * Properties *)

(** ** The embedding at work *)

Module Examples.

Example encode_space : JS.encodeURIComponent "a eq 1" = "a%20eq%201".
Proof. reflexivity. Qed.

Example encode_dollar : JS.encodeURIComponent "$filter" = "%24filter".
Proof. reflexivity. Qed.

Example replace_first_only :
  JS.replace "/a/{id}/{id}" "{id}" "42" = "/a/42/{id}".
Proof. reflexivity. Qed.

Example replace_dollar_patterns :
  JS.replace "a-b" "-" "[$&|$`|$'|$$|$1]" = "a[-|a|b|$|$1]b".
Proof. reflexivity. Qed.

Example ends_with_content : JS.endsWith "/me/x/content" "/content" = true.
Proof. reflexivity. Qed.

Example index_keys_first :
  Obj.define "1" 10 (Obj.define "a" 20 (Obj.define "2" 30 []))
  = [("1", 10); ("2", 30); ("a", 20)].
Proof. reflexivity. Qed.

Example redefined_key_keeps_place :
  Obj.define "a" 3 [("a", 1); ("b", 2)] = [("a", 3); ("b", 2)].
Proof. reflexivity. Qed.

Example proto_is_not_stored :
  Obj.set "__proto__" "x" [("a", "1")] = [("a", "1")].
Proof. reflexivity. Qed.

Example parse_object :
  JSON.parse ("{ " ++ JSON.quote "b" ++ " : [1, -2, true, null], "
              ++ JSON.quote "1" ++ ":" ++ JSON.quote "x" ++ "}")
  = Some (JObj [("1", JStr "x");
                ("b", JArr [JNum 1; JNum (-2); JBool true; JNull])]).
Proof. reflexivity. Qed.

Example parse_numbers :
  JSON.parse "[1.5, 0.0, 1e2, -2.5E-3, 0.1, -0, 1E+21]"
  = Some (JArr [JFrac false 3 1; JNum 0; JNum 100;
                JFrac true 5764607523034235 61;
                JFrac false 3602879701896397 55; JNum 0;
                JNum 1000000000000000000000]).
Proof. vm_compute. reflexivity. Qed.

Example parse_fraction_member :
  JSON.parse ("{" ++ JSON.quote "a" ++ ": 1.5}")
  = Some (JObj [("a", JFrac false 3 1)]).
Proof. vm_compute. reflexivity. Qed.

Example parse_rounds_to_binary64 :
  JSON.parse "[9007199254740993, 1e400, 2e-324]"
  = Some (JArr [JNum 9007199254740992; JInf false; JNum 0]).
Proof. vm_compute. reflexivity. Qed.

Example parse_rejects_numbers :
  map JSON.parse ["01"; "1."; ".5"; "1e"; "+1"; "-"; "1e+"; "0x10"; "1.e2"]
  = [None; None; None; None; None; None; None; None; None].
Proof. vm_compute. reflexivity. Qed.

Example number_to_string :
  map Value.ToString
    [JNum 1000000000000000000000; JNum 100000000000000000000;
     JNum 1152921504606846976; JFrac false 3 1;
     JFrac false 3602879701896397 55; JFrac false 944473296573929 73;
     JFrac false 4722366482869645 72; JFrac true 1 1074; JInf true]
  = ["1e+21"; "100000000000000000000"; "1152921504606847000"; "1.5"; "0.1";
     "1e-7"; "0.000001"; "-5e-324"; "-Infinity"].
Proof. vm_compute. reflexivity. Qed.

Example stringify_numbers :
  JSON.stringify (JArr [JFrac false 3 1; JInf false; JNum (-20)])
  = "[1.5,null,-20]".
Proof. vm_compute. reflexivity. Qed.

Example parse_surrogate_pair :
  JSON.parse (String JSON.dquote ("\uD83D\uDE00" ++ JSON.quote "x"))
  = None
  /\ JSON.parse (String JSON.dquote
                   ("\uD83D\uDE00" ++ String JSON.dquote EmptyString))
     = Some (JStr (String (ascii_of_nat 240) (String (ascii_of_nat 159)
                     (String (ascii_of_nat 152)
                        (String (ascii_of_nat 128) EmptyString)))))
  /\ JSON.parse (String JSON.dquote
                   ("\uD83Dx" ++ String JSON.dquote EmptyString))
     = Some (JStr (String (ascii_of_nat 237) (String (ascii_of_nat 160)
                     (String (ascii_of_nat 189) "x")))).
Proof. vm_compute. repeat split. Qed.

Example trim_white_space :
  Release.trim (String (ascii_of_nat 239) (String (ascii_of_nat 187)
                  (String (ascii_of_nat 191)
                     (" main" ++ String (ascii_of_nat 194)
                                   (String (ascii_of_nat 160)
                                      (String (ascii_of_nat 10)
                                         EmptyString))))))
  = "main"
  /\ Release.trim ("main" ++ String (ascii_of_nat 160) EmptyString)
     = "main" ++ String (ascii_of_nat 160) EmptyString.
Proof. vm_compute. repeat split. Qed.

Example parse_rejects_text : JSON.parse "a eq 1" = None.
Proof. reflexivity. Qed.

Example parse_rejects_trailing_comma : JSON.parse "[1,]" = None.
Proof. reflexivity. Qed.

Example stringify_array :
  JSON.stringify (JArr [JNum 1; JStr "a"; JObj [("k", JNull)]])
  = "[1," ++ JSON.quote "a" ++ ",{" ++ JSON.quote "k" ++ ":null}]".
Proof. reflexivity. Qed.

Example array_to_string :
  Value.ToString (JArr [JNum 1; JNull; JStr "a"; JArr [JNum (-2)]])
  = "1,,a,-2".
Proof. reflexivity. Qed.

Example drive_root_file :
  Handler.match_drive_root "/me/drive/root:/book.xlsx:/workbook/worksheets"
  = Some "/book.xlsx".
Proof. reflexivity. Qed.

Example drive_root_needs_closing_colon :
  Handler.match_drive_root "/me/drive/root:/book.xlsx" = None.
Proof. reflexivity. Qed.

Example post_with_header :
  Handler.request Sample.createItem
    [("payload", JStr "{ }"); ("If-Match", JStr "x"); ("zzz", JNum 1)]
  = ("/items", Options.make "POST" [("If-Match", "x")] (Some "{}") None false).
Proof. reflexivity. Qed.

Example transport_failure :
  Handler.handler Sample.no_transport Sample.getItem [("id", JStr "42")]
  = Normal (CallToolResult.make
              [TextContent
                 ("{" ++ JSON.quote "error" ++ ":"
                  ++ JSON.quote "Error in tool getItem: network down" ++ "}")]
              None (Some true)).
Proof. reflexivity. Qed.

Example missing_response :
  Handler.handler (fun _ _ => Normal RUndefined) Sample.getItem []
  = Handler.error_result Sample.getItem
      (Handler.TypeError_read "undefined" "content").
Proof. reflexivity. Qed.

End Examples.

(** ** Values *)

Module ValueFacts.

Lemma jsval_induction (P : jsval -> Prop) :
  P JNull -> (forall b, P (JBool b)) -> (forall n, P (JNum n)) ->
  (forall s, P (JStr s)) ->
  (forall xs, Forall P xs -> P (JArr xs)) ->
  (forall ps, Forall (fun p => P (snd p)) ps -> P (JObj ps)) ->
  (forall negative m k, P (JFrac negative m k)) ->
  (forall negative, P (JInf negative)) ->
  forall v, P v.
Proof.
  intros Hn Hb Hz Hs Ha Ho Hf Hi.
  fix IH 1. intros [|b|n|s|xs|ps|negative m k|negative].
  - exact Hn.
  - apply Hb.
  - apply Hz.
  - apply Hs.
  - apply Ha. induction xs as [|x r IHr]; constructor; [apply IH | exact IHr].
  - apply Ho. induction ps as [|[k x] r IHr]; constructor;
      [apply IH | exact IHr].
  - apply Hf.
  - apply Hi.
Qed.

End ValueFacts.

(** ** Strings *)

Module StringFacts.

Lemma app_assoc (a b c : string) : (a ++ b) ++ c = a ++ (b ++ c).
Proof. induction a as [|x a IH]; simpl; [reflexivity | now rewrite IH]. Qed.

Lemma app_nil_r (a : string) : a ++ EmptyString = a.
Proof. induction a as [|x a IH]; simpl; [reflexivity | now rewrite IH]. Qed.

Lemma prefix_app (p r : string) : prefix p (p ++ r) = true.
Proof.
  induction p as [|x p IH]; simpl.
  - now destruct r.
  - destruct (ascii_dec x x) as [_|N]; [exact IH | now elim N].
Qed.

Lemma prefix_split (p s : string) :
  prefix p s = true -> s = p ++ JS.drop (String.length p) s.
Proof.
  revert s; induction p as [|x p IH]; intros s H; simpl.
  - reflexivity.
  - destruct s as [|y s]; simpl in H; [discriminate|].
    destruct (ascii_dec x y) as [->|_]; [|discriminate].
    simpl. f_equal. now apply IH.
Qed.

Lemma includes_prefix (s p : string) :
  prefix p s = true -> JS.includes s p = true.
Proof. intros H. destruct s; cbn [JS.includes]; now rewrite H. Qed.

Lemma includes_intro (a p b : string) : JS.includes (a ++ p ++ b) p = true.
Proof.
  induction a as [|x a IH].
  - change (EmptyString ++ p ++ b) with (p ++ b).
    apply includes_prefix, prefix_app.
  - cbn [append JS.includes]. rewrite IH. now destruct (prefix p _).
Qed.

Lemma includes_elim (s p : string) :
  JS.includes s p = true -> exists a b, s = a ++ p ++ b.
Proof.
  induction s as [|x s IH]; cbn [JS.includes]; intros H.
  - destruct (prefix p EmptyString) eqn:E; [|discriminate].
    exists EmptyString, (JS.drop (String.length p) EmptyString).
    now apply prefix_split.
  - destruct (prefix p (String x s)) eqn:E.
    + exists EmptyString, (JS.drop (String.length p) (String x s)).
      now apply prefix_split.
    + destruct (IH H) as (a & b & ->). now exists (String x a), b.
Qed.

End StringFacts.

(** ** JSON: a quoted string reads back *)

Module JSONFacts.

Import JSON.

Lemma parse_quote_char (c : ascii) (rest : string) :
  parse_string_body (quote_char c ++ rest)
  = JS.prepend (String c EmptyString) (parse_string_body rest).
Proof.
  destruct c as [[] [] [] [] [] [] [] []]; reflexivity.
Qed.

Lemma parse_quote_chars (s rest : string) :
  parse_string_body (quote_chars s ++ String dquote rest) = Some (s, rest).
Proof.
  induction s as [|c s IH].
  - reflexivity.
  - cbn [quote_chars]. rewrite StringFacts.app_assoc, parse_quote_char, IH.
    reflexivity.
Qed.

Lemma parse_quote (s rest : string) (fuel : nat) :
  parse_value (S fuel) (quote s ++ rest) = Some (JStr s, rest).
Proof.
  unfold quote. cbn [append parse_value skip_ws].
  change (is_ws dquote) with false. cbv iota.
  change (Ascii.eqb dquote "{") with false.
  change (Ascii.eqb dquote "[") with false.
  rewrite Ascii.eqb_refl. cbv iota.
  rewrite StringFacts.app_assoc. cbn [append].
  now rewrite parse_quote_chars.
Qed.

Lemma parse_value_error_object (m : string) (fuel : nat) :
  parse_value (S (S (S fuel))) (stringify (Handler.error_object m))
  = Some (Handler.error_object m, EmptyString).
Proof.
  unfold Handler.error_object.
  cbn [stringify map JS.join].
  change (quote "error")
    with (String dquote ("error" ++ String dquote EmptyString)).
  simpl.
  rewrite StringFacts.app_assoc. cbn [append].
  rewrite parse_quote_chars. reflexivity.
Qed.

Lemma length_stringify_error_object (m : string) :
  exists n,
    2 * String.length (stringify (Handler.error_object m)) + 1 = S (S (S n)).
Proof.
  unfold Handler.error_object. cbn [stringify map JS.join].
  change (quote "error")
    with (String dquote ("error" ++ String dquote EmptyString)).
  cbn [append String.length].
  eexists. rewrite Nat.mul_succ_r. rewrite Nat.add_1_r.
  rewrite <- plus_n_Sm. rewrite <- plus_n_Sm. reflexivity.
Qed.

(** [JSON.parse(JSON.stringify({error: m}))] is [{error: m}] again. *)
Lemma parse_stringify_error_object (m : string) :
  parse (stringify (Handler.error_object m)) = Some (Handler.error_object m).
Proof.
  unfold parse.
  destruct (length_stringify_error_object m) as [n ->].
  now rewrite parse_value_error_object.
Qed.

(** *** Fuel *)

Lemma length_app (a b : string) :
  String.length (a ++ b) = String.length a + String.length b.
Proof. induction a as [|x a IH]; cbn; [reflexivity | now rewrite IH]. Qed.

Lemma length_skip_ws (s : string) :
  String.length (skip_ws s) <= String.length s.
Proof.
  induction s as [|c r IH]; cbn [skip_ws]; [apply Nat.le_refl|].
  destruct (is_ws c); cbn [String.length]; [lia | apply Nat.le_refl].
Qed.

Lemma prepend_some (p k r : string) (x : option (string * string)) :
  JS.prepend p x = Some (k, r) -> exists k', x = Some (k', r).
Proof.
  destruct x as [[k' r']|]; cbn; [|discriminate].
  intros [= _ <-]. now exists k'.
Qed.

Lemma parse_string_body_shorter (n : nat) :
  forall s k r, String.length s <= n ->
    parse_string_body s = Some (k, r) -> String.length r < String.length s.
Proof.
  induction n as [|n IH]; intros s k r L H.
  - destruct s; [discriminate | cbn in L; lia].
  - destruct s as [|c s]; [discriminate|].
    cbn [parse_string_body] in H. cbn [String.length] in *.
    destruct (JS.char_code c =? 34); [injection H as _ <-; lia|].
    destruct (JS.char_code c =? 92).
    + destruct s as [|e s1]; [discriminate|]. cbn [String.length] in *.
      destruct (simple_escape e).
      * apply prepend_some in H as [k' H]. apply IH in H; lia.
      * destruct (JS.char_code e =? 117); [|discriminate].
        destruct s1 as [|h1 [|h2 [|h3 [|h4 r2]]]]; try discriminate.
        cbn [String.length] in *.
        destruct (hex4 h1 h2 h3 h4) as [u|]; [|discriminate].
        destruct (if high_surrogate u then low_escape r2 else None)
          as [low|].
        -- destruct r2 as [|a1 [|a2 [|a3 [|a4 [|a5 [|a6 r3]]]]]];
             apply prepend_some in H as [k' H]; apply IH in H;
             cbn [String.length] in *; lia.
        -- apply prepend_some in H as [k' H]. apply IH in H; lia.
    + destruct (JS.char_code c <? 32); [discriminate|].
      apply prepend_some in H as [k' H]. apply IH in H; lia.
Qed.

Lemma span_digits_length (s d t : string) :
  span_digits s = (d, t) ->
  String.length s = String.length d + String.length t.
Proof.
  revert d t. induction s as [|c r IH]; cbn [span_digits]; intros d t H.
  - now injection H as <- <-.
  - destruct (JS.is_digit c).
    + destruct (span_digits r) as [d' t'] eqn:E. injection H as <- <-.
      cbn [String.length]. now rewrite (IH d' t' eq_refl).
    + now injection H as <- <-.
Qed.

Lemma length_drop (n : nat) (s : string) :
  String.length (JS.drop n s) = String.length s - n.
Proof.
  revert s. induction n as [|n IH]; intros [|c r]; cbn; auto.
Qed.

Lemma integer_part_shorter (s a t : string) :
  integer_part s = Some (a, t) -> String.length t < String.length s.
Proof.
  unfold integer_part. destruct s as [|c r]; [discriminate|].
  destruct (Ascii.eqb c "0").
  - intros [= _ <-]. cbn. lia.
  - destruct (JS.is_digit c) eqn:Dc; [|discriminate].
    cbn [span_digits]. rewrite Dc.
    destruct (span_digits r) as [d t'] eqn:S1.
    apply span_digits_length in S1.
    intros [= _ <-]. cbn [String.length]. lia.
Qed.

Lemma fraction_part_shorter (s f t : string) :
  fraction_part s = Some (f, t) -> String.length t <= String.length s.
Proof.
  unfold fraction_part. destruct s as [|c r]; [now intros [= _ <-]|].
  destruct (Ascii.eqb c "."); [|now intros [= _ <-]].
  destruct (span_digits r) as [d t'] eqn:S1.
  apply span_digits_length in S1.
  destruct d; [discriminate|]. intros [= _ <-]. cbn [String.length]. lia.
Qed.

Lemma exponent_part_shorter (s : string) (e : Z) (t : string) :
  exponent_part s = Some (e, t) -> String.length t <= String.length s.
Proof.
  unfold exponent_part. destruct s as [|c r]; [now intros [= _ <-]|].
  destruct (Ascii.eqb c "e" || Ascii.eqb c "E"); [|now intros [= _ <-]].
  set (sign := match r with
               | EmptyString => false
               | String a _ => Ascii.eqb a "-" || Ascii.eqb a "+"
               end).
  assert (D : String.length (if sign then JS.drop 1 r else r)
              <= String.length r).
  { destruct sign; [rewrite length_drop; lia | lia]. }
  destruct (span_digits (if sign then JS.drop 1 r else r)) as [d t'] eqn:S1.
  apply span_digits_length in S1.
  destruct d; [discriminate|]. intros [= _ <-]. cbn [String.length]. lia.
Qed.

Lemma parse_unsigned_shorter (negative : bool) (s : string) (v : jsval)
  (r : string) :
  parse_unsigned negative s = Some (v, r) ->
  String.length r < String.length s.
Proof.
  unfold parse_unsigned.
  destruct (integer_part s) as [[a s1]|] eqn:I; [|discriminate].
  destruct (fraction_part s1) as [[f s2]|] eqn:F; [|discriminate].
  destruct (exponent_part s2) as [[e t]|] eqn:E; [|discriminate].
  intros [= _ <-].
  apply integer_part_shorter in I. apply fraction_part_shorter in F.
  apply exponent_part_shorter in E. lia.
Qed.

Lemma parse_number_shorter (s : string) (v : jsval) (r : string) :
  parse_number s = Some (v, r) -> String.length r < String.length s.
Proof.
  unfold parse_number. destruct s as [|c t]; [discriminate|].
  destruct (Ascii.eqb c "-"); intros H;
    apply parse_unsigned_shorter in H; cbn [String.length] in *; lia.
Qed.

Lemma parse_literal_shorter (s : string) (v : jsval) (r : string) :
  parse_literal s = Some (v, r) -> String.length r < String.length s.
Proof.
  unfold parse_literal.
  destruct (prefix "true" s) eqn:P1;
    [|destruct (prefix "false" s) eqn:P2;
      [|destruct (prefix "null" s) eqn:P3]].
  - intros [= _ <-]. apply StringFacts.prefix_split in P1.
    rewrite P1 at 2. rewrite length_app. cbn. lia.
  - intros [= _ <-]. apply StringFacts.prefix_split in P2.
    rewrite P2 at 2. rewrite length_app. cbn. lia.
  - intros [= _ <-]. apply StringFacts.prefix_split in P3.
    rewrite P3 at 2. rewrite length_app. cbn. lia.
  - apply parse_number_shorter.
Qed.

Lemma parse_value_S (f : nat) (s : string) :
  parse_value (S f) s
  = ltac:(let t := eval cbn [parse_value] in (parse_value (S f) s) in
          exact t).
Proof. reflexivity. Qed.

Lemma parse_elements_S (f : nat) (acc : list jsval) (s : string) :
  parse_elements (S f) acc s
  = ltac:(let t := eval cbn [parse_elements] in (parse_elements (S f) acc s) in
          exact t).
Proof. reflexivity. Qed.

Lemma parse_members_S (f : nat) (acc : list (string * jsval)) (s : string) :
  parse_members (S f) acc s
  = ltac:(let t := eval cbn [parse_members] in (parse_members (S f) acc s) in
          exact t).
Proof. reflexivity. Qed.

(** Every successful parse reads at least one character. *)
Lemma parse_shorter (f : nat) :
  (forall s v r, parse_value f s = Some (v, r) ->
                 String.length r < String.length s)
  /\ (forall acc s v r, parse_elements f acc s = Some (v, r) ->
                        String.length r < String.length s)
  /\ (forall acc s v r, parse_members f acc s = Some (v, r) ->
                        String.length r < String.length s).
Proof.
  induction f as [|f (IHv & IHe & IHm)].
  - repeat split; intros; discriminate.
  - split; [|split].
    + intros s v r. rewrite parse_value_S.
      pose proof (length_skip_ws s) as L0.
      destruct (skip_ws s) as [|c r0]; [discriminate|].
      cbn [String.length] in L0.
      destruct (Ascii.eqb c "{"); [|destruct (Ascii.eqb c "[");
        [|destruct (Ascii.eqb c dquote)]].
      * pose proof (length_skip_ws r0) as L1.
        destruct (skip_ws r0) as [|d r1]; [discriminate|].
        cbn [String.length] in L1.
        destruct (Ascii.eqb d "}").
        -- intros [= _ <-]. lia.
        -- intros H. apply IHm in H. cbn [String.length] in H. lia.
      * pose proof (length_skip_ws r0) as L1.
        destruct (skip_ws r0) as [|d r1]; [discriminate|].
        cbn [String.length] in L1.
        destruct (Ascii.eqb d "]").
        -- intros [= _ <-]. lia.
        -- intros H. apply IHe in H. cbn [String.length] in H. lia.
      * destruct (parse_string_body r0) as [[x r1]|] eqn:E; [|discriminate].
        intros [= _ <-].
        apply (parse_string_body_shorter _ _ _ _ (Nat.le_refl _)) in E. lia.
      * intros H. apply parse_literal_shorter in H.
        cbn [String.length] in H. lia.
    + intros acc s v r. rewrite parse_elements_S.
      destruct (parse_value f s) as [[v' r']|] eqn:E; [|discriminate].
      apply IHv in E.
      pose proof (length_skip_ws r') as L1.
      destruct (skip_ws r') as [|c r1]; [discriminate|].
      cbn [String.length] in L1.
      destruct (Ascii.eqb c ","); [|destruct (Ascii.eqb c "]")].
      * intros H. apply IHe in H. lia.
      * intros [= _ <-]. lia.
      * discriminate.
    + intros acc s v r. rewrite parse_members_S.
      pose proof (length_skip_ws s) as L0.
      destruct (skip_ws s) as [|q r0]; [discriminate|].
      cbn [String.length] in L0.
      destruct (Ascii.eqb q dquote); [|discriminate].
      destruct (parse_string_body r0) as [[k r1]|] eqn:E; [|discriminate].
      apply (parse_string_body_shorter _ _ _ _ (Nat.le_refl _)) in E.
      pose proof (length_skip_ws r1) as L1.
      destruct (skip_ws r1) as [|c r2]; [discriminate|].
      cbn [String.length] in L1.
      destruct (Ascii.eqb c ":"); [|discriminate].
      destruct (parse_value f r2) as [[v' r3]|] eqn:E2; [|discriminate].
      apply IHv in E2.
      pose proof (length_skip_ws r3) as L3.
      destruct (skip_ws r3) as [|e r4]; [discriminate|].
      cbn [String.length] in L3.
      destruct (Ascii.eqb e ","); [|destruct (Ascii.eqb e "}")].
      * intros H. apply IHm in H. lia.
      * intros [= _ <-]. lia.
      * discriminate.
Qed.

(** Past twice the length of the text, more fuel changes no result. *)
Lemma parse_stable (f : nat) :
  (forall s, 2 * String.length s + 1 <= f ->
             parse_value (S f) s = parse_value f s)
  /\ (forall acc s, 2 * String.length s + 2 <= f ->
                    parse_elements (S f) acc s = parse_elements f acc s)
  /\ (forall acc s, 2 * String.length s + 2 <= f ->
                    parse_members (S f) acc s = parse_members f acc s).
Proof.
  induction f as [|f (IHv & IHe & IHm)].
  - repeat split; intros; lia.
  - split; [|split].
    + intros s B. rewrite (parse_value_S (S f)), (parse_value_S f).
      pose proof (length_skip_ws s) as L0.
      destruct (skip_ws s) as [|c r0]; [reflexivity|].
      cbn [String.length] in L0.
      destruct (Ascii.eqb c "{"); [|destruct (Ascii.eqb c "[")];
        [| |reflexivity].
      * pose proof (length_skip_ws r0) as L1.
        destruct (skip_ws r0) as [|d r1]; [reflexivity|].
        cbn [String.length] in L1.
        destruct (Ascii.eqb d "}"); [reflexivity|].
        apply IHm. cbn [String.length]. lia.
      * pose proof (length_skip_ws r0) as L1.
        destruct (skip_ws r0) as [|d r1]; [reflexivity|].
        cbn [String.length] in L1.
        destruct (Ascii.eqb d "]"); [reflexivity|].
        apply IHe. cbn [String.length]. lia.
    + intros acc s B. rewrite (parse_elements_S (S f)), (parse_elements_S f).
      rewrite IHv by lia.
      destruct (parse_value f s) as [[v r]|] eqn:E; [|reflexivity].
      apply (proj1 (parse_shorter f)) in E.
      pose proof (length_skip_ws r) as L1.
      destruct (skip_ws r) as [|c r1]; [reflexivity|].
      cbn [String.length] in L1.
      destruct (Ascii.eqb c ","); [|reflexivity].
      apply IHe. lia.
    + intros acc s B. rewrite (parse_members_S (S f)), (parse_members_S f).
      pose proof (length_skip_ws s) as L0.
      destruct (skip_ws s) as [|q r0]; [reflexivity|].
      cbn [String.length] in L0.
      destruct (Ascii.eqb q dquote); [|reflexivity].
      destruct (parse_string_body r0) as [[k r1]|] eqn:E; [|reflexivity].
      apply (parse_string_body_shorter _ _ _ _ (Nat.le_refl _)) in E.
      pose proof (length_skip_ws r1) as L1.
      destruct (skip_ws r1) as [|c r2]; [reflexivity|].
      cbn [String.length] in L1.
      destruct (Ascii.eqb c ":"); [|reflexivity].
      rewrite IHv by lia.
      destruct (parse_value f r2) as [[v r3]|] eqn:E2; [|reflexivity].
      apply (proj1 (parse_shorter f)) in E2.
      pose proof (length_skip_ws r3) as L3.
      destruct (skip_ws r3) as [|e r4]; [reflexivity|].
      cbn [String.length] in L3.
      destruct (Ascii.eqb e ","); [|reflexivity].
      apply IHm. lia.
Qed.

(** The fuel [parse] gives is enough: any larger amount yields the same
    result, so [None] always stands for a syntax error. *)
Lemma parse_value_fuel (s : string) (f : nat) :
  2 * String.length s + 1 <= f ->
  parse_value f s = parse_value (2 * String.length s + 1) s.
Proof.
  intros B.
  replace f with (f - (2 * String.length s + 1) + (2 * String.length s + 1))
    by lia.
  induction (f - (2 * String.length s + 1)) as [|k IH]; [reflexivity|].
  cbn [Nat.add]. rewrite (proj1 (parse_stable _)) by lia. exact IH.
Qed.

End JSONFacts.

(** ** The outermost boundary of a handler *)

Module BoundaryFacts.

Import Handler.

(** *** What the steps of the callback throw *)

Lemma printable_array (xs : list jsval) :
  Conversion.printable (JArr xs) = forallb Conversion.printable xs.
Proof.
  induction xs as [|x r IH]; [reflexivity|].
  cbn [forallb]. rewrite <- IH. reflexivity.
Qed.

(** The conversion to text throws on the values that are not printable,
    and gives [ToString] on the others. *)
Lemma text_spec (v : jsval) :
  Conversion.text v
  = if Conversion.printable v then Normal (Value.ToString v)
    else Throw Conversion.TypeError_primitive.
Proof.
  induction v as [|b|n|s|xs IH|ps IH|negative m k|negative] using ValueFacts.jsval_induction;
    try reflexivity.
  - rewrite printable_array. cbn [Conversion.text Value.ToString].
    match goal with
    | |- bind (?f xs) _ = _ => set (each := f)
    end.
    assert (E : each xs
                = if forallb Conversion.printable xs
                  then Normal (map (fun x => match x with
                                             | JNull => EmptyString
                                             | _ => Value.ToString x
                                             end) xs)
                  else Throw Conversion.TypeError_primitive).
    { induction IH as [|x r Hx Hr IHr]; [reflexivity|].
      change (each (x :: r))
        with (bind (match x with
                    | JNull => Normal EmptyString
                    | _ => Conversion.text x
                    end)
                   (fun t => bind (each r) (fun ts => Normal (t :: ts)))).
      rewrite IHr. cbn [forallb map].
      destruct x; cbn [Conversion.printable andb bind] in *;
        try (destruct (forallb Conversion.printable r); reflexivity).
      - rewrite Hx.
        destruct ((fix all (l : list jsval) : bool :=
                     match l with
                     | [] => true
                     | x :: r => Conversion.printable x && all r
                     end) xs); cbn [andb bind]; [|reflexivity].
        destruct (forallb Conversion.printable r); reflexivity.
      - rewrite Hx.
        destruct (negb (Obj.has "toString" props)); cbn [andb bind];
          [|reflexivity].
        destruct (forallb Conversion.printable r); reflexivity. }
    rewrite E. now destruct (forallb Conversion.printable xs).
  - cbn [Conversion.text Conversion.printable Value.ToString].
    now destruct (Obj.has "toString" ps).
Qed.

Lemma text_throws (v : jsval) (e : Error) :
  Conversion.text v = Throw e -> e = Conversion.TypeError_primitive.
Proof.
  rewrite text_spec. destruct (Conversion.printable v); [discriminate|].
  now intros [= <-].
Qed.

Lemma encode_throws (s : string) (e : Error) :
  Conversion.encodeURIComponent s = Throw e ->
  e = Conversion.URIError_malformed.
Proof.
  unfold Conversion.encodeURIComponent.
  destruct (Conversion.lone_surrogate s); [|discriminate].
  now intros [= <-].
Qed.

Lemma escaped_throws (v : jsval) (e : Error) :
  Callback.escaped v = Throw e -> Callback.is_error_object e.
Proof.
  unfold Callback.escaped.
  destruct (Conversion.text v) as [t|e1] eqn:T; cbn [bind]; intros H.
  - apply encode_throws in H. subst e. now eexists.
  - injection H as <-. apply text_throws in T. subst e1. now eexists.
Qed.

Lemma bind_param_throws (tool : Endpoint.t) (st : Bound)
  (entry : string * jsval) (e : Error) :
  Callback.bind_param tool st entry = Throw e -> Callback.is_error_object e.
Proof.
  destruct entry as [n v]. unfold Callback.bind_param, Callback.substitute.
  destruct (find_paramDef tool n) as [d|]; [|discriminate].
  destruct (Param.type d).
  - destruct (Callback.escaped v) as [t|e1] eqn:E; cbn [bind].
    + discriminate.
    + intros [= <-]. now apply (escaped_throws v).
  - destruct (Conversion.text v) as [t|e1] eqn:T; cbn [bind];
      [discriminate|].
    intros [= <-]. apply text_throws in T. subst e1. now eexists.
  - discriminate.
  - destruct (Conversion.text v) as [t|e1] eqn:T; cbn [bind];
      [discriminate|].
    intros [= <-]. apply text_throws in T. subst e1. now eexists.
Qed.

Lemma bind_from_throws (tool : Endpoint.t) (params : list (string * jsval)) :
  forall st e,
    Callback.bind_from tool st params = Throw e -> Callback.is_error_object e.
Proof.
  induction params as [|entry rest IH]; intros st e; cbn [Callback.bind_from].
  - discriminate.
  - destruct (Callback.bind_param tool st entry) as [st'|e1] eqn:B;
      cbn [bind].
    + apply IH.
    + intros [= <-]. now apply (bind_param_throws tool st entry).
Qed.

Lemma query_pairs_throws (entries : list (string * string)) (e : Error) :
  Callback.query_pairs entries = Throw e -> Callback.is_error_object e.
Proof.
  induction entries as [|[k v] rest IH]; cbn [Callback.query_pairs].
  - discriminate.
  - destruct (Conversion.encodeURIComponent k) as [k'|e1] eqn:K; cbn [bind].
    2:{ intros [= <-]. apply encode_throws in K. subst e1. now eexists. }
    destruct (Conversion.encodeURIComponent v) as [v'|e1] eqn:V; cbn [bind].
    2:{ intros [= <-]. apply encode_throws in V. subst e1. now eexists. }
    destruct (Callback.query_pairs rest) as [more|e1]; cbn [bind].
    + discriminate.
    + intros [= <-]. now apply IH.
Qed.

Lemma request_throws (tool : Endpoint.t) (params : list (string * jsval))
  (e : Error) :
  Callback.request tool params = Throw e -> Callback.is_error_object e.
Proof.
  unfold Callback.request, Callback.bind_params.
  destruct (Callback.bind_from tool (initial tool) params) as [st|e1] eqn:B;
    cbn [bind].
  2:{ intros [= <-]. now apply (bind_from_throws tool params _ _ B). }
  unfold Callback.with_query.
  destruct (0 <? List.length (Obj.entries (queryParams st))); cbn [bind];
    [|discriminate].
  destruct (Callback.query_pairs (Obj.entries (queryParams st)))
    as [pairs|e1] eqn:Q; cbn [bind]; [discriminate|].
  intros [= <-]. now apply (query_pairs_throws _ _ Q).
Qed.

(** *** The callback when no conversion throws *)

Lemma escaped_quiet (v : jsval) :
  Conversion.printable v = true ->
  Conversion.lone_surrogate (Value.ToString v) = false ->
  Callback.escaped v = Normal (JS.encodeURIComponent (Value.ToString v)).
Proof.
  intros P L. unfold Callback.escaped. rewrite text_spec, P. cbn [bind].
  unfold Conversion.encodeURIComponent. now rewrite L.
Qed.

Lemma bind_param_quiet (tool : Endpoint.t) (st : Bound)
  (entry : string * jsval) :
  Callback.quiet_entry tool entry = true ->
  Callback.bind_param tool st entry = Normal (bind_param tool st entry).
Proof.
  destruct entry as [n v].
  unfold Callback.quiet_entry, Callback.bind_param, bind_param.
  cbn [fst snd].
  destruct (find_paramDef tool n) as [d|]; [|reflexivity].
  destruct (Param.type d); intros Q.
  - apply andb_true_iff in Q as [P L]. apply negb_true_iff in L.
    unfold Callback.substitute, substitute.
    rewrite (escaped_quiet v P L). reflexivity.
  - now rewrite text_spec, Q.
  - reflexivity.
  - now rewrite text_spec, Q.
Qed.

Lemma bind_from_quiet (tool : Endpoint.t) (params : list (string * jsval)) :
  forall st,
    forallb (Callback.quiet_entry tool) params = true ->
    Callback.bind_from tool st params
    = Normal (fold_left (bind_param tool) params st).
Proof.
  induction params as [|entry rest IH]; intros st Q; [reflexivity|].
  cbn [forallb] in Q. apply andb_true_iff in Q as [Q1 Q2].
  cbn [Callback.bind_from fold_left].
  rewrite (bind_param_quiet tool st entry Q1). cbn [bind]. now apply IH.
Qed.

Lemma query_pairs_quiet (entries : list (string * string)) :
  forallb Callback.quiet_pair entries = true ->
  Callback.query_pairs entries
  = Normal (map (fun kv => match kv with
                           | (key, value) =>
                               JS.encodeURIComponent key ++ "="
                               ++ JS.encodeURIComponent value
                           end) entries).
Proof.
  induction entries as [|[k v] rest IH]; intros Q; [reflexivity|].
  cbn [forallb] in Q. apply andb_true_iff in Q as [Q1 Q2].
  unfold Callback.quiet_pair in Q1. cbn [fst snd] in Q1.
  apply andb_true_iff in Q1 as [K V].
  apply negb_true_iff in K, V.
  cbn [Callback.query_pairs map]. unfold Conversion.encodeURIComponent.
  rewrite K, V. cbn [bind]. now rewrite (IH Q2).
Qed.

(** On an invocation whose conversions succeed the callback hands
    [Handler.request] to the transport and answers as [Handler.handler]
    does. *)
Lemma request_quiet (tool : Endpoint.t) (params : list (string * jsval)) :
  Callback.quiet tool params = true ->
  Callback.request tool params = Normal (request tool params).
Proof.
  unfold Callback.quiet. intros Q. apply andb_true_iff in Q as [Q1 Q2].
  unfold Callback.request, Callback.bind_params, request.
  rewrite (bind_from_quiet tool params (initial tool) Q1). cbn [bind].
  fold (bind_params tool params).
  unfold Callback.with_query, with_query, queryString.
  destruct (0 <? List.length (Obj.entries (queryParams (bind_params tool params))));
    cbn [bind]; [|reflexivity].
  now rewrite (query_pairs_quiet _ Q2).
Qed.

Lemma handler_quiet (graphRequest : GraphRequest) (tool : Endpoint.t)
  (params : list (string * jsval)) :
  Callback.quiet tool params = true ->
  Callback.handler graphRequest tool params
  = handler graphRequest tool params.
Proof.
  intros Q. unfold Callback.handler, Callback.attempt, handler, attempt.
  rewrite (request_quiet tool params Q). cbn [bind].
  now destruct (request tool params).
Qed.

Lemma inspect_returns (r : McpResponse.t) : inspect r = Normal tt.
Proof.
  unfold inspect. destruct (McpResponse.content r) as [|first rest];
    [reflexivity|].
  destruct (inspect_json (McpResponse.text first)) as [[]|e]; reflexivity.
Qed.

Lemma normalize_throws (response : Response) (e : Error) :
  normalize response = Throw e -> Callback.is_error_object e.
Proof.
  destruct response as [| |r]; cbn [normalize].
  - intros [= <-]. now eexists.
  - intros [= <-]. now eexists.
  - rewrite inspect_returns. discriminate.
Qed.

(** What the [try] block throws is an [Error] object of the callback's own
    steps, or what the transport threw. *)
Lemma attempt_throws (graphRequest : GraphRequest) (tool : Endpoint.t)
  (params : list (string * jsval)) (e : Error) :
  Callback.attempt graphRequest tool params = Throw e ->
  Callback.is_error_object e
  \/ exists path options, graphRequest path options = Throw e.
Proof.
  unfold Callback.attempt.
  destruct (Callback.request tool params) as [sent|e1] eqn:R; cbn [bind].
  2:{ intros [= <-]. left. now apply (request_throws tool params). }
  destruct (graphRequest (fst sent) (snd sent)) as [response|e1] eqn:G;
    cbn [bind].
  - intros H. left. now apply (normalize_throws response).
  - intros [= <-]. right. now exists (fst sent), (snd sent).
Qed.

(** *** The catch block *)

Lemma error_text_names_tool (tool : Endpoint.t) (error : Error)
  (msg : string) :
  error_text tool error = Normal msg ->
  JS.includes msg (Endpoint.alias tool) = true.
Proof.
  unfold error_text.
  destruct (read_message error) as [m|e]; cbn [bind]; [|discriminate].
  destruct (Conversion.text_of m) as [t|e]; cbn [bind]; [|discriminate].
  intros [= <-].
  exact (StringFacts.includes_intro "Error in tool " (Endpoint.alias tool)
           (": " ++ t)).
Qed.

(** The result of a catch block that does not throw. *)
Lemma error_result_envelope (tool : Endpoint.t) (error : Error)
  (result : CallToolResult.t) :
  error_result tool error = Normal result ->
  exists text msg,
    result = CallToolResult.make [TextContent text] None (Some true)
    /\ error_text tool error = Normal msg
    /\ JSON.parse text = Some (JObj [("error", JStr msg)])
    /\ JS.includes msg (Endpoint.alias tool) = true.
Proof.
  unfold error_result.
  destruct (error_text tool error) as [msg|e] eqn:T; cbn [bind];
    [|discriminate].
  intros [= <-]. exists (JSON.stringify (error_object msg)), msg.
  split; [reflexivity|]. split; [reflexivity|].
  split; [apply JSONFacts.parse_stringify_error_object|].
  now apply (error_text_names_tool tool error).
Qed.

Lemma error_text_of_message (tool : Endpoint.t) (error : Error) (m : string) :
  error = mkError m
  \/ (exists ps, error = Thrown (Some (JObj ps))
                 /\ Obj.get "message" ps = Some (JStr m)) ->
  error_text tool error
  = Normal ("Error in tool " ++ Endpoint.alias tool ++ ": " ++ m).
Proof.
  intros [->|(ps & -> & G)]; unfold error_text; cbn [read_message bind].
  - reflexivity.
  - unfold get_property. now rewrite G.
Qed.

(** The callback never throws when the transport throws nothing but
    [Error] objects. *)
Lemma handler_returns (graphRequest : GraphRequest) (tool : Endpoint.t)
  (params : list (string * jsval)) :
  (forall path options e,
     graphRequest path options = Throw e -> Callback.is_error_object e) ->
  exists result, Callback.handler graphRequest tool params = Normal result.
Proof.
  intros G. unfold Callback.handler.
  destruct (Callback.attempt graphRequest tool params) as [r|e] eqn:A;
    cbn [try_catch]; [eauto|].
  assert (E : Callback.is_error_object e).
  { destruct (attempt_throws _ _ _ _ A) as [E|(p & o & T)]; [exact E|].
    now apply (G p o). }
  destruct E as [m ->]. unfold error_result.
  rewrite (error_text_of_message tool (mkError m) m) by now left.
  cbn [bind]. eauto.
Qed.

(** The claim C1 as it is stated fails: the catch block reads the message
    of what was thrown, and when the transport rejects with [null] or with
    [undefined] that read throws; the exception leaves the callback. *)
Lemma nullish_rejection_escapes :
  Callback.handler (fun _ _ => Throw (Thrown (Some JNull)))
    Sample.getItem [("id", JStr "42")]
  = Throw (TypeError_read "null" "message")
  /\ Callback.handler (fun _ _ => Throw (Thrown None))
       Sample.getItem [("id", JStr "42")]
     = Throw (TypeError_read "undefined" "message")
  /\ ~ exists result,
         Callback.handler (fun _ _ => Throw (Thrown (Some JNull)))
           Sample.getItem [("id", JStr "42")]
         = Normal result.
Proof.
  split; [reflexivity | split; [reflexivity|]].
  intros [result H]. discriminate H.
Qed.

Lemma read_message_throws (error thrown : Error) :
  read_message error = Throw thrown
  <-> (error = Thrown None
       /\ thrown = TypeError_read "undefined" "message")
      \/ (error = Thrown (Some JNull)
          /\ thrown = TypeError_read "null" "message").
Proof.
  split.
  - destruct error as [m|[v|]]; cbn [read_message]; [discriminate| |].
    + destruct v; cbn [get_property]; try discriminate.
      intros [= <-]. right. now split.
    + intros [= <-]. left. now split.
  - intros [[-> ->]|[-> ->]]; reflexivity.
Qed.

(** C1, amended.  What is thrown while the arguments are bound, the request
    is built and sent and the response is normalised is an [Error] object
    of one of these steps (a [TypeError] of a conversion or of a missing
    response, a [URIError]) or whatever the transport threw.  When its
    message can be read and has a text, as for every [Error] object, the
    callback returns normally: its result has [isError] true and exactly
    one content item, a text item whose text is JSON for an object with an
    [error] string, the name of the operation followed by the text of the
    message.  Whenever the callback returns after a throw its result is of
    that form.  It throws itself in the other cases and only then: when
    the transport threw [null] or [undefined], for which reading the
    message throws in the catch block, and when the message has no
    text. *)
Theorem handler_converts_throw
  (graphRequest : GraphRequest) (tool : Endpoint.t)
  (params : list (string * jsval)) (error : Error) :
  Callback.attempt graphRequest tool params = Throw error ->
  (Callback.is_error_object error
   \/ exists path options, graphRequest path options = Throw error)
  /\ (forall m text,
        read_message error = Normal m ->
        Conversion.text_of m = Normal text ->
        exists json msg,
          Callback.handler graphRequest tool params
          = Normal (CallToolResult.make [TextContent json] None (Some true))
          /\ JSON.parse json = Some (JObj [("error", JStr msg)])
          /\ msg = "Error in tool " ++ Endpoint.alias tool ++ ": " ++ text
          /\ JS.includes msg (Endpoint.alias tool) = true)
  /\ (forall m,
        error = mkError m ->
        read_message error = Normal (Some (JStr m))
        /\ Conversion.text_of (Some (JStr m)) = Normal m)
  /\ (forall result,
        Callback.handler graphRequest tool params = Normal result ->
        exists json msg,
          result = CallToolResult.make [TextContent json] None (Some true)
          /\ JSON.parse json = Some (JObj [("error", JStr msg)])
          /\ JS.includes msg (Endpoint.alias tool) = true)
  /\ (forall thrown,
        Callback.handler graphRequest tool params = Throw thrown
        <-> (error = Thrown None
             /\ thrown = TypeError_read "undefined" "message")
            \/ (error = Thrown (Some JNull)
                /\ thrown = TypeError_read "null" "message")
            \/ (exists m, read_message error = Normal m
                          /\ Conversion.text_of m = Throw thrown)).
Proof.
  intros A.
  assert (H : Callback.handler graphRequest tool params
              = error_result tool error).
  { unfold Callback.handler. now rewrite A. }
  split; [now apply (attempt_throws graphRequest tool params)|].
  split; [|split; [|split]].
  - intros m text M T.
    assert (E : error_text tool error
                = Normal ("Error in tool " ++ Endpoint.alias tool ++ ": "
                          ++ text)).
    { unfold error_text. rewrite M. cbn [bind]. now rewrite T. }
    exists (JSON.stringify
              (error_object
                 ("Error in tool " ++ Endpoint.alias tool ++ ": " ++ text))),
           ("Error in tool " ++ Endpoint.alias tool ++ ": " ++ text).
    split; [rewrite H; unfold error_result; now rewrite E|].
    split; [apply JSONFacts.parse_stringify_error_object|].
    split; [reflexivity|].
    now apply (error_text_names_tool tool error).
  - intros m ->. split; reflexivity.
  - intros result R. rewrite H in R.
    destruct (error_result_envelope tool error result R)
      as (text & msg & E & _ & P & I).
    now exists text, msg.
  - intros thrown. rewrite H. unfold error_result, error_text.
    destruct (read_message error) as [m|e] eqn:M; cbn [bind].
    + destruct (Conversion.text_of m) as [t|e] eqn:T; cbn [bind].
      * split; [discriminate|].
        intros [[-> _]|[[-> _]|(m' & [= <-] & T')]]; try discriminate M.
        rewrite T in T'. discriminate T'.
      * split.
        -- intros [= <-]. right. right. now exists m.
        -- intros [[-> _]|[[-> _]|(m' & [= <-] & T')]];
             try discriminate M.
           rewrite T in T'. now injection T' as <-.
    + apply read_message_throws in M. split.
      * intros [= <-]. destruct M as [M|M]; [now left | right; now left].
      * intros [[E1 ->]|[[E1 ->]|(m' & M' & _)]].
        -- destruct M as [[_ ->]|[E2 _]]; [reflexivity|]. congruence.
        -- destruct M as [[E2 _]|[_ ->]]; [congruence | reflexivity].
        -- discriminate M'.
Qed.

(** An argument that has no text is caught like a failing transport: the
    [If-Match] header is given an object with a [toString] of its own. *)
Lemma handler_converts_throw_witness :
  Callback.attempt Sample.no_transport Sample.createItem
    [("If-Match", JObj [("toString", JNum 1)])]
  = Throw Conversion.TypeError_primitive
  /\ exists json msg,
       Callback.handler Sample.no_transport Sample.createItem
         [("If-Match", JObj [("toString", JNum 1)])]
       = Normal (CallToolResult.make [TextContent json] None (Some true))
       /\ JSON.parse json = Some (JObj [("error", JStr msg)])
       /\ msg = "Error in tool createItem: "
                ++ "Cannot convert object to primitive value"
       /\ JS.includes msg "createItem" = true.
Proof.
  split; [reflexivity|].
  apply (proj1 (proj2 (handler_converts_throw Sample.no_transport
                         Sample.createItem
                         [("If-Match", JObj [("toString", JNum 1)])]
                         Conversion.TypeError_primitive eq_refl))
           (Some (JStr "Cannot convert object to primitive value"))
           "Cannot convert object to primitive value" eq_refl eq_refl).
Defined.

End BoundaryFacts.

(** ** Registration in read-only mode *)

Module RegistrarFacts.

Import Registrar.

Lemma register_loop (readOnly : bool) (endpoints : list Endpoint.t)
  (server : Server) :
  fold_left (register_endpoint readOnly) endpoints server
  = (server ++ map catalog_registration
                 (filter (eligible readOnly) endpoints))%list.
Proof.
  revert server.
  induction endpoints as [|tool rest IH]; intros server; cbn [fold_left filter].
  - now rewrite List.app_nil_r.
  - rewrite IH. unfold register_endpoint, eligible, server_tool.
    destruct (readOnly && negb (is_get tool)); cbn [negb map].
    + reflexivity.
    + now rewrite <- List.app_assoc.
Qed.

Lemma registerGraphTools_eq (readOnly : bool) (endpoints : list Endpoint.t) :
  registerGraphTools endpoints readOnly
  = (map catalog_registration (filter (eligible readOnly) endpoints)
     ++ [debug_excel_access; upload_file_to_onedrive;
         create_empty_excel_file])%list.
Proof.
  unfold registerGraphTools, server_tool.
  rewrite register_loop. cbn [List.app].
  now rewrite <- !List.app_assoc.
Qed.

Lemma catalog_operations_app (a b : Server) :
  catalog_operations (a ++ b)%list
  = (catalog_operations a ++ catalog_operations b)%list.
Proof. apply flat_map_app. Qed.

Lemma catalog_operations_map (tools : list Endpoint.t) :
  catalog_operations (map catalog_registration tools) = tools.
Proof.
  induction tools as [|t r IH]; [reflexivity|].
  cbn. f_equal. exact IH.
Qed.





(** Outside read-only mode every descriptor is registered. *)
Lemma read_write_registers_all (endpoints : list Endpoint.t) :
  catalog_operations (registerGraphTools endpoints false) = endpoints.
Proof.
  rewrite registerGraphTools_eq, catalog_operations_app,
    catalog_operations_map.
  cbn. rewrite List.app_nil_r.
  induction endpoints as [|t r IH]; cbn; [reflexivity | now rewrite IH].
Qed.

(** The three fixed operations are registered in either mode, last; the
    upload among them sends a PUT. *)
Lemma fixed_operations_registered (endpoints : list Endpoint.t)
  (readOnly : bool) :
  In debug_excel_access (registerGraphTools endpoints readOnly)
  /\ In upload_file_to_onedrive (registerGraphTools endpoints readOnly)
  /\ In create_empty_excel_file (registerGraphTools endpoints readOnly)
  /\ forall fileName content folderPath contentType,
       Options.method
         (snd (upload_request fileName content folderPath contentType))
       = "PUT".
Proof.
  rewrite registerGraphTools_eq.
  repeat split; apply in_or_app; right; cbn [In]; auto.
Qed.

End RegistrarFacts.

(** ** The binding loop *)

Module BinderFacts.

Import Handler.

Lemma bind_params_app (tool : Endpoint.t) (a b : list (string * jsval)) :
  bind_params tool (a ++ b)%list
  = fold_left (bind_param tool) b (bind_params tool a).
Proof. unfold bind_params. apply fold_left_app. Qed.

(** An argument without a parameter definition, and not named [body],
    leaves the loop variables as they are. *)
Lemma bind_param_unknown (tool : Endpoint.t) (st : Bound)
  (paramName : string) (paramValue : jsval) :
  known tool paramName = false ->
  bind_param tool st (paramName, paramValue) = st.
Proof.
  unfold known, bind_param. intros H.
  destruct (find_paramDef tool paramName); [discriminate|].
  now rewrite H.
Qed.

Lemma fold_known (tool : Endpoint.t) (params : list (string * jsval))
  (st : Bound) :
  fold_left (bind_param tool) params st
  = fold_left (bind_param tool)
      (filter (is_known tool) params) st.
Proof.
  revert st. induction params as [|[n v] rest IH]; intros st; [reflexivity|].
  cbn [fold_left filter]. unfold is_known at 1. cbn [fst].
  destruct (known tool n) eqn:K; cbn [fold_left].
  - apply IH.
  - rewrite bind_param_unknown by exact K. apply IH.
Qed.

(** An argument that assigns [body] assigns it whatever it held. *)
Lemma bind_param_body (tool : Endpoint.t) (st : Bound)
  (paramName : string) (paramValue : jsval) :
  writes_body tool paramName = true ->
  bind_param tool st (paramName, paramValue)
  = mkBound (path st) (queryParams st) (headers st) (body_value paramValue).
Proof.
  unfold writes_body, bind_param. intros H.
  destruct (find_paramDef tool paramName) as [d|].
  - destruct (Param.type d); try discriminate. reflexivity.
  - now rewrite H.
Qed.

Lemma bind_param_keeps_body (tool : Endpoint.t) (st : Bound)
  (paramName : string) (paramValue : jsval) :
  writes_body tool paramName = false ->
  body (bind_param tool st (paramName, paramValue)) = body st.
Proof.
  unfold writes_body, bind_param. intros H.
  destruct (find_paramDef tool paramName) as [d|].
  - destruct (Param.type d); try discriminate; reflexivity.
  - now rewrite H.
Qed.

Lemma fold_keeps_body (tool : Endpoint.t) (params : list (string * jsval))
  (st : Bound) :
  forallb (keeps_body tool) params = true ->
  body (fold_left (bind_param tool) params st) = body st.
Proof.
  revert st. induction params as [|[n v] rest IH]; intros st H; [reflexivity|].
  cbn [forallb] in H. apply andb_true_iff in H as [H1 H2].
  cbn [fold_left]. rewrite IH by exact H2.
  apply bind_param_keeps_body.
  unfold keeps_body in H1. cbn [fst] in H1. now apply negb_true_iff in H1.
Qed.

(** The last argument that assigns [body] decides it. *)
Lemma last_body_wins (tool : Endpoint.t)
  (before after : list (string * jsval))
  (paramName : string) (paramValue : jsval) :
  writes_body tool paramName = true ->
  forallb (keeps_body tool) after = true ->
  body (bind_params tool (before ++ (paramName, paramValue) :: after)%list)
  = body_value paramValue.
Proof.
  intros W K. rewrite bind_params_app. cbn [fold_left].
  rewrite fold_keeps_body by exact K.
  now rewrite bind_param_body.
Qed.

Lemma no_body_argument (tool : Endpoint.t) (params : list (string * jsval)) :
  forallb (keeps_body tool) params = true ->
  body (bind_params tool params) = JNull.
Proof. intros K. unfold bind_params. now rewrite fold_keeps_body. Qed.

Lemma request_of_bound (tool : Endpoint.t)
  (params1 params2 : list (string * jsval)) :
  bind_params tool params1 = bind_params tool params2 ->
  request tool params1 = request tool params2.
Proof. unfold request. now intros ->. Qed.

(** C4.  An argument bound to a [Body] parameter and supplied as a string
    leaves in [body] the value the string parses to as JSON, and the string
    itself when it does not parse; nothing else is touched and nothing is
    thrown: the binding of the callback, whose conversions can throw,
    completes normally with that state.  That value is the one the request
    is built from unless a later argument assigns [body] again. *)
Theorem body_argument_parsed_or_kept
  (tool : Endpoint.t) (st : Bound) (paramName s : string)
  (paramDef : Param.t) :
  find_paramDef tool paramName = Some paramDef ->
  Param.type paramDef = Body ->
  let st' := bind_param tool st (paramName, JStr s) in
  (forall v, JSON.parse s = Some v -> body st' = v)
  /\ (JSON.parse s = None -> body st' = JStr s)
  /\ path st' = path st
  /\ queryParams st' = queryParams st
  /\ headers st' = headers st
  /\ Callback.bind_param tool st (paramName, JStr s) = Normal st'
  /\ forall before after,
       forallb (keeps_body tool) after = true ->
       body (bind_params tool (before ++ (paramName, JStr s) :: after)%list)
       = body st'.
Proof.
  intros F T st'.
  assert (W : writes_body tool paramName = true).
  { unfold writes_body. now rewrite F, T. }
  assert (E : st' = mkBound (path st) (queryParams st) (headers st)
                      (body_value (JStr s))).
  { apply bind_param_body, W. }
  assert (C : Callback.bind_param tool st (paramName, JStr s) = Normal st').
  { rewrite E. unfold Callback.bind_param. now rewrite F, T. }
  rewrite C, E. cbn [body path queryParams headers body_value].
  repeat split.
  - now intros v ->.
  - now intros ->.
  - intros before after K. now apply last_body_wins.
Qed.

Lemma body_argument_parsed_or_kept_witness :
  body (bind_param Sample.createItem (initial Sample.createItem)
          ("payload", JStr "[1.5, 1e2]"))
  = JArr [JFrac false 3 1; JNum 100].
Proof.
  apply (proj1 (body_argument_parsed_or_kept Sample.createItem
                  (initial Sample.createItem) "payload" "[1.5, 1e2]"
                  (Param.make "payload" Body None) eq_refl eq_refl)).
  vm_compute. reflexivity.
Defined.

(** C9.  Two invocations whose arguments agree once those matching no
    parameter definition and not named [body] are left out (same entries,
    same order) reach the transport with the same path and the same options,
    and the callback answers alike; such an argument changes no loop
    variable, and an argument named [body] without a parameter definition
    is bound as a [Body] parameter is. *)
Theorem unknown_arguments_dropped
  (tool : Endpoint.t) (params1 params2 : list (string * jsval)) :
  filter (is_known tool) params1 = filter (is_known tool) params2 ->
  request tool params1 = request tool params2
  /\ (forall graphRequest,
        handler graphRequest tool params1 = handler graphRequest tool params2)
  /\ (forall st paramName paramValue,
        known tool paramName = false ->
        bind_param tool st (paramName, paramValue) = st)
  /\ (forall st paramValue,
        find_paramDef tool "body" = None ->
        bind_param tool st ("body", paramValue)
        = mkBound (path st) (queryParams st) (headers st)
                  (body_value paramValue)).
Proof.
  intros H.
  assert (R : request tool params1 = request tool params2).
  { apply request_of_bound. unfold bind_params.
    rewrite (fold_known tool params1), (fold_known tool params2).
    now rewrite H. }
  split; [exact R | split; [|split]].
  - intros g. unfold handler, attempt. now rewrite R.
  - intros st n v. apply bind_param_unknown.
  - intros st v F. unfold bind_param. now rewrite F.
Qed.

Lemma unknown_arguments_dropped_witness :
  request Sample.createItem
    [("trace", JStr "on"); ("payload", JStr "[1]"); ("zzz", JNum 7)]
  = request Sample.createItem
      [("payload", JStr "[1]"); ("debug", JBool true)].
Proof.
  apply (proj1 (unknown_arguments_dropped Sample.createItem
                  [("trace", JStr "on"); ("payload", JStr "[1]");
                   ("zzz", JNum 7)]
                  [("payload", JStr "[1]"); ("debug", JBool true)]
                  eq_refl)).
Defined.

(** C10.  The loop has one [body] variable, assigned by every argument
    bound to a [Body] parameter and by the legacy [body] argument: the last
    such argument in the enumeration order of the arguments decides, alone,
    the body of the request, which is a single optional string. *)
Theorem last_body_argument_decides
  (tool : Endpoint.t) (before after : list (string * jsval))
  (paramName : string) (paramValue : jsval) :
  writes_body tool paramName = true ->
  forallb (keeps_body tool) after = true ->
  let params := (before ++ (paramName, paramValue) :: after)%list in
  body (bind_params tool params) = body_value paramValue
  /\ Options.body (snd (request tool params))
     = attached_body (JS.toUpperCase (Endpoint.method tool))
                     (body_value paramValue).
Proof.
  intros W K params.
  assert (B : body (bind_params tool params) = body_value paramValue)
    by now apply last_body_wins.
  split; [exact B|].
  unfold request. cbn [snd Options.body]. now rewrite B.
Qed.

Lemma last_body_argument_decides_witness :
  Options.body
    (snd (request Sample.createItem
            [("body", JStr "first"); ("payload", JStr "[2]");
             ("If-Match", JStr "x")]))
  = Some "[2]".
Proof.
  apply (proj2 (last_body_argument_decides Sample.createItem
                  [("body", JStr "first")] [("If-Match", JStr "x")]
                  "payload" (JStr "[2]") eq_refl eq_refl)).
Defined.

End BinderFacts.

(** ** Objects *)

Module ObjFacts.

Import Obj.

Section Get.
Context {A : Type}.
Implicit Types (o : @obj A) (k : string) (v : A).

Lemma get_update_same k v o :
  has k o = true -> get k (update k v o) = Some v.
Proof.
  unfold has. induction o as [|[k' v'] r IH]; cbn [get update];
    [discriminate|].
  destruct (String.eqb k k') eqn:E; cbn [get]; rewrite E; auto.
Qed.

Lemma get_insert_index_same i k v o :
  has k o = false -> get k (insert_index i k v o) = Some v.
Proof.
  unfold has. induction o as [|[k' v'] r IH]; cbn [get insert_index]; intros H.
  - now rewrite String.eqb_refl.
  - destruct (String.eqb k k') eqn:E; [discriminate|].
    destruct (array_index k') as [j|];
      [destruct (j <? i)%N|]; cbn [get];
      rewrite ?E, ?String.eqb_refl; auto.
Qed.

Lemma get_append_same k v o :
  has k o = false -> get k (o ++ [(k, v)])%list = Some v.
Proof.
  unfold has. induction o as [|[k' v'] r IH]; cbn [get List.app]; intros H.
  - now rewrite String.eqb_refl.
  - destruct (String.eqb k k'); [discriminate | auto].
Qed.

(** A property that has just been defined is read back. *)
Lemma get_define_same k v o : get k (define k v o) = Some v.
Proof.
  unfold define. destruct (has k o) eqn:H.
  - now apply get_update_same.
  - destruct (array_index k).
    + now apply get_insert_index_same.
    + now apply get_append_same.
Qed.

Lemma get_set_same k v o :
  k <> "__proto__" -> get k (set k v o) = Some v.
Proof.
  intros N. unfold set.
  destruct (String.eqb_spec k "__proto__") as [E|_]; [contradiction|].
  apply get_define_same.
Qed.

End Get.

End ObjFacts.

(** ** Reserved names of query and header arguments *)

Module AliasFacts.

Import Handler.


Lemma existsb_eqb_In (x : string) (l : list string) :
  existsb (String.eqb x) l = true <-> In x l.
Proof.
  rewrite existsb_exists. split.
  - intros (y & I & E). apply String.eqb_eq in E. now subst.
  - intros I. exists x. split; [exact I | apply String.eqb_refl].
Qed.

(** *** Lower case, letter by letter *)














End AliasFacts.

(** ** The synthesized request *)

Module RequestFacts.

Import Handler.

Lemma truthy_spec (v : jsval) :
  Value.truthy v = true
  <-> v <> JNull /\ v <> JBool false /\ v <> JNum 0 /\ v <> JStr EmptyString.
Proof.
  destruct v as [|b|n|s|xs|ps|negative m k|negative]; cbn [Value.truthy].
  - split; [discriminate | now intros [N _]].
  - destruct b; split; try discriminate; try easy.
  - rewrite negb_true_iff, Z.eqb_neq. split.
    + intros N. repeat split; try discriminate. intros [= E]. now apply N.
    + intros (_ & _ & N & _) E. apply N. now rewrite E.
  - rewrite negb_true_iff, String.eqb_neq. split.
    + intros N. repeat split; try discriminate. intros [= E]. now apply N.
    + intros (_ & _ & _ & N) E. apply N. now rewrite E.
  - split; [|reflexivity]. intros _. repeat split; discriminate.
  - split; [|reflexivity]. intros _. repeat split; discriminate.
  - split; [|reflexivity]. intros _. repeat split; discriminate.
  - split; [|reflexivity]. intros _. repeat split; discriminate.
Qed.

(** The claim C7 as it is stated fails: a [Body] argument [0] on a POST
    descriptor leaves a body that is not [null], and no body is attached. *)
Lemma zero_body_not_attached :
  let tool := Sample.createItem in
  let params := [("payload", JNum 0)] in
  ~ (Options.body (snd (request tool params)) <> None
     <-> JS.toUpperCase (Endpoint.method tool) <> "GET"
         /\ body (bind_params tool params) <> JNull).
Proof.
  cbv zeta. intros [_ H].
  assert (N : Options.body
                (snd (request Sample.createItem [("payload", JNum 0)]))
              <> None).
  { apply H. split; discriminate. }
  apply N. reflexivity.
Qed.

(** C7, amended.  A body is attached to the request exactly when the
    upper-cased method is not GET and the bound body is truthy, that is
    neither [null] nor [false], [0] or the empty string; an attached body is
    the bound string itself, and the JSON text of a bound value that is not
    a string. *)
Theorem body_attached_iff_truthy
  (tool : Endpoint.t) (params : list (string * jsval)) :
  let method := JS.toUpperCase (Endpoint.method tool) in
  let bound := body (bind_params tool params) in
  let sent := Options.body (snd (request tool params)) in
  Options.method (snd (request tool params)) = method
  /\ (sent <> None <-> method <> "GET" /\ Value.truthy bound = true)
  /\ (Value.truthy bound = true
      <-> bound <> JNull /\ bound <> JBool false /\ bound <> JNum 0
          /\ bound <> JStr EmptyString)
  /\ (forall s, method <> "GET" -> bound = JStr s -> s <> EmptyString ->
                sent = Some s)
  /\ (method <> "GET" -> Value.truthy bound = true ->
      Value.is_string bound = false ->
      sent = Some (JSON.stringify bound)).
Proof.
  intros method bound sent.
  assert (S : sent = attached_body method bound) by reflexivity.
  split; [reflexivity|]. split; [|split; [apply truthy_spec|split]].
  - rewrite S. unfold attached_body.
    destruct (String.eqb_spec method "GET") as [E|N];
      destruct (Value.truthy bound); cbn [negb andb]; split;
      try (intros [? ?]); try easy.
  - intros s N E Ne. rewrite S, E. unfold attached_body.
    apply String.eqb_neq in N. rewrite N. cbn [negb andb Value.truthy].
    apply String.eqb_neq in Ne. now rewrite Ne.
  - intros N T I. rewrite S. unfold attached_body.
    apply String.eqb_neq in N. rewrite N, T. cbn [negb andb].
    now destruct bound.
Qed.

Lemma normalize_object (r : McpResponse.t) :
  normalize (RObject r)
  = Normal (CallToolResult.make
              (map (fun item => TextContent (McpResponse.text item))
                   (McpResponse.content r))
              (McpResponse._meta r) (McpResponse.isError r)).
Proof. unfold normalize. now rewrite BoundaryFacts.inspect_returns. Qed.

(** The claim C8 as it is stated fails in its last part: a response without
    content items is answered by a result without content items. *)
Lemma empty_response_empty_result :
  handler (Sample.echo_transport (McpResponse.make [] None None))
          Sample.getItem [("id", JStr "42")]
  = Normal (CallToolResult.make [] None None).
Proof. reflexivity. Qed.

(** C8, amended.  When the transport returns a response, the result carries
    one text item per item of the response, in the same order and with the
    same text, and the response's metadata and error flag as they are; what
    is computed for the log lines changes nothing of it; the result has as
    many content items as the response, so it is not empty exactly when the
    response is not. *)
Theorem response_rewrapped
  (graphRequest : GraphRequest) (tool : Endpoint.t)
  (params : list (string * jsval)) (r : McpResponse.t) :
  graphRequest (fst (request tool params)) (snd (request tool params))
  = Normal (RObject r) ->
  exists result,
    handler graphRequest tool params = Normal result
    /\ CallToolResult.content result
       = map (fun item => TextContent (McpResponse.text item))
             (McpResponse.content r)
    /\ List.length (CallToolResult.content result)
       = List.length (McpResponse.content r)
    /\ (forall i,
          nth_error (CallToolResult.content result) i
          = option_map (fun item => TextContent (McpResponse.text item))
              (nth_error (McpResponse.content r) i))
    /\ CallToolResult._meta result = McpResponse._meta r
    /\ CallToolResult.isError result = McpResponse.isError r
    /\ inspect r = Normal tt
    /\ (CallToolResult.content result = [] <-> McpResponse.content r = []).
Proof.
  intros H. eexists. split.
  - unfold handler, attempt. destruct (request tool params) as [p o].
    cbn [fst snd] in H. rewrite H. cbn [bind]. rewrite normalize_object.
    reflexivity.
  - cbn [CallToolResult.content CallToolResult._meta CallToolResult.isError].
    split; [reflexivity|].
    split; [apply length_map|].
    split; [intros i; apply nth_error_map|].
    split; [reflexivity|]. split; [reflexivity|].
    split; [apply BoundaryFacts.inspect_returns|].
    split; [intros E; now apply map_eq_nil in E | now intros ->].
Qed.

Lemma response_rewrapped_witness :
  exists result,
    handler (Sample.echo_transport
               (McpResponse.make [McpResponse.make_item "{}"] None (Some false)))
            Sample.getItem [("id", JStr "42")] = Normal result
    /\ CallToolResult.content result = [TextContent "{}"].
Proof.
  destruct (response_rewrapped
              (Sample.echo_transport
                 (McpResponse.make [McpResponse.make_item "{}"] None
                    (Some false)))
              Sample.getItem [("id", JStr "42")]
              (McpResponse.make [McpResponse.make_item "{}"] None (Some false))
              eq_refl) as (result & H & C & _).
  exists result. split; [exact H | exact C].
Defined.

(** The claim C2 as it is stated fails in its example: the [$] of the key
    is percent-encoded as well, so the text [$filter=a%20eq%201] is not what
    is appended. *)
Lemma filter_key_is_escaped :
  fst (request Sample.listItems [("filter", JStr "a eq 1")])
  = "/items?%24filter=a%20eq%201"
  /\ queryString
       (queryParams (bind_params Sample.listItems [("filter", JStr "a eq 1")]))
     <> "$filter=a%20eq%201"
  /\ JS.includes (fst (request Sample.listItems [("filter", JStr "a eq 1")]))
       "$filter" = false.
Proof. split; [reflexivity | split; [discriminate | reflexivity]]. Qed.

(** C2, amended.  The query string is made of the stored pairs, each as
    key [=] value with key and value percent-encoded, joined by [&]; when
    there is a pair it is appended to the bound path after [?], or after
    [&] when that path contains [?], and nothing is appended otherwise.  For
    a descriptor with a [Query] parameter named [filter], the arguments
    [{filter: "a eq 1"}] append [%24filter=a%20eq%201]. *)
Theorem query_string_appended
  (tool : Endpoint.t) (params : list (string * jsval)) :
  let st := bind_params tool params in
  let pair := fun kv : string * string =>
                JS.encodeURIComponent (fst kv) ++ "="
                ++ JS.encodeURIComponent (snd kv) in
  let mark := fun p : string => if JS.includes p "?" then "&" else "?" in
  (queryParams st = [] -> fst (request tool params) = path st)
  /\ (queryParams st <> [] ->
      fst (request tool params)
      = path st ++ mark (path st)
        ++ JS.join "&" (map pair (Obj.entries (queryParams st))))
  /\ (forall paramDef,
        find_paramDef tool "filter" = Some paramDef ->
        Param.type paramDef = Query ->
        fst (request tool [("filter", JStr "a eq 1")])
        = Endpoint.path tool ++ mark (Endpoint.path tool)
          ++ "%24filter=a%20eq%201").
Proof.
  intros st pair mark.
  assert (Q : forall q, queryString q = JS.join "&" (map pair (Obj.entries q))).
  { intros q. unfold queryString. f_equal. apply map_ext. now intros [k v]. }
  split; [|split].
  - intros E. unfold request. cbn [fst]. fold st. unfold with_query.
    now rewrite E.
  - intros N. unfold request. cbn [fst]. fold st. unfold with_query.
    destruct (queryParams st) as [|e q] eqn:E; [contradiction|].
    rewrite <- Q. reflexivity.
  - intros d F T. unfold request, bind_params. cbn [fst fold_left].
    unfold bind_param. rewrite F, T. reflexivity.
Qed.

Lemma query_string_appended_witness :
  fst (request Sample.listItems [("filter", JStr "a eq 1")])
  = "/items" ++ "?" ++ "%24filter=a%20eq%201".
Proof.
  apply (proj2 (proj2 (query_string_appended Sample.listItems []))
           (Param.make "filter" Query None) eq_refl eq_refl).
Defined.

End RequestFacts.

(** ** Characters of an escaped value *)

Module EscapeFacts.

Import JS.

Lemma lacks_app (c : ascii) (a b : string) :
  lacks c (a ++ b) = lacks c a && lacks c b.
Proof.
  induction a as [|x a IH]; cbn [append lacks]; [reflexivity|].
  now rewrite IH, andb_assoc.
Qed.

Lemma escaped_char_lacks (x c : ascii) :
  In c ["{"; "}"; ":"; "$"]%char ->
  lacks c (if JS.uri_unreserved x then String x EmptyString
           else JS.percent_encode x) = true.
Proof.
  cbn [In]. intros H.
  repeat (destruct H as [<-|H];
          [destruct x as [[] [] [] [] [] [] [] []]; reflexivity|]).
  contradiction.
Qed.

Lemma encodeURIComponent_lacks (c : ascii) (s : string) :
  In c ["{"; "}"; ":"; "$"]%char ->
  lacks c (JS.encodeURIComponent s) = true.
Proof.
  intros H. induction s as [|x s IH]; [reflexivity|].
  cbn [JS.encodeURIComponent]. rewrite lacks_app, IH.
  now rewrite escaped_char_lacks.
Qed.

Lemma GetSubstitution_literal (matched before after repl : string) :
  lacks "$" repl = true ->
  JS.GetSubstitution matched before after repl = repl.
Proof.
  induction repl as [|c r IH]; [reflexivity|].
  cbn [lacks JS.GetSubstitution]. intros H.
  apply andb_true_iff in H as [H1 H2]. apply negb_true_iff in H1.
  rewrite H1. now rewrite IH.
Qed.

End EscapeFacts.

(** ** First occurrences *)

Module ReplaceFacts.

Import JS EscapeFacts.

Lemma find_first_unfold (p s : string) :
  find_first p s
  = if prefix p s then Some (EmptyString, drop (String.length p) s)
    else match s with
         | EmptyString => None
         | String c r => prepend (String c EmptyString) (find_first p r)
         end.
Proof. destruct s; reflexivity. Qed.

Lemma drop_app (p r : string) : drop (String.length p) (p ++ r) = r.
Proof. induction p as [|x p IH]; [reflexivity | exact IH]. Qed.

Lemma prepend_app (a b : string) (r : option (string * string)) :
  prepend a (prepend b r) = prepend (a ++ b) r.
Proof.
  destruct r as [[s t]|]; cbn [prepend]; [|reflexivity].
  now rewrite StringFacts.app_assoc.
Qed.

Lemma prepend_empty (r : option (string * string)) :
  prepend EmptyString r = r.
Proof. now destruct r as [[s t]|]. Qed.

Lemma prefix_head_mismatch (c x : ascii) (p s : string) :
  Ascii.eqb x c = false -> prefix (String c p) (String x s) = false.
Proof.
  intros H. cbn [prefix]. destruct (ascii_dec c x) as [->|_]; [|reflexivity].
  now rewrite Ascii.eqb_refl in H.
Qed.

Lemma prefix_head_match (c : ascii) (p s : string) :
  prefix (String c p) (String c s) = prefix p s.
Proof.
  cbn [prefix]. destruct (ascii_dec c c) as [_|N]; [reflexivity | now elim N].
Qed.

(** The search passes over text that lacks the first character sought. *)
Lemma find_first_skip (c : ascii) (p a rest : string) :
  lacks c a = true ->
  find_first (String c p) (a ++ rest)
  = prepend a (find_first (String c p) rest).
Proof.
  induction a as [|x a IH]; cbn [lacks append]; intros H.
  - now rewrite prepend_empty.
  - apply andb_true_iff in H as [H1 H2]. apply negb_true_iff in H1.
    rewrite find_first_unfold, (prefix_head_mismatch c x p _ H1).
    rewrite (IH H2). apply prepend_app.
Qed.

Lemma find_first_lacks (c : ascii) (p s : string) :
  lacks c s = true -> find_first (String c p) s = None.
Proof.
  intros H. rewrite <- (StringFacts.app_nil_r s).
  now rewrite find_first_skip.
Qed.

Lemma find_first_here (p rest : string) :
  find_first p (p ++ rest) = Some (EmptyString, rest).
Proof.
  rewrite find_first_unfold, StringFacts.prefix_app. now rewrite drop_app.
Qed.

Lemma includes_find_first (s p : string) :
  includes s p = match find_first p s with
                 | Some _ => true
                 | None => false
                 end.
Proof.
  induction s as [|x s IH]; cbn [includes find_first].
  - now destruct (prefix p EmptyString).
  - destruct (prefix p (String x s)); [reflexivity|].
    rewrite IH. now destruct (find_first p s) as [[b a]|].
Qed.

Lemma includes_lacks (c : ascii) (p s : string) :
  lacks c s = true -> includes s (String c p) = false.
Proof.
  intros H. now rewrite includes_find_first, find_first_lacks.
Qed.

(** Replacement by a text without [$]. *)
Lemma replace_found (s p v b a : string) :
  lacks "$" v = true -> find_first p s = Some (b, a) ->
  replace s p v = b ++ v ++ a.
Proof.
  intros L F. unfold replace. rewrite F.
  now rewrite GetSubstitution_literal.
Qed.

Lemma replace_absent (s p v : string) :
  find_first p s = None -> replace s p v = s.
Proof. intros F. unfold replace. now rewrite F. Qed.

Lemma replace_skip (c : ascii) (p a rest v : string) :
  lacks c a = true -> lacks "$" v = true ->
  replace (a ++ rest) (String c p) v = a ++ replace rest (String c p) v.
Proof.
  intros La Lv.
  destruct (find_first (String c p) rest) as [[b af]|] eqn:F.
  - rewrite (replace_found rest _ v b af Lv F).
    rewrite (replace_found (a ++ rest) _ v (a ++ b) af Lv).
    + now rewrite StringFacts.app_assoc.
    + now rewrite find_first_skip, F.
  - rewrite (replace_absent rest _ v F).
    apply replace_absent. now rewrite find_first_skip, F.
Qed.

Lemma replace_here (p rest v : string) :
  lacks "$" v = true -> replace (p ++ rest) p v = v ++ rest.
Proof.
  intros L. now rewrite (replace_found _ p v EmptyString rest L
                           (find_first_here p rest)).
Qed.

(** A name in braces is found only where the same name stands. *)
Lemma prefix_names (n m rest : string) :
  lacks "}" n = true -> lacks "}" m = true ->
  prefix (n ++ "}") (m ++ "}" ++ rest) = true -> n = m.
Proof.
  revert m. induction n as [|a n IH]; intros [|b m]; cbn [lacks append];
    intros Ln Lm P.
  - reflexivity.
  - apply andb_true_iff in Lm as [Lb _]. apply negb_true_iff in Lb.
    now rewrite (prefix_head_mismatch _ _ _ _ Lb) in P.
  - apply andb_true_iff in Ln as [La _]. apply negb_true_iff in La.
    cbn [prefix] in P. destruct (ascii_dec a "}") as [->|_];
      [now rewrite Ascii.eqb_refl in La | discriminate].
  - apply andb_true_iff in Ln as [_ Ln]. apply andb_true_iff in Lm as [_ Lm].
    cbn [prefix] in P. destruct (ascii_dec a b) as [->|_]; [|discriminate].
    f_equal. now apply IH.
Qed.

End ReplaceFacts.

(** ** Templates *)

Module TemplateFacts.

Import JS Template Handler EscapeFacts ReplaceFacts.

Lemma plain_lacks (s : string) :
  plain s = true ->
  lacks "{" s = true /\ lacks "}" s = true /\ lacks ":" s = true.
Proof.
  unfold plain. intros H.
  apply andb_true_iff in H as [H H3]. apply andb_true_iff in H as [H1 H2].
  auto.
Qed.

Lemma plain_app (a b : string) : plain (a ++ b) = plain a && plain b.
Proof.
  unfold plain. rewrite !lacks_app.
  destruct (lacks "{" a), (lacks "}" a), (lacks ":" a), (lacks "{" b),
    (lacks "}" b); reflexivity.
Qed.

Lemma plain_encode (s : string) : plain (encodeURIComponent s) = true.
Proof.
  unfold plain.
  rewrite !encodeURIComponent_lacks; cbn [In]; auto.
Qed.

Lemma lacks_dollar_encode (s : string) :
  lacks "$" (encodeURIComponent s) = true.
Proof. apply encodeURIComponent_lacks. cbn [In]. auto. Qed.

Lemma replace_prepend (s s' p v a : string) :
  lacks "$" v = true ->
  s' = a ++ s ->
  find_first p s' = prepend a (find_first p s) ->
  replace s' p v = a ++ replace s p v.
Proof.
  intros L -> F.
  destruct (find_first p s) as [[b af]|] eqn:E; cbn [prepend] in F.
  - rewrite (replace_found _ p v _ _ L F), (replace_found _ p v _ _ L E).
    now rewrite StringFacts.app_assoc.
  - now rewrite (replace_absent _ p v F), (replace_absent _ p v E).
Qed.

Lemma render_cons (seg : segment) (r : Template.t) :
  render (seg :: r) = segment_text seg ++ render r.
Proof.
  destruct seg as [s|m|m]; cbn [render segment_text]; try reflexivity.
  change ("{" ++ m ++ "}" ++ render r)
    with (String "{" (m ++ "}" ++ render r)).
  change (("{" ++ m ++ "}") ++ render r)
    with (String "{" ((m ++ "}") ++ render r)).
  now rewrite StringFacts.app_assoc.
Qed.

Lemma render_app (a b : Template.t) :
  render (a ++ b)%list = render a ++ render b.
Proof.
  induction a as [|seg r IH]; [reflexivity|].
  change ((seg :: r) ++ b)%list with (seg :: (r ++ b))%list.
  now rewrite !render_cons, IH, StringFacts.app_assoc.
Qed.

(** *** Replacing the one segment that is the pattern *)

Lemma fill_where_none (target : segment -> bool) (v : string)
  (tpl : Template.t) :
  existsb target tpl = false -> fill_where target v tpl = tpl.
Proof.
  induction tpl as [|seg r IH]; cbn [existsb fill_where map]; intros H;
    [reflexivity|].
  apply orb_false_iff in H as [H1 H2]. rewrite H1. f_equal. now apply IH.
Qed.

Lemma find_passes (pattern : string) (target : segment -> bool)
  (tpl : Template.t) :
  pattern <> EmptyString -> passes pattern target tpl ->
  existsb target tpl = false ->
  find_first pattern (render tpl) = None.
Proof.
  intros N. induction tpl as [|seg r IH]; cbn [passes existsb]; intros P A.
  - destruct pattern; [now elim N | reflexivity].
  - apply orb_false_iff in A as [A1 A2]. rewrite A1 in P.
    destruct P as [F P]. rewrite render_cons, F, (IH P A2). reflexivity.
Qed.

Lemma replace_passes (pattern : string) (target : segment -> bool)
  (v : string) (tpl : Template.t) :
  pattern <> EmptyString -> lacks "$" v = true -> passes pattern target tpl ->
  replace (render tpl) pattern v = render (fill_where target v tpl).
Proof.
  intros N L. induction tpl as [|seg r IH]; cbn [passes]; intros P.
  - destruct pattern; [now elim N | reflexivity].
  - destruct P as [H P]. cbn [fill_where map]. fold (fill_where target v r).
    destruct (target seg).
    + destruct H as [T A]. rewrite (fill_where_none target v r A).
      rewrite render_cons, T. cbn [render].
      now apply replace_here.
    + rewrite !render_cons.
      rewrite (replace_prepend (render r) _ pattern v (segment_text seg) L
                 eq_refl H).
      now rewrite (IH P).
Qed.

(** *** Names in braces *)

Lemma find_first_other (n m rest : string) :
  plain n = true -> plain m = true -> m <> n ->
  find_first ("{" ++ n ++ "}") (("{" ++ m ++ "}") ++ rest)
  = prepend ("{" ++ m ++ "}") (find_first ("{" ++ n ++ "}") rest).
Proof.
  intros Pn Pm N.
  destruct (plain_lacks n Pn) as (_ & Ln & _).
  destruct (plain_lacks m Pm) as (Lm1 & Lm & _).
  change ("{" ++ n ++ "}") with (String "{" (n ++ "}")).
  change (("{" ++ m ++ "}") ++ rest) with (String "{" ((m ++ "}") ++ rest)).
  rewrite StringFacts.app_assoc.
  change ("{" ++ m ++ "}") with ("{" ++ (m ++ "}")).
  rewrite find_first_unfold, prefix_head_match.
  destruct (prefix (n ++ "}") (m ++ "}" ++ rest)) eqn:P.
  - elim N. symmetry. now apply (prefix_names n m rest).
  - rewrite <- StringFacts.app_assoc, find_first_skip.
    + apply prepend_app.
    + rewrite lacks_app, Lm1. reflexivity.
Qed.

Lemma existsb_in_braces (n : string) (tpl : Template.t) :
  existsb (in_braces n) tpl = existsb (String.eqb n) (placeholders tpl).
Proof.
  induction tpl as [|[s|m|m] r IH]; cbn [existsb in_braces placeholders];
    auto.
  now rewrite IH, (String.eqb_sym m n).
Qed.

Lemma existsb_after_colon (n : string) (tpl : Template.t) :
  existsb (after_colon n) tpl = existsb (String.eqb n) (colon_names tpl).
Proof.
  induction tpl as [|[s|m|m] r IH]; cbn [existsb after_colon colon_names];
    auto.
  now rewrite IH, (String.eqb_sym m n).
Qed.

Lemma passes_braces (n : string) (tpl : Template.t) :
  plain n = true -> forallb segment_ok tpl = true ->
  distinct (placeholders tpl) = true ->
  passes ("{" ++ n ++ "}") (in_braces n) tpl.
Proof.
  intros Pn. induction tpl as [|[s|m|m] r IH];
    cbn [forallb placeholders distinct passes in_braces segment_text];
    intros W D; auto.
  - apply andb_true_iff in W as [Ws Wr]. cbn [segment_ok] in Ws.
    split; [|now apply IH].
    change ("{" ++ n ++ "}") with (String "{" (n ++ "}")).
    now apply find_first_skip.
  - apply andb_true_iff in W as [Wm Wr]. cbn [segment_ok] in Wm.
    apply andb_true_iff in D as [D1 D2]. apply negb_true_iff in D1.
    split; [|now apply IH].
    destruct (String.eqb_spec m n) as [->|N].
    + split; [reflexivity|]. now rewrite existsb_in_braces.
    + now apply find_first_other.
  - apply andb_true_iff in W as [Wm Wr]. cbn [segment_ok] in Wm.
    destruct (plain_lacks m Wm) as (L & _).
    split; [|now apply IH].
    change ("{" ++ n ++ "}") with (String "{" (n ++ "}")).
    apply find_first_skip. change (":" ++ m) with (String ":" m).
    cbn [lacks]. now rewrite L.
Qed.

(** *** Names after a colon *)

Lemma clash_prefix (n t rest : string) :
  clash n t = true -> prefix n (t ++ rest) = false.
Proof.
  revert t. induction n as [|a n IH]; intros [|b t]; cbn [clash append];
    try discriminate.
  intros H. cbn [prefix].
  destruct (ascii_dec a b) as [->|N].
  - rewrite Ascii.eqb_refl in H. now apply IH.
  - reflexivity.
Qed.

Lemma clash_app (n t x : string) :
  clash n t = true -> clash n (t ++ x) = true.
Proof.
  revert t. induction n as [|a n IH]; intros [|b t]; cbn [clash append];
    try discriminate.
  destruct (Ascii.eqb a b); auto.
Qed.

Lemma literal_safe_lacks (names : list string) (s : string) :
  lacks ":" s = true -> literal_safe names s = true.
Proof.
  induction s as [|c r IH]; cbn [lacks literal_safe]; [reflexivity|].
  intros H. apply andb_true_iff in H as [H1 H2]. apply negb_true_iff in H1.
  now rewrite H1, (IH H2).
Qed.

Lemma find_first_literal (names : list string) (n s rest : string) :
  In n names -> literal_safe names s = true ->
  find_first (String ":" n) (s ++ rest)
  = prepend s (find_first (String ":" n) rest).
Proof.
  intros I. induction s as [|c r IH]; cbn [literal_safe append]; intros S.
  - now rewrite prepend_empty.
  - apply andb_true_iff in S as [S1 S2].
    rewrite find_first_unfold.
    assert (P : prefix (String ":" n) (String c (r ++ rest)) = false).
    { destruct (Ascii.eqb c ":") eqn:C.
      - apply Ascii.eqb_eq in C. subst c. rewrite prefix_head_match.
        apply clash_prefix. rewrite forallb_forall in S1. now apply S1.
      - now apply prefix_head_mismatch. }
    rewrite P, (IH S2). apply prepend_app.
Qed.

Lemma render_following (r : Template.t) :
  exists more, render r = following r ++ more.
Proof.
  destruct r as [|[s|m|m] r]; cbn [following render];
    try (eexists; reflexivity).
Qed.

Lemma find_first_colon_other (n m : string) (r : Template.t) :
  plain m = true -> clash n (m ++ following r) = true ->
  find_first (String ":" n) ((":" ++ m) ++ render r)
  = prepend (":" ++ m) (find_first (String ":" n) (render r)).
Proof.
  intros Pm C. destruct (plain_lacks m Pm) as (_ & _ & L).
  change ((":" ++ m) ++ render r) with (String ":" (m ++ render r)).
  rewrite find_first_unfold, prefix_head_match.
  assert (P : prefix n (m ++ render r) = false).
  { destruct (render_following r) as [more ->].
    rewrite <- StringFacts.app_assoc. now apply clash_prefix. }
  rewrite P, (find_first_skip ":" n m (render r) L).
  apply prepend_app.
Qed.

Lemma passes_colons (names : list string) (n : string) (tpl : Template.t) :
  In n names -> forallb segment_ok tpl = true ->
  distinct (colon_names tpl) = true ->
  colons_safe names tpl = true ->
  passes (":" ++ n) (after_colon n) tpl.
Proof.
  intros I. induction tpl as [|[s|m|m] r IH];
    cbn [forallb colon_names distinct colons_safe passes after_colon
         segment_text];
    intros W D S; auto.
  - apply andb_true_iff in W as [_ Wr]. apply andb_true_iff in S as [S1 S2].
    split; [|now apply IH].
    now apply (find_first_literal names).
  - apply andb_true_iff in W as [Wm Wr]. cbn [segment_ok] in Wm.
    destruct (plain_lacks m Wm) as (_ & _ & L).
    split; [|now apply IH].
    change (":" ++ n) with (String ":" n).
    apply find_first_skip.
    change ("{" ++ m ++ "}") with (String "{" (m ++ "}")).
    cbn [lacks]. rewrite lacks_app, L. reflexivity.
  - apply andb_true_iff in W as [Wm Wr]. cbn [segment_ok] in Wm.
    apply andb_true_iff in D as [D1 D2]. apply negb_true_iff in D1.
    apply andb_true_iff in S as [S1 S2].
    split; [|now apply IH].
    destruct (String.eqb_spec m n) as [->|N].
    + split; [reflexivity|]. now rewrite existsb_after_colon.
    + change (":" ++ n) with (String ":" n).
      apply find_first_colon_other; [exact Wm|].
      rewrite forallb_forall in S1. specialize (S1 n I).
      apply orb_true_iff in S1 as [E|C]; [|exact C].
      apply String.eqb_eq in E. now elim N.
Qed.

(** *** Filling keeps a template routed *)

Lemma absent_fill_where (x : string) (target : segment -> bool) (v : string)
  (tpl : Template.t) :
  (existsb (String.eqb x) (placeholders tpl) = false ->
   existsb (String.eqb x) (placeholders (fill_where target v tpl)) = false)
  /\ (existsb (String.eqb x) (colon_names tpl) = false ->
      existsb (String.eqb x) (colon_names (fill_where target v tpl)) = false).
Proof.
  induction tpl as [|[s|m|m] r [IH1 IH2]];
    [split; intros _; reflexivity|..];
    cbn [fill_where map placeholders colon_names];
    fold (fill_where target v r).
  - now destruct (target (Literal s)).
  - destruct (target (Placeholder m));
      cbn [placeholders colon_names existsb]; (split; [|exact IH2]);
      intros H; apply orb_false_iff in H as [H1 H2];
      [now apply IH1 | now rewrite H1, IH1].
  - destruct (target (ColonPlaceholder m));
      cbn [placeholders colon_names existsb]; (split; [exact IH1|]);
      intros H; apply orb_false_iff in H as [H1 H2];
      [now apply IH2 | now rewrite H1, IH2].
Qed.

Lemma distinct_fill_where (target : segment -> bool) (v : string)
  (tpl : Template.t) :
  (distinct (placeholders tpl) = true ->
   distinct (placeholders (fill_where target v tpl)) = true)
  /\ (distinct (colon_names tpl) = true ->
      distinct (colon_names (fill_where target v tpl)) = true).
Proof.
  induction tpl as [|[s|m|m] r [IH1 IH2]];
    [split; intros _; reflexivity|..];
    cbn [fill_where map placeholders colon_names];
    fold (fill_where target v r).
  - now destruct (target (Literal s)).
  - destruct (target (Placeholder m));
      cbn [placeholders colon_names distinct]; (split; [|exact IH2]);
      intros H; apply andb_true_iff in H as [H1 H2]; [now apply IH1|].
    apply negb_true_iff in H1.
    now rewrite (proj1 (absent_fill_where m target v r) H1), IH1.
  - destruct (target (ColonPlaceholder m));
      cbn [placeholders colon_names distinct]; (split; [exact IH1|]);
      intros H; apply andb_true_iff in H as [H1 H2]; [now apply IH2|].
    apply negb_true_iff in H1.
    now rewrite (proj2 (absent_fill_where m target v r) H1), IH2.
Qed.

Lemma following_fill_where (target : segment -> bool) (v : string)
  (r : Template.t) :
  (forall s, target (Literal s) = false) ->
  following (fill_where target v r) = following r
  \/ following r = EmptyString.
Proof.
  intros T. destruct r as [|[s|m|m] r]; cbn [fill_where map following]; auto.
  rewrite T. now left.
Qed.

Lemma colons_safe_fill_where (names : list string)
  (target : segment -> bool) (v : string) (tpl : Template.t) :
  (forall s, target (Literal s) = false) -> lacks ":" v = true ->
  colons_safe names tpl = true ->
  colons_safe names (fill_where target v tpl) = true.
Proof.
  intros T L. induction tpl as [|[s|m|m] r IH]; [reflexivity|..];
    cbn [fill_where map colons_safe]; fold (fill_where target v r); intros S.
  - rewrite T. cbn [colons_safe]. apply andb_true_iff in S as [S1 S2].
    now rewrite S1, IH.
  - destruct (target (Placeholder m)); cbn [colons_safe]; rewrite IH by auto;
      [|reflexivity].
    now rewrite (literal_safe_lacks names v L).
  - apply andb_true_iff in S as [S1 S2].
    destruct (target (ColonPlaceholder m)); cbn [colons_safe];
      rewrite IH by auto.
    + now rewrite (literal_safe_lacks names v L).
    + rewrite andb_true_r. apply forallb_forall. intros n I.
      rewrite forallb_forall in S1. specialize (S1 n I).
      apply orb_true_iff in S1 as [E|C]; [now rewrite E|].
      apply orb_true_iff. right.
      destruct (following_fill_where target v r T) as [-> | F]; [exact C|].
      rewrite F, StringFacts.app_nil_r in C. now apply clash_app.
Qed.

Lemma segment_ok_fill_where (target : segment -> bool) (v : string)
  (tpl : Template.t) :
  lacks "{" v = true -> forallb segment_ok tpl = true ->
  forallb segment_ok (fill_where target v tpl) = true.
Proof.
  intros L. induction tpl as [|seg r IH]; [reflexivity|];
    cbn [fill_where map forallb]; fold (fill_where target v r); intros W.
  apply andb_true_iff in W as [W1 W2]. rewrite (IH W2), andb_true_r.
  destruct (target seg); [exact L | exact W1].
Qed.

Lemma routed_fill_where (tool : Endpoint.t) (target : segment -> bool)
  (v : string) (tpl : Template.t) :
  (forall s, target (Literal s) = false) -> plain v = true ->
  routed tool tpl = true -> routed tool (fill_where target v tpl) = true.
Proof.
  intros T Pv R. destruct (plain_lacks v Pv) as (L1 & _ & L3).
  unfold routed in *.
  apply andb_true_iff in R as [R R5]. apply andb_true_iff in R as [R R4].
  apply andb_true_iff in R as [R R3]. apply andb_true_iff in R as [R1 R2].
  rewrite (segment_ok_fill_where target v tpl L1 R1).
  rewrite (proj1 (distinct_fill_where target v tpl) R2).
  rewrite (proj2 (distinct_fill_where target v tpl) R3).
  rewrite R4.
  now rewrite (colons_safe_fill_where _ target v tpl T L3 R5).
Qed.

Lemma fill_where_twice (n v : string) (tpl : Template.t) :
  fill_where (after_colon n) v (fill_where (in_braces n) v tpl)
  = fill n v tpl.
Proof.
  unfold fill, fill_where. rewrite map_map. apply map_ext.
  intros [s|m|m]; unfold names; cbn [in_braces after_colon orb];
    try reflexivity;
    destruct (String.eqb m n) eqn:E; cbn [in_braces after_colon orb];
    rewrite ?E; reflexivity.
Qed.

Lemma routed_parts (tool : Endpoint.t) (tpl : Template.t) :
  routed tool tpl = true ->
  forallb segment_ok tpl = true
  /\ distinct (placeholders tpl) = true
  /\ distinct (colon_names tpl) = true
  /\ plain_names tool = true
  /\ colons_safe (path_names tool) tpl = true.
Proof.
  unfold routed. intros R.
  apply andb_true_iff in R as [R R5]. apply andb_true_iff in R as [R R4].
  apply andb_true_iff in R as [R R3]. apply andb_true_iff in R as [R1 R2].
  auto.
Qed.

Lemma path_parameter_plain (tool : Endpoint.t) (n : string) (d : Param.t) :
  plain_names tool = true -> find_paramDef tool n = Some d ->
  Param.type d = Path -> plain n = true.
Proof.
  unfold plain_names, find_paramDef. intros P F T.
  apply find_some in F as [I E]. apply String.eqb_eq in E. subst n.
  rewrite forallb_forall in P. specialize (P d I). now rewrite T in P.
Qed.

Lemma path_parameter_named (tool : Endpoint.t) (n : string) (d : Param.t) :
  find_paramDef tool n = Some d -> Param.type d = Path ->
  In n (path_names tool).
Proof.
  unfold find_paramDef, path_names. intros F T.
  apply find_some in F as [I E]. apply String.eqb_eq in E. subst n.
  apply in_map. apply filter_In. split; [exact I | now rewrite T].
Qed.

(** Binding a [Path] argument fills its placeholders, of both forms. *)
Lemma substitute_render (tool : Endpoint.t) (n : string) (value : jsval)
  (tpl : Template.t) :
  routed tool tpl = true -> plain n = true -> In n (path_names tool) ->
  substitute (render tpl) n value
  = render (fill n (encodeURIComponent (Value.ToString value)) tpl)
  /\ routed tool (fill n (encodeURIComponent (Value.ToString value)) tpl)
     = true.
Proof.
  intros R Pn I. unfold substitute.
  set (v := encodeURIComponent (Value.ToString value)).
  assert (Pv : plain v = true) by apply plain_encode.
  assert (Lv : lacks "$" v = true) by apply lacks_dollar_encode.
  destruct (routed_parts tool tpl R) as (R1 & R2 & R3 & R4 & R5).
  assert (Nb : "{" ++ n ++ "}" <> EmptyString) by discriminate.
  assert (Nc : ":" ++ n <> EmptyString) by discriminate.
  rewrite (replace_passes _ (in_braces n) v tpl Nb Lv
             (passes_braces n tpl Pn R1 R2)).
  assert (R' : routed tool (fill_where (in_braces n) v tpl) = true).
  { apply routed_fill_where; auto. }
  destruct (routed_parts tool _ R') as (Q1 & Q2 & Q3 & Q4 & Q5).
  rewrite (replace_passes _ (after_colon n) v _ Nc Lv
             (passes_colons (path_names tool) n _ I Q1 Q3 Q5)).
  rewrite fill_where_twice. split; [reflexivity|].
  rewrite <- fill_where_twice. apply routed_fill_where; auto.
Qed.

Lemma bind_param_path (tool : Endpoint.t) (st : Bound) (tpl : Template.t)
  (entry : string * jsval) :
  routed tool tpl = true -> path st = render tpl ->
  path (bind_param tool st entry) = render (fill_argument tool tpl entry)
  /\ routed tool (fill_argument tool tpl entry) = true.
Proof.
  intros R E. destruct entry as [n v].
  unfold bind_param, fill_argument. cbn [fst snd].
  destruct (find_paramDef tool n) as [d|] eqn:F.
  - destruct (Param.type d) eqn:T; cbn [path]; auto.
    rewrite E. apply substitute_render; auto.
    + destruct (routed_parts tool tpl R) as (_ & _ & _ & P & _).
      now apply (path_parameter_plain tool n d).
    + now apply (path_parameter_named tool n d).
  - destruct (String.eqb n "body"); cbn [path]; auto.
Qed.

Lemma fold_routed (tool : Endpoint.t) (params : list (string * jsval))
  (st : Bound) (tpl : Template.t) :
  routed tool tpl = true -> path st = render tpl ->
  path (fold_left (bind_param tool) params st)
  = render (fold_left (fill_argument tool) params tpl)
  /\ routed tool (fold_left (fill_argument tool) params tpl) = true.
Proof.
  revert st tpl.
  induction params as [|e rest IH]; intros st tpl R E; cbn [fold_left].
  - auto.
  - destruct (bind_param_path tool st tpl e R E) as [E' R'].
    now apply IH.
Qed.

(** A template without colon is routed, whatever the names. *)
Lemma well_formed_routed (tool : Endpoint.t) (tpl : Template.t) :
  well_formed tpl = true -> plain_names tool = true ->
  routed tool tpl = true.
Proof.
  unfold well_formed, routed. intros W P.
  apply andb_true_iff in W as [W1 W2]. rewrite W2, P.
  assert (G : forallb segment_ok tpl = true
              /\ colon_names tpl = []
              /\ colons_safe (path_names tool) tpl = true).
  { clear W2. induction tpl as [|[s|m|m] r IH];
      cbn [forallb plain_segment] in W1; [auto| | |discriminate].
    - apply andb_true_iff in W1 as [Ws Wr].
      destruct (plain_lacks s Ws) as (L1 & _ & L3).
      destruct (IH Wr) as (A & B & C).
      cbn [forallb segment_ok colon_names colons_safe].
      now rewrite L1, A, B, C, (literal_safe_lacks _ s L3).
    - apply andb_true_iff in W1 as [Wm Wr].
      destruct (IH Wr) as (A & B & C).
      cbn [forallb segment_ok colon_names colons_safe].
      now rewrite Wm, A, B, C. }
  destruct G as (A & B & C). now rewrite A, B, C.
Qed.

Lemma fold_path (tool : Endpoint.t) (params : list (string * jsval))
  (st : Bound) (tpl : Template.t) :
  plain_names tool = true -> path st = render tpl ->
  well_formed tpl = true ->
  path (fold_left (bind_param tool) params st)
  = render (fold_left (fill_argument tool) params tpl)
  /\ routed tool (fold_left (fill_argument tool) params tpl) = true.
Proof.
  intros P E W. apply fold_routed; [|exact E].
  now apply well_formed_routed.
Qed.

(** *** No placeholder of a supplied argument is left *)

Lemma absent_after_fill (n v : string) (tpl : Template.t) :
  existsb (String.eqb n) (placeholders (fill n v tpl)) = false
  /\ existsb (String.eqb n) (colon_names (fill n v tpl)) = false.
Proof.
  unfold fill, fill_where.
  induction tpl as [|[s|m|m] r [IH1 IH2]]; [now split|..];
    cbn [map]; unfold names at 1 3; cbn [in_braces after_colon orb];
    [exact (conj IH1 IH2)| |].
  - rewrite orb_false_r.
    destruct (String.eqb_spec m n) as [->|N];
      cbn [placeholders colon_names existsb]; (split; [|exact IH2]);
      [exact IH1|].
    rewrite IH1, orb_false_r. apply String.eqb_neq. congruence.
  - destruct (String.eqb_spec m n) as [->|N];
      cbn [placeholders colon_names existsb]; (split; [exact IH1|]);
      [exact IH2|].
    rewrite IH2, orb_false_r. apply String.eqb_neq. congruence.
Qed.

Lemma absent_stays (tool : Endpoint.t) (n : string)
  (params : list (string * jsval)) (tpl : Template.t) :
  existsb (String.eqb n) (placeholders tpl) = false
  /\ existsb (String.eqb n) (colon_names tpl) = false ->
  existsb (String.eqb n)
    (placeholders (fold_left (fill_argument tool) params tpl)) = false
  /\ existsb (String.eqb n)
       (colon_names (fold_left (fill_argument tool) params tpl)) = false.
Proof.
  revert tpl. induction params as [|e rest IH]; intros tpl A; cbn [fold_left];
    [exact A|].
  apply IH. unfold fill_argument.
  destruct (find_paramDef tool (fst e)) as [d|]; [|exact A].
  destruct (Param.type d); try exact A.
  destruct A as [A1 A2]. unfold fill. split.
  - now apply (proj1 (absent_fill_where n _ _ tpl)).
  - now apply (proj2 (absent_fill_where n _ _ tpl)).
Qed.

Lemma supplied_resolved (tool : Endpoint.t) (n : string)
  (params : list (string * jsval)) (tpl : Template.t) :
  supplied_path tool params n ->
  existsb (String.eqb n) (placeholders (resolve tool params tpl)) = false
  /\ existsb (String.eqb n) (colon_names (resolve tool params tpl)) = false.
Proof.
  intros (v & d & I & F & T). unfold resolve. revert tpl.
  induction params as [|e rest IH]; intros tpl; [contradiction|].
  cbn [fold_left]. destruct I as [->|I].
  - apply absent_stays. unfold fill_argument. cbn [fst snd].
    rewrite F, T. apply absent_after_fill.
  - now apply IH.
Qed.

(** A routed text holds neither form of a placeholder of a [Path]
    parameter that is not among its placeholders. *)
Lemma no_placeholder_left (tool : Endpoint.t) (n : string)
  (tpl : Template.t) :
  routed tool tpl = true -> plain n = true -> In n (path_names tool) ->
  existsb (String.eqb n) (placeholders tpl) = false ->
  existsb (String.eqb n) (colon_names tpl) = false ->
  includes (render tpl) ("{" ++ n ++ "}") = false
  /\ includes (render tpl) (":" ++ n) = false.
Proof.
  intros R Pn I A1 A2.
  destruct (routed_parts tool tpl R) as (R1 & R2 & R3 & R4 & R5).
  split; rewrite includes_find_first.
  - rewrite (find_passes _ (in_braces n) tpl); auto.
    + discriminate.
    + now apply passes_braces.
    + now rewrite existsb_in_braces.
  - rewrite (find_passes _ (after_colon n) tpl); auto.
    + discriminate.
    + now apply (passes_colons (path_names tool)).
    + now rewrite existsb_after_colon.
Qed.

Lemma plain_join (sep : string) (xs : list string) :
  plain sep = true -> forallb plain xs = true -> plain (join sep xs) = true.
Proof.
  intros Ps. induction xs as [|x r IH]; cbn [forallb]; intros H;
    [reflexivity|].
  apply andb_true_iff in H as [Hx Hr].
  destruct r as [|y r]; [exact Hx|].
  change (join sep (x :: y :: r)) with (x ++ sep ++ join sep (y :: r)).
  now rewrite !plain_app, Hx, Ps, IH.
Qed.

Lemma plain_queryString (q : @Obj.obj string) : plain (queryString q) = true.
Proof.
  unfold queryString. apply plain_join; [reflexivity|].
  apply forallb_forall. intros x I. apply in_map_iff in I as ([k v] & <- & _).
  now rewrite !plain_app, !plain_encode.
Qed.

Lemma names_app_literal (tpl : Template.t) (tail : string) :
  placeholders (tpl ++ [Literal tail])%list = placeholders tpl
  /\ colon_names (tpl ++ [Literal tail])%list = colon_names tpl.
Proof.
  induction tpl as [|[s|m|m] r [IH1 IH2]];
    cbn [List.app placeholders colon_names]; auto.
  - now rewrite IH1.
  - now rewrite IH2.
Qed.

Lemma colons_safe_app_literal (names : list string) (tpl : Template.t)
  (tail : string) :
  lacks ":" tail = true -> colons_safe names tpl = true ->
  colons_safe names (tpl ++ [Literal tail])%list = true.
Proof.
  intros L. induction tpl as [|[s|m|m] r IH]; cbn [List.app colons_safe];
    intros S.
  - now rewrite (literal_safe_lacks names tail L).
  - apply andb_true_iff in S as [S1 S2]. now rewrite S1, IH.
  - now apply IH.
  - apply andb_true_iff in S as [S1 S2]. rewrite (IH S2), andb_true_r.
    apply forallb_forall. intros n I.
    rewrite forallb_forall in S1. specialize (S1 n I).
    apply orb_true_iff in S1 as [E|C]; [now rewrite E|].
    apply orb_true_iff. right.
    destruct r as [|[s'|m'|m'] r']; cbn [List.app following] in *;
      try exact C.
    rewrite StringFacts.app_nil_r in C. now apply clash_app.
Qed.

Lemma routed_app_literal (tool : Endpoint.t) (tpl : Template.t)
  (tail : string) :
  plain tail = true -> routed tool tpl = true ->
  routed tool (tpl ++ [Literal tail])%list = true.
Proof.
  intros Pt R. destruct (plain_lacks tail Pt) as (L1 & _ & L3).
  destruct (routed_parts tool tpl R) as (R1 & R2 & R3 & R4 & R5).
  destruct (names_app_literal tpl tail) as [N1 N2].
  unfold routed. rewrite N1, N2, R2, R3, R4, forallb_app, R1.
  cbn [forallb segment_ok]. rewrite L1.
  now rewrite (colons_safe_app_literal _ tpl tail L3 R5).
Qed.

(** The path given to the transport is a routed text with the
    placeholders of the bound path. *)
Lemma with_query_render (tool : Endpoint.t) (p : string)
  (q : @Obj.obj string) (tpl : Template.t) :
  p = render tpl -> routed tool tpl = true ->
  exists tail,
    with_query p q = render (tpl ++ [Literal tail])%list
    /\ routed tool (tpl ++ [Literal tail])%list = true
    /\ placeholders (tpl ++ [Literal tail])%list = placeholders tpl
    /\ colon_names (tpl ++ [Literal tail])%list = colon_names tpl.
Proof.
  intros -> R.
  assert (G : forall tail, plain tail = true ->
    with_query (render tpl) q = render tpl ++ tail ->
    with_query (render tpl) q = render (tpl ++ [Literal tail])%list
    /\ routed tool (tpl ++ [Literal tail])%list = true
    /\ placeholders (tpl ++ [Literal tail])%list = placeholders tpl
    /\ colon_names (tpl ++ [Literal tail])%list = colon_names tpl).
  { intros tail Pt E. destruct (names_app_literal tpl tail) as [N1 N2].
    split; [|split; [now apply routed_app_literal | now split]].
    rewrite render_app. cbn [render]. now rewrite StringFacts.app_nil_r. }
  unfold with_query in *.
  destruct (0 <? List.length (Obj.entries q)).
  - exists ((if includes (render tpl) "?" then "&" else "?") ++ queryString q).
    apply G; [|reflexivity].
    rewrite plain_app, plain_queryString.
    now destruct (includes (render tpl) "?").
  - exists EmptyString. apply G; [reflexivity|].
    now rewrite StringFacts.app_nil_r.
Qed.

(** The claim C6 as it is stated fails: only the first occurrence of a
    placeholder is replaced, so a second one stays; a name in colon form is
    found inside a longer name that comes first; and it is found after a
    literal colon once the value of the placeholder that follows the colon
    begins with it, which mangles the path. *)
Lemma placeholder_left_unresolved :
  (fst (request Sample.copyItem [("id", JStr "42")])
   = "/items/42/copies/{id}"
   /\ includes (fst (request Sample.copyItem [("id", JStr "42")])) "{id}"
      = true)
  /\ (fst (request Sample.linkItem [("id", JStr "1"); ("idx", JStr "2")])
      = "/a/1x/b/:id"
      /\ includes
           (fst (request Sample.linkItem [("id", JStr "1"); ("idx", JStr "2")]))
           ":id" = true)
  /\ fst (request Sample.rootItem [("id", JStr "id7")]) = "/rootid77".
Proof. repeat split. Qed.

(** C6, amended.  Binding a value to a [Path] parameter replaces, in the
    path built so far, the first occurrence of the name in braces and then
    the first occurrence of the name after a colon by the URL-escaped value.
    This resolves the placeholders of the argument when the template is
    routed for the operation: it is made of literal text without opening
    brace and of placeholders, in braces or after a colon, whose names hold
    neither brace nor colon and occur once in each form, as do the names of
    the [Path] parameters; and what follows each colon (a placeholder's
    name with the literal text after it, or the rest of the literal text
    the colon stands in) differs, at a place both have, from the name of
    every [Path] parameter but the placeholder's own.  Then the bound path
    is the template with the placeholders of each supplied [Path] argument
    replaced by its escaped value, and neither it nor the path sent holds a
    placeholder, in either form, of a supplied [Path] argument.  A template
    without colon, with plain names that occur once, is routed.  [getItem]
    on [/items/{id}] with [{id: "42"}] requests [/items/42] without
    body. *)
Theorem path_arguments_substituted
  (tool : Endpoint.t) (params : list (string * jsval)) :
  (forall st n value paramDef,
     find_paramDef tool n = Some paramDef -> Param.type paramDef = Path ->
     let escaped := encodeURIComponent (Value.ToString value) in
     path (bind_param tool st (n, value))
     = replace (replace (path st) ("{" ++ n ++ "}") escaped)
               (":" ++ n) escaped)
  /\ (forall tpl,
        Endpoint.path tool = render tpl ->
        routed tool tpl = true ->
        path (bind_params tool params) = render (resolve tool params tpl)
        /\ forall n,
             supplied_path tool params n ->
             includes (path (bind_params tool params)) ("{" ++ n ++ "}")
             = false
             /\ includes (path (bind_params tool params)) (":" ++ n) = false
             /\ includes (fst (request tool params)) ("{" ++ n ++ "}") = false
             /\ includes (fst (request tool params)) (":" ++ n) = false)
  /\ (forall tpl,
        well_formed tpl = true -> plain_names tool = true ->
        routed tool tpl = true)
  /\ request Sample.getItem [("id", JStr "42")]
     = ("/items/42", Options.make "GET" [] None None false).
Proof.
  split; [|split; [|split]].
  - intros st n v d F T. unfold bind_param. rewrite F, T. reflexivity.
  - intros tpl E R.
    destruct (fold_routed tool params (initial tool) tpl R E) as [B RB].
    fold (bind_params tool params) in B. fold (resolve tool params tpl) in *.
    split; [exact B|].
    intros n S.
    destruct (supplied_resolved tool n params tpl S) as [A1 A2].
    destruct (routed_parts tool tpl R) as (_ & _ & _ & P & _).
    assert (Pn : plain n = true).
    { destruct S as (v & d & _ & F & T).
      now apply (path_parameter_plain tool n d). }
    assert (I : In n (path_names tool)).
    { destruct S as (v & d & _ & F & T).
      now apply (path_parameter_named tool n d). }
    destruct (no_placeholder_left tool n _ RB Pn I A1 A2) as [N1 N2].
    rewrite B. split; [exact N1 | split; [exact N2|]].
    destruct (with_query_render tool (path (bind_params tool params))
                (queryParams (bind_params tool params)) _ B RB)
      as (tail & Q & RQ & PQ & CQ).
    unfold request. cbn [fst]. rewrite Q.
    apply (no_placeholder_left tool); auto.
    + now rewrite PQ.
    + now rewrite CQ.
  - intros tpl. apply well_formed_routed.
  - reflexivity.
Qed.

(** Two placeholders after a colon, bound in the order opposite to the
    template's. *)
Lemma path_arguments_substituted_witness :
  path (bind_params Sample.getMessage
          [("message-id", JStr "m/1"); ("user-id", JStr "u 1")])
  = "/users/u%201/messages/m%2F1"
  /\ includes
       (fst (request Sample.getMessage
               [("message-id", JStr "m/1"); ("user-id", JStr "u 1")]))
       ":user-id" = false.
Proof.
  destruct (proj1 (proj2
              (path_arguments_substituted Sample.getMessage
                 [("message-id", JStr "m/1"); ("user-id", JStr "u 1")]))
              Sample.getMessage_template eq_refl eq_refl) as [B N].
  split; [exact B|].
  apply (N "user-id").
  exists (JStr "u 1"), (Param.make "user-id" Path None).
  repeat split. right. now left.
Defined.

(** The template of the range of a workbook, with its literal colons, is
    routed. *)
Lemma excel_range_routed :
  Endpoint.path Sample.excelRange = render Sample.excelRange_template
  /\ routed Sample.excelRange Sample.excelRange_template = true
  /\ path (bind_params Sample.excelRange [("address", JStr "A1:C5")])
     = "/me/drive/root:/book.xlsx:/workbook/worksheets/Sheet1/range(address='A1%3AC5')".
Proof. repeat split. Qed.

End TemplateFacts.

(** ** Reading a property after another one was written *)

Module ObjOtherFacts.

Import Obj.

Section GetOther.
Context {A : Type}.
Implicit Types (o : @obj A) (k : string) (v : A).

Lemma get_update_other k k' v o :
  k <> k' -> get k (update k' v o) = get k o.
Proof.
  intros N. induction o as [|[k0 v0] r IH]; cbn [get update]; [reflexivity|].
  destruct (String.eqb_spec k' k0) as [->|N0]; cbn [get].
  - apply String.eqb_neq in N. now rewrite N.
  - now rewrite IH.
Qed.

Lemma get_insert_index_other i k k' v o :
  k <> k' -> get k (insert_index i k' v o) = get k o.
Proof.
  intros N. apply String.eqb_neq in N.
  induction o as [|[k0 v0] r IH]; cbn [get insert_index].
  - now rewrite N.
  - destruct (array_index k0) as [j|]; [destruct (j <? i)%N|]; cbn [get];
      rewrite ?N, ?IH; reflexivity.
Qed.

Lemma get_append_other k k' v o :
  k <> k' -> get k (o ++ [(k', v)])%list = get k o.
Proof.
  intros N. apply String.eqb_neq in N.
  induction o as [|[k0 v0] r IH]; cbn [get List.app].
  - now rewrite N.
  - now rewrite IH.
Qed.

Lemma get_define_other k k' v o :
  k <> k' -> get k (define k' v o) = get k o.
Proof.
  intros N. unfold define. destruct (has k' o).
  - now apply get_update_other.
  - destruct (array_index k').
    + now apply get_insert_index_other.
    + now apply get_append_other.
Qed.

Lemma get_set_other k k' v o :
  k <> k' -> get k (set k' v o) = get k o.
Proof.
  intros N. unfold set. destruct (String.eqb k' "__proto__"); [reflexivity|].
  now apply get_define_other.
Qed.

(** What is read after an assignment is the value assigned or what was
    there. *)
Lemma get_set_cases k k' v v' o :
  get k (set k' v' o) = Some v -> (k = k' /\ v = v') \/ get k o = Some v.
Proof.
  destruct (String.eqb_spec k k') as [->|N].
  - unfold set. destruct (String.eqb_spec k' "__proto__") as [E|E].
    + now right.
    + rewrite ObjFacts.get_define_same. intros [= ->]. now left.
  - rewrite get_set_other by exact N. now right.
Qed.

End GetOther.

End ObjOtherFacts.

(** ** Where the headers and the query pairs come from *)

Module StoreFacts.

Import Handler HandlerNotions.

Lemma bind_param_store (tool : Endpoint.t) (location : ParamType)
  (st : Bound) (n : string) (value : jsval) :
  store_of location (bind_param tool st (n, value))
  = if stores tool location (fixedParamName n) (n, value)
    then Obj.set (fixedParamName n) (Value.ToString value)
           (store_of location st)
    else store_of location st.
Proof.
  unfold stores, bind_param. cbn [fst].
  destruct (find_paramDef tool n) as [d|].
  - destruct (Param.type d), location; cbn [store_of queryParams headers];
      rewrite ?String.eqb_refl; reflexivity.
  - destruct (String.eqb n "body"), location; reflexivity.
Qed.

Lemma stores_inv (tool : Endpoint.t) (location : ParamType) (key : string)
  (entry : string * jsval) :
  stores tool location key entry = true ->
  exists paramDef,
    find_paramDef tool (fst entry) = Some paramDef
    /\ Param.type paramDef = location
    /\ fixedParamName (fst entry) = key.
Proof.
  unfold stores. destruct (find_paramDef tool (fst entry)) as [d|];
    [|discriminate].
  intros H. exists d.
  destruct (Param.type d), location; try discriminate;
    apply String.eqb_eq in H; auto.
Qed.

Lemma fold_store_source (tool : Endpoint.t) (location : ParamType)
  (key v : string) (params : list (string * jsval)) (st : Bound) :
  Obj.get key (store_of location (fold_left (bind_param tool) params st))
  = Some v ->
  Obj.get key (store_of location st) = Some v
  \/ exists n value,
       In (n, value) params
       /\ stores tool location key (n, value) = true
       /\ Value.ToString value = v.
Proof.
  revert st. induction params as [|[n value] rest IH]; intros st H;
    cbn [fold_left] in H.
  - now left.
  - apply IH in H as [H|(n' & value' & I & S & T)].
    + rewrite bind_param_store in H.
      destruct (stores tool location (fixedParamName n) (n, value)) eqn:S.
      * apply ObjOtherFacts.get_set_cases in H as [[-> ->]|H].
        -- right. exists n, value. split; [now left | now split].
        -- now left.
      * now left.
    + right. exists n', value'. split; [now right | now split].
Qed.

Lemma fold_store_kept (tool : Endpoint.t) (location : ParamType)
  (key : string) (params : list (string * jsval)) (st : Bound) :
  forallb (leaves tool location key) params = true ->
  Obj.get key (store_of location (fold_left (bind_param tool) params st))
  = Obj.get key (store_of location st).
Proof.
  revert st. induction params as [|[n value] rest IH]; intros st H;
    cbn [fold_left]; [reflexivity|].
  cbn [forallb] in H. apply andb_true_iff in H as [H1 H2].
  rewrite IH by exact H2. rewrite bind_param_store.
  destruct (stores tool location (fixedParamName n) (n, value)) eqn:S;
    [|reflexivity].
  apply ObjOtherFacts.get_set_other. intros ->.
  unfold leaves in H1. now rewrite S in H1.
Qed.

(** X1.  Every header of the request, and every query pair, comes from a
    supplied argument bound to a [Header] (respectively [Query]) parameter:
    its key is the fixed name of that argument and its value the text of the
    argument's value.  Arguments of other locations and unknown arguments
    add none. *)
Theorem stored_pairs_come_from_arguments
  (tool : Endpoint.t) (params : list (string * jsval))
  (location : ParamType) (key v : string) :
  Obj.get key (store_of location (bind_params tool params)) = Some v ->
  exists n value paramDef,
    In (n, value) params
    /\ find_paramDef tool n = Some paramDef
    /\ Param.type paramDef = location
    /\ fixedParamName n = key
    /\ Value.ToString value = v.
Proof.
  intros H. unfold bind_params in H.
  apply fold_store_source in H as [H|(n & value & I & S & T)].
  - destruct location; discriminate.
  - apply stores_inv in S as (d & F & Ty & K). cbn [fst] in *.
    now exists n, value, d.
Qed.

Lemma stored_pairs_come_from_arguments_witness :
  exists n value paramDef,
    In (n, value) [("If-Match", JStr "x"); ("zzz", JNum 1)]
    /\ find_paramDef Sample.createItem n = Some paramDef
    /\ Param.type paramDef = Header
    /\ fixedParamName n = "If-Match"
    /\ Value.ToString value = "x".
Proof.
  apply (stored_pairs_come_from_arguments Sample.createItem
           [("If-Match", JStr "x"); ("zzz", JNum 1)] Header "If-Match" "x").
  reflexivity.
Defined.

(** X2.  A [Query] or [Header] argument is read back from the object it is
    stored in, under its fixed name, unless that name is [__proto__] or a
    later argument is stored under the same name: the last argument stored
    under a key decides its value. *)
Theorem last_stored_argument_read_back
  (tool : Endpoint.t) (before after : list (string * jsval))
  (location : ParamType) (n : string) (value : jsval) (paramDef : Param.t) :
  find_paramDef tool n = Some paramDef ->
  Param.type paramDef = location ->
  is_store location ->
  fixedParamName n <> "__proto__" ->
  forallb (leaves tool location (fixedParamName n)) after = true ->
  Obj.get (fixedParamName n)
    (store_of location
       (bind_params tool (before ++ (n, value) :: after)%list))
  = Some (Value.ToString value).
Proof.
  intros F T L N K. rewrite BinderFacts.bind_params_app. cbn [fold_left].
  rewrite fold_store_kept by exact K. rewrite bind_param_store.
  assert (S : stores tool location (fixedParamName n) (n, value) = true).
  { unfold stores. cbn [fst]. rewrite F, T.
    destruct L as [-> | ->]; apply String.eqb_refl. }
  rewrite S. now apply ObjFacts.get_set_same.
Qed.

Lemma last_stored_argument_read_back_witness :
  Obj.get "$filter"
    (queryParams
       (bind_params Sample.listItems
          [("filter", JStr "old"); ("FILTER", JStr "a eq 1")]))
  = Some "old".
Proof.
  apply (last_stored_argument_read_back Sample.listItems []
           [("FILTER", JStr "a eq 1")] Query "filter" (JStr "old")
           (Param.make "filter" Query None) eq_refl eq_refl
           (or_introl eq_refl)).
  - discriminate.
  - reflexivity.
Defined.

End StoreFacts.

(** ** Transport hints *)

Module HintFacts.

Import JS Handler HandlerNotions.

Lemma drop_suffix (n : nat) (s : string) : exists a, s = a ++ drop n s.
Proof.
  revert s. induction n as [|n IH]; intros s.
  - now exists EmptyString.
  - destruct s as [|c r]; [now exists EmptyString|].
    destruct (IH r) as [a E]. exists (String c a). cbn. now rewrite <- E.
Qed.

Lemma endsWith_elim (s p : string) :
  endsWith s p = true -> exists a, s = a ++ p.
Proof.
  unfold endsWith. destruct (String.length s <? String.length p);
    [discriminate|].
  intros H. apply String.eqb_eq in H.
  destruct (drop_suffix (String.length s - String.length p) s) as [a E].
  exists a. now rewrite <- H.
Qed.

Lemma app_eq_app (a t a' p : string) :
  a ++ t = a' ++ p -> (exists x, t = x ++ p) \/ (exists x, p = x ++ t).
Proof.
  revert a'. induction a as [|c a IH]; intros a' H.
  - left. now exists a'.
  - destruct a' as [|c' a'].
    + right. exists (String c a). symmetry. exact H.
    + cbn in H. injection H as _ H. now apply (IH a').
Qed.

Lemma hex_digits_unreserved (x : ascii) :
  uri_unreserved (hex_digit (char_code x / 16)) = true
  /\ uri_unreserved (hex_digit (char_code x mod 16)) = true.
Proof. destruct x as [[] [] [] [] [] [] [] []]; split; reflexivity. Qed.

Lemma unreserved_differs (x c : ascii) :
  uri_unreserved x = true -> uri_unreserved c = false -> Ascii.eqb x c = false.
Proof.
  intros Hx Hc. destruct (Ascii.eqb_spec x c) as [->|_]; [|reflexivity].
  now rewrite Hx in Hc.
Qed.

(** An escaped text holds, besides [%], only characters that
    [encodeURIComponent] leaves alone. *)
Lemma encodeURIComponent_only_unreserved (c : ascii) (s : string) :
  uri_unreserved c = false -> c <> "%"%char ->
  lacks c (encodeURIComponent s) = true.
Proof.
  intros Hc Np. induction s as [|x s IH]; [reflexivity|].
  cbn [encodeURIComponent]. rewrite EscapeFacts.lacks_app, IH, andb_true_r.
  destruct (uri_unreserved x) eqn:Hx.
  - cbn [lacks]. now rewrite (unreserved_differs x c Hx Hc).
  - destruct (hex_digits_unreserved x) as [H1 H2].
    unfold percent_encode. cbn [lacks].
    rewrite (unreserved_differs _ c H1 Hc), (unreserved_differs _ c H2 Hc).
    destruct (Ascii.eqb_spec "%" c) as [E|_]; [now elim Np | reflexivity].
Qed.

Lemma lacks_join (c : ascii) (sep : string) (xs : list string) :
  lacks c sep = true -> forallb (lacks c) xs = true ->
  lacks c (join sep xs) = true.
Proof.
  intros Ls. induction xs as [|x r IH]; cbn [forallb]; intros H;
    [reflexivity|].
  apply andb_true_iff in H as [Hx Hr].
  destruct r as [|y r]; [exact Hx|].
  change (join sep (x :: y :: r)) with (x ++ sep ++ join sep (y :: r)).
  now rewrite !EscapeFacts.lacks_app, Hx, Ls, IH.
Qed.

Lemma queryString_lacks (c : ascii) (q : @Obj.obj string) :
  uri_unreserved c = false -> c <> "%"%char ->
  Ascii.eqb "&" c = false -> Ascii.eqb "=" c = false ->
  lacks c (queryString q) = true.
Proof.
  intros Hc Np Na Ne. unfold queryString. apply lacks_join.
  - cbn [lacks]. now rewrite Na.
  - apply forallb_forall. intros x I.
    apply in_map_iff in I as ([k v] & <- & _).
    rewrite !EscapeFacts.lacks_app.
    rewrite !encodeURIComponent_only_unreserved by assumption.
    cbn [lacks]. now rewrite Ne.
Qed.

Lemma lacks_head (c : ascii) (x r : string) :
  lacks c (x ++ String c r) = false.
Proof.
  rewrite EscapeFacts.lacks_app. cbn [lacks]. rewrite Ascii.eqb_refl.
  apply andb_false_r.
Qed.

Lemma with_query_not_content (p : string) (q : @Obj.obj string) :
  q <> [] -> endsWith (with_query p q) "/content" = false.
Proof.
  intros N. destruct (endsWith (with_query p q) "/content") eqn:E;
    [|reflexivity].
  exfalso. apply endsWith_elim in E as [a E].
  unfold with_query in E. destruct q as [|e q]; [contradiction|].
  cbn [Obj.entries List.length Nat.ltb Nat.leb] in E.
  assert (L : lacks "/" (queryString (e :: q)) = true)
    by (apply queryString_lacks; [reflexivity | discriminate | reflexivity
                                  | reflexivity]).
  apply app_eq_app in E as [[x E]|[x E]].
  - assert (F : lacks "/" ((if includes p "?" then "&" else "?")
                           ++ queryString (e :: q)) = false).
    { rewrite E. apply (lacks_head "/" x "content"). }
    rewrite EscapeFacts.lacks_app, L in F. now destruct (includes p "?").
  - destruct (includes p "?").
    + assert (F : lacks "&" "/content" = false)
        by (rewrite E; apply (lacks_head "&" x)).
      discriminate.
    + assert (F : lacks "?" "/content" = false)
        by (rewrite E; apply (lacks_head "?" x)).
      discriminate.
Qed.

(** X3.  As soon as one query pair is sent, the path handed to the
    transport does not end in [/content], whatever the template and the
    values: the raw-response hint is then set exactly when the descriptor
    declares an error response described as retrieved media content. *)
Theorem query_hides_content_suffix
  (tool : Endpoint.t) (params : list (string * jsval)) :
  queryParams (bind_params tool params) <> [] ->
  endsWith (fst (request tool params)) "/content" = false
  /\ Options.rawResponse (snd (request tool params)) = has_media_error tool.
Proof.
  intros N. unfold request. cbn [fst snd Options.rawResponse].
  assert (E := with_query_not_content (path (bind_params tool params)) _ N).
  split; [exact E|].
  unfold isProbablyMediaContent. rewrite E. apply orb_false_r.
Qed.

Lemma query_hides_content_suffix_witness :
  Options.rawResponse
    (snd (request
            (Endpoint.make "get" "/me/photo/content" "get-photo" None
               (Some [Param.make "select" Query None]) None)
            [("select", JStr "id")]))
  = false.
Proof.
  apply (proj2 (query_hides_content_suffix
                  (Endpoint.make "get" "/me/photo/content" "get-photo" None
                     (Some [Param.make "select" Query None]) None)
                  [("select", JStr "id")] ltac:(discriminate))).
Defined.

(** Without query pair the hint follows the bound path as well. *)
Lemma raw_response_without_query
  (tool : Endpoint.t) (params : list (string * jsval)) :
  queryParams (bind_params tool params) = [] ->
  Options.rawResponse (snd (request tool params))
  = has_media_error tool
    || endsWith (path (bind_params tool params)) "/content".
Proof.
  intros E. unfold request. cbn [snd Options.rawResponse].
  unfold with_query. now rewrite E.
Qed.

End HintFacts.

(** ** The workbook file of an Excel operation *)

Module ExcelFacts.

Import JS Handler HandlerNotions.

Lemma span_not_colon_spec (s g t : string) :
  span_not_colon s = (g, t) ->
  s = g ++ t /\ lacks ":" g = true
  /\ (t = EmptyString \/ exists r, t = String ":" r).
Proof.
  revert g t. induction s as [|c r IH]; cbn [span_not_colon]; intros g t H.
  - injection H as <- <-. auto.
  - destruct (Ascii.eqb_spec c ":") as [->|N].
    + injection H as <- <-. repeat split. right. now exists r.
    + destruct (span_not_colon r) as [g' t'] eqn:E. injection H as <- <-.
      destruct (IH g' t' eq_refl) as (-> & L & T).
      repeat split; [|exact T].
      cbn [lacks]. apply Ascii.eqb_neq in N. now rewrite N, L.
Qed.

Lemma span_not_colon_stops (g rest : string) :
  lacks ":" g = true ->
  span_not_colon (g ++ String ":" rest) = (g, String ":" rest).
Proof.
  induction g as [|c g IH]; cbn [lacks append span_not_colon]; intros L.
  - reflexivity.
  - apply andb_true_iff in L as [L1 L2]. apply negb_true_iff in L1.
    now rewrite L1, (IH L2).
Qed.

Lemma match_drive_root_unfold (s : string) :
  match_drive_root s
  = match group_here s with
    | Some g => Some g
    | None =>
        match s with
        | EmptyString => None
        | String _ r => match_drive_root r
        end
    end.
Proof. destruct s; reflexivity. Qed.

Lemma group_here_sound (s g : string) :
  group_here s = Some g ->
  g <> EmptyString /\ lacks ":" g = true
  /\ exists post, s = drive_root ++ g ++ ":" ++ post.
Proof.
  unfold group_here. destruct (prefix drive_root s) eqn:P; [|discriminate].
  apply StringFacts.prefix_split in P.
  change (String.length drive_root) with 15 in P.
  destruct (span_not_colon (drop 15 s)) as [g' t] eqn:E.
  apply span_not_colon_spec in E as (E & L & T).
  destruct g' as [|c g']; [discriminate|].
  destruct t as [|d t]; [discriminate|]. intros [= <-].
  destruct T as [T|[r T]]; [discriminate|]. injection T as -> ->.
  repeat split; [discriminate | exact L |].
  exists r. rewrite P at 1. now rewrite E.
Qed.

Lemma match_drive_root_sound (s g : string) :
  match_drive_root s = Some g ->
  g <> EmptyString /\ lacks ":" g = true
  /\ exists pre post, s = pre ++ drive_root ++ g ++ ":" ++ post.
Proof.
  induction s as [|c r IH]; rewrite match_drive_root_unfold.
  - destruct (group_here EmptyString) eqn:G; [|discriminate].
    intros [= ->]. apply group_here_sound in G as (N & L & post & E).
    repeat split; auto. now exists EmptyString, post.
  - destruct (group_here (String c r)) eqn:G.
    + intros [= ->]. apply group_here_sound in G as (N & L & post & E).
      repeat split; auto. now exists EmptyString, post.
    + intros H. destruct (IH H) as (N & L & pre & post & ->).
      repeat split; auto. now exists (String c pre), post.
Qed.

Lemma group_here_found (g post : string) :
  g <> EmptyString -> lacks ":" g = true ->
  group_here (drive_root ++ g ++ ":" ++ post) = Some g.
Proof.
  intros N L. unfold group_here.
  rewrite StringFacts.prefix_app.
  change 15 with (String.length drive_root).
  rewrite ReplaceFacts.drop_app.
  change (g ++ ":" ++ post) with (g ++ String ":" post).
  rewrite span_not_colon_stops by exact L.
  now destruct g.
Qed.

Lemma match_drive_root_complete (pre g post : string) :
  g <> EmptyString -> lacks ":" g = true ->
  exists g', match_drive_root (pre ++ drive_root ++ g ++ ":" ++ post)
             = Some g'.
Proof.
  intros N L. induction pre as [|c pre IH].
  - exists g.
    change (EmptyString ++ drive_root ++ g ++ ":" ++ post)
      with (drive_root ++ g ++ ":" ++ post).
    rewrite match_drive_root_unfold. now rewrite group_here_found.
  - rewrite match_drive_root_unfold.
    destruct (group_here _) as [g0|]; [now exists g0 | exact IH].
Qed.

(** X4.  The workbook hint is set only for an operation whose name contains
    [excel] and whose path contains [workbook]; the file it names is not
    empty, has no colon, and stands in the path sent between
    [/me/drive/root:] and the next colon.  Such a file in the path of such
    an operation always gives a hint, and gives this very file when the path
    begins with [/me/drive/root:]. *)
Theorem excel_file_from_path
  (tool : Endpoint.t) (params : list (string * jsval)) :
  let sent := fst (request tool params) in
  let hint := Options.excelFile (snd (request tool params)) in
  (forall file,
     hint = Some file ->
     includes (Endpoint.alias tool) "excel" = true
     /\ includes sent "workbook" = true
     /\ file <> EmptyString
     /\ lacks ":" file = true
     /\ exists pre post, sent = pre ++ drive_root ++ file ++ ":" ++ post)
  /\ (forall pre file post,
        includes (Endpoint.alias tool) "excel" = true ->
        includes sent "workbook" = true ->
        sent = pre ++ drive_root ++ file ++ ":" ++ post ->
        file <> EmptyString -> lacks ":" file = true ->
        hint <> None /\ (pre = EmptyString -> hint = Some file)).
Proof.
  intros sent hint.
  assert (H : hint = excel_file tool sent) by reflexivity.
  split.
  - intros file E. rewrite H in E. unfold excel_file in E.
    destruct (includes (Endpoint.alias tool) "excel"); [|discriminate].
    destruct (includes sent "workbook"); [|discriminate].
    cbn [andb] in E. apply match_drive_root_sound in E as (N & L & X).
    auto.
  - intros pre file post A W E N L. rewrite H. unfold excel_file.
    rewrite A, W. cbn [andb]. rewrite E. split.
    + destruct (match_drive_root_complete pre file post N L) as [g' ->].
      discriminate.
    + intros ->.
      change (EmptyString ++ drive_root ++ file ++ ":" ++ post)
        with (drive_root ++ file ++ ":" ++ post).
      rewrite match_drive_root_unfold. now rewrite group_here_found.
Qed.

Lemma excel_file_from_path_witness :
  Options.excelFile
    (snd (request Sample.excelRange [("address", JStr "A1")]))
  = Some "/book.xlsx".
Proof.
  apply (proj2 (proj2 (excel_file_from_path Sample.excelRange
                         [("address", JStr "A1")])
                  EmptyString "/book.xlsx"
                  "/workbook/worksheets/Sheet1/range(address='A1')"
                  eq_refl eq_refl eq_refl ltac:(discriminate) eq_refl)
           eq_refl).
Defined.

End ExcelFacts.

(** ** A body given as JSON text of a string *)

Module BodyTextFacts.

Import Handler.

Lemma parse_quoted (m : string) : JSON.parse (JSON.quote m) = Some (JStr m).
Proof.
  unfold JSON.parse. rewrite Nat.add_1_r.
  pose proof (JSONFacts.parse_quote m EmptyString
                (2 * String.length (JSON.quote m))) as P.
  rewrite StringFacts.app_nil_r in P. now rewrite P.
Qed.

(** X5.  A [Body] argument (or legacy [body]) whose string is the JSON text
    of a string [m] leaves [m] itself in [body]: when it is the last to
    assign [body], a method other than GET sends [m] without its quotes,
    and sends no body at all when [m] is empty. *)
Theorem quoted_body_sent_unquoted
  (tool : Endpoint.t) (before after : list (string * jsval))
  (paramName m : string) :
  writes_body tool paramName = true ->
  forallb (keeps_body tool) after = true ->
  let params := (before ++ (paramName, JStr (JSON.quote m)) :: after)%list in
  body (bind_params tool params) = JStr m
  /\ (JS.toUpperCase (Endpoint.method tool) <> "GET" -> m <> EmptyString ->
      Options.body (snd (request tool params)) = Some m)
  /\ (m = EmptyString -> Options.body (snd (request tool params)) = None).
Proof.
  intros W K params.
  assert (B : body (bind_params tool params) = JStr m).
  { unfold params. rewrite BinderFacts.last_body_wins by assumption.
    cbn [body_value]. now rewrite parse_quoted. }
  split; [exact B|].
  unfold request. cbn [snd Options.body]. rewrite B. unfold attached_body.
  split.
  - intros G N. apply String.eqb_neq in G, N. rewrite G.
    cbn [negb andb Value.truthy]. now rewrite N.
  - intros ->. cbn [Value.truthy String.eqb negb]. now rewrite andb_false_r.
Qed.

Lemma quoted_body_sent_unquoted_witness :
  Options.body
    (snd (request Sample.createItem
            [("payload", JStr (JSON.quote "plain text"))]))
  = Some "plain text".
Proof.
  apply (proj1 (proj2 (quoted_body_sent_unquoted Sample.createItem [] []
                         "payload" "plain text" eq_refl eq_refl))).
  - discriminate.
  - discriminate.
Defined.

End BodyTextFacts.

(** ** What is registered, in either mode *)

Module ModeFacts.

Import Registrar.

Lemma filter_kept_catalog (tools : list Endpoint.t) :
  filter kept_read_only (map catalog_registration tools)
  = map catalog_registration (filter is_get tools).
Proof.
  induction tools as [|t r IH]; [reflexivity|].
  cbn [map filter]. unfold kept_read_only at 1. cbn [callback catalog_registration].
  destruct (is_get t); cbn [map]; now rewrite IH.
Qed.

(** X6.  Read-only mode registers what read-write mode registers, in the
    same order, except the catalog operations whose method is not GET; the
    three fixed operations stay.  Read-write mode registers every
    descriptor of the catalog, in catalog order, then the three. *)
Theorem read_only_is_read_write_filtered (endpoints : list Endpoint.t) :
  registerGraphTools endpoints true
  = filter kept_read_only (registerGraphTools endpoints false)
  /\ registerGraphTools endpoints false
     = (map catalog_registration endpoints
        ++ [debug_excel_access; upload_file_to_onedrive;
            create_empty_excel_file])%list
  /\ List.length (registerGraphTools endpoints true)
     <= List.length (registerGraphTools endpoints false).
Proof.
  assert (A : filter (eligible false) endpoints = endpoints).
  { induction endpoints as [|t r IH]; cbn; [reflexivity | now rewrite IH]. }
  assert (F : registerGraphTools endpoints false
              = (map catalog_registration endpoints
                 ++ [debug_excel_access; upload_file_to_onedrive;
                     create_empty_excel_file])%list).
  { now rewrite RegistrarFacts.registerGraphTools_eq, A. }
  assert (T : registerGraphTools endpoints true
              = filter kept_read_only (registerGraphTools endpoints false)).
  { assert (E : filter (eligible true) endpoints = filter is_get endpoints).
    { apply filter_ext. intros t. unfold eligible. cbn.
      now rewrite negb_involutive. }
    rewrite F, filter_app, filter_kept_catalog.
    now rewrite RegistrarFacts.registerGraphTools_eq, E. }
  split; [exact T | split; [exact F|]].
  rewrite T. apply filter_length_le.
Qed.

(** X7.  A catalog operation is registered under the alias of its
    descriptor, with that alias as title and a read-only hint that says
    whether the upper-cased method is GET; the fixed operations carry no
    annotations.  In read-only mode every registered catalog operation has
    the hint set. *)
Theorem registrations_annotated
  (endpoints : list Endpoint.t) (readOnly : bool) (r : Registration) :
  In r (registerGraphTools endpoints readOnly) ->
  match callback r with
  | CatalogOperation tool =>
      In tool endpoints
      /\ name r = Endpoint.alias tool
      /\ annotations r
         = Some (mkAnnotations (Endpoint.alias tool) (is_get tool))
      /\ (readOnly = true -> is_get tool = true)
  | _ => annotations r = None
  end.
Proof.
  rewrite RegistrarFacts.registerGraphTools_eq. intros I.
  apply in_app_or in I as [I|I].
  - apply in_map_iff in I as (tool & <- & I).
    apply filter_In in I as [I E]. cbn [callback catalog_registration].
    repeat split; auto.
    intros ->. unfold eligible in E. cbn in E. now rewrite negb_involutive in E.
  - cbn [In] in I. destruct I as [<-|[<-|[<-|[]]]]; reflexivity.
Qed.

Lemma registrations_annotated_witness :
  match callback (catalog_registration Sample.getItem) with
  | CatalogOperation tool =>
      In tool [Sample.getItem; Sample.createItem]
      /\ name (catalog_registration Sample.getItem) = Endpoint.alias tool
      /\ annotations (catalog_registration Sample.getItem)
         = Some (mkAnnotations (Endpoint.alias tool) (is_get tool))
      /\ (true = true -> is_get tool = true)
  | _ => annotations (catalog_registration Sample.getItem) = None
  end.
Proof.
  apply (registrations_annotated [Sample.getItem; Sample.createItem] true
           (catalog_registration Sample.getItem)).
  vm_compute. left. reflexivity.
Defined.

Lemma find_app {A : Type} (f : A -> bool) (a b : list A) :
  find f (a ++ b)%list
  = match find f a with
    | Some x => Some x
    | None => find f b
    end.
Proof.
  induction a as [|x a IH]; cbn [List.app find]; [reflexivity|].
  now destruct (f x).
Qed.

Lemma find_none_all {A : Type} (f : A -> bool) (l : list A) :
  find f l = None <-> forall x, In x l -> f x = false.
Proof.
  split; [apply find_none|].
  induction l as [|x l IH]; intros H; cbn [find]; [reflexivity|].
  rewrite (H x (or_introl eq_refl)). apply IH.
  intros y I. apply H. now right.
Qed.

Lemma fold_schema (name : string) (params : list Param.t)
  (acc : @Obj.obj Schema) :
  name <> "__proto__" ->
  Obj.get name
    (fold_left (fun acc param =>
                  Obj.set (Param.name param) (param_schema param) acc)
               params acc)
  = match find (fun p => String.eqb (Param.name p) name) (rev params) with
    | Some p => Some (param_schema p)
    | None => Obj.get name acc
    end.
Proof.
  intros N. revert acc.
  induction params as [|p rest IH]; intros acc; [reflexivity|].
  cbn [fold_left rev]. rewrite IH, find_app.
  destruct (find _ (rev rest)) as [q|]; [reflexivity|].
  cbn [find]. destruct (String.eqb_spec (Param.name p) name) as [E|D].
  - rewrite E. now apply ObjFacts.get_set_same.
  - apply ObjOtherFacts.get_set_other. congruence.
Qed.

(** X8.  The schema presented for an operation has an entry for a name
    (other than [__proto__]) exactly when a parameter has that name, and
    the entry is made from the last parameter so named: the parameter's own
    schema, in a union with the string schema for a [Body] parameter, or
    the unconstrained schema when it has none.  With distinct parameter
    names this is the parameter the handler binds the argument to. *)
Theorem schema_entry_of_last_parameter (tool : Endpoint.t) (name : string) :
  name <> "__proto__" ->
  Obj.get name (build_paramSchema tool)
  = option_map param_schema (last_paramDef tool name)
  /\ (last_paramDef tool name = None
      <-> Handler.find_paramDef tool name = None)
  /\ (NoDup (map Param.name (Handler.parameterDefinitions tool)) ->
      last_paramDef tool name = Handler.find_paramDef tool name).
Proof.
  intros N. unfold build_paramSchema, last_paramDef, Handler.find_paramDef.
  set (f := fun p => String.eqb (Param.name p) name).
  set (ps := Handler.parameterDefinitions tool).
  split; [|split].
  - rewrite fold_schema by exact N. fold f. now destruct (find f (rev ps)).
  - split; intros H.
    + apply find_none_all. intros x I.
      apply (proj1 (find_none_all f (rev ps)) H). now apply in_rev in I.
    + apply find_none_all. intros x I.
      apply (proj1 (find_none_all f ps) H). now apply in_rev.
  - clearbody ps. induction ps as [|p rest IH]; intros D; [reflexivity|].
    cbn [map] in D. apply NoDup_cons_iff in D as [D1 D2].
    cbn [rev find]. rewrite find_app, (IH D2). cbn [find].
    destruct (f p) eqn:Fp.
    + destruct (find f rest) as [q|] eqn:Q; [|reflexivity].
      exfalso. apply find_some in Q as [I Q]. unfold f in Fp, Q.
      apply String.eqb_eq in Fp, Q.
      apply D1. rewrite Fp, <- Q. now apply in_map.
    + now destruct (find f rest).
Qed.

Lemma schema_entry_of_last_parameter_witness :
  Obj.get "payload" (build_paramSchema Sample.createItem) = Some z_any.
Proof.
  apply (proj1 (schema_entry_of_last_parameter Sample.createItem "payload"
                  ltac:(discriminate))).
Defined.

End ModeFacts.

(** ** The fixed operations *)

Module FixedFacts.

Import FixedTools.

Lemma parse_pretty_error (m : string) :
  JSON.parse (stringify_pretty EmptyString (Handler.error_object m))
  = Some (Handler.error_object m).
Proof.
  unfold JSON.parse.
  assert (F : exists n,
            2 * String.length
                  (stringify_pretty EmptyString (Handler.error_object m)) + 1
            = S (S (S n))).
  { unfold Handler.error_object. cbn [stringify_pretty map JS.join].
    change (JSON.quote "error")
      with (String JSON.dquote ("error" ++ String JSON.dquote EmptyString)).
    cbn [append String.length newline].
    eexists. rewrite Nat.mul_succ_r, Nat.add_1_r.
    rewrite <- !plus_n_Sm. reflexivity. }
  destruct F as [n ->].
  unfold Handler.error_object.
  cbn [stringify_pretty map JS.join].
  change (JSON.quote "error")
    with (String JSON.dquote ("error" ++ String JSON.dquote EmptyString)).
  simpl.
  rewrite !StringFacts.app_assoc. cbn [append].
  rewrite JSONFacts.parse_quote_chars. reflexivity.
Qed.

(** The catch block on an [Error] object, or on an object whose message is
    a string. *)
Lemma error_result_of_message (error : Error) (m : string) :
  error = mkError m
  \/ (exists ps, error = Thrown (Some (JObj ps))
                 /\ Obj.get "message" ps = Some (JStr m)) ->
  error_result error
  = Normal (CallToolResult.make
              [TextContent
                 (stringify_pretty EmptyString (Handler.error_object m))]
              None (Some true)).
Proof.
  intros [->|(ps & -> & G)]; unfold error_result;
    cbn [Handler.read_message bind].
  - reflexivity.
  - unfold Handler.get_property. rewrite G. reflexivity.
Qed.

(** The catch block on [null] and on [undefined]: reading the message
    throws. *)
Lemma error_result_nullish (error : Error) :
  error = Thrown None \/ error = Thrown (Some JNull) ->
  exists thrown,
    error_result error = Throw thrown /\ Callback.is_error_object thrown.
Proof.
  intros [->| ->]; eexists; (split; [reflexivity|]); now eexists.
Qed.

Lemma error_result_shape (error : Error) (result : CallToolResult.t) :
  error_result error = Normal result ->
  exists text,
    result = CallToolResult.make [TextContent text] None (Some true).
Proof.
  unfold error_result.
  destruct (Handler.read_message error) as [m|e]; cbn [bind]; [|discriminate].
  destruct (Conversion.text_of m) as [t|e]; cbn [bind]; [|discriminate].
  intros [= <-]. now eexists.
Qed.

(** X9.  The upload callback makes one call, a PUT to the content of the
    named file with the content as body (also when it is empty) and its
    type as [Content-Type], and returns the transport's response as it is.
    When the transport throws, the callback ends as its catch block does:
    for an [Error] object, or an object whose message is a string, it
    returns normally a result with [isError] true whose single text is JSON
    for [{error: message}], the message unchanged; for [null] and for
    [undefined] the read of the message throws and the callback throws
    with it.  [create-empty-excel-file] is the upload of an empty content
    of spreadsheet type. *)
Theorem upload_forwards_response
  (graphRequest : Transport) (fileName content folderPath contentType : string) :
  let init := mkInit "PUT" (Some [("Content-Type", contentType)])
                (Some content) in
  let path := upload_path fileName folderPath in
  let run := upload_file_to_onedrive fileName content folderPath contentType
               graphRequest in
  snd run = [(path, Some init)]
  /\ (forall response,
        graphRequest path (Some init) = Normal response ->
        fst run = Normal (Forwarded response))
  /\ (forall error,
        graphRequest path (Some init) = Throw error ->
        (forall m,
           error = mkError m
           \/ (exists ps, error = Thrown (Some (JObj ps))
                          /\ Obj.get "message" ps = Some (JStr m)) ->
           exists text,
             fst run
             = Normal (Built (CallToolResult.make [TextContent text] None
                                (Some true)))
             /\ JSON.parse text = Some (JObj [("error", JStr m)]))
        /\ (error = Thrown None \/ error = Thrown (Some JNull) ->
            exists thrown,
              fst run = Throw thrown /\ Callback.is_error_object thrown)
        /\ forall returned,
             fst run = Normal returned ->
             exists text,
               returned
               = Built (CallToolResult.make [TextContent text] None
                          (Some true)))
  /\ create_empty_excel_file fileName folderPath graphRequest
     = upload_file_to_onedrive fileName EmptyString folderPath
         Registrar.spreadsheet_mime graphRequest.
Proof.
  intros init path run.
  unfold run, upload_file_to_onedrive, try_io, and_then, call, ret.
  fold path. fold init.
  destruct (graphRequest path (Some init)) as [r|e] eqn:G; cbn [fst snd].
  - repeat split; try reflexivity; try discriminate.
    now intros response [= <-].
  - split; [reflexivity|]. split; [discriminate|]. split; [|reflexivity].
    intros error [= <-]. split; [|split].
    + intros m M. rewrite (error_result_of_message e m M). cbn [bind].
      eexists. split; [reflexivity | apply parse_pretty_error].
    + intros N. destruct (error_result_nullish e N) as (t & -> & O).
      cbn [bind]. now exists t.
    + intros returned. destruct (error_result e) as [r|t] eqn:R; cbn [bind];
        [|discriminate].
      intros [= <-]. destruct (error_result_shape e r R) as [text ->].
      now exists text.
Qed.

Lemma upload_forwards_response_witness :
  fst (upload_file_to_onedrive "a.txt" EmptyString "/docs" "text/plain"
         (fun _ _ => Normal RNull))
  = Normal (Forwarded RNull).
Proof.
  apply (proj1 (proj2 (upload_forwards_response (fun _ _ => Normal RNull)
                         "a.txt" EmptyString "/docs" "text/plain"))).
  reflexivity.
Defined.

Section Debug.
Variable SyntaxError_message : string -> string.

Lemma parse_first_text_throws (response : Response) (e : Error) :
  parse_first_text SyntaxError_message response = Throw e ->
  Callback.is_error_object e.
Proof.
  destruct response as [| |r]; cbn [parse_first_text].
  - intros [= <-]. now eexists.
  - intros [= <-]. now eexists.
  - destruct (McpResponse.content r) as [|first rest].
    + intros [= <-]. now eexists.
    + destruct (JSON.parse (McpResponse.text first)); [discriminate|].
      intros [= <-]. now eexists.
Qed.

Lemma debug_report_throws (a b c d : Response) (e : Error) :
  debug_report SyntaxError_message a b c d = Throw e ->
  Callback.is_error_object e.
Proof.
  unfold debug_report.
  destruct (parse_first_text SyntaxError_message a) as [va|e1] eqn:A;
    cbn [bind];
    [|intros [= <-]; now apply (parse_first_text_throws a)].
  destruct (parse_first_text SyntaxError_message b) as [vb|e1] eqn:B;
    cbn [bind];
    [|intros [= <-]; now apply (parse_first_text_throws b)].
  destruct (parse_first_text SyntaxError_message c) as [vc|e1] eqn:C;
    cbn [bind];
    [|intros [= <-]; now apply (parse_first_text_throws c)].
  destruct (parse_first_text SyntaxError_message d) as [vd|e1] eqn:D;
    cbn [bind];
    [discriminate | intros [= <-]; now apply (parse_first_text_throws d)].
Qed.

Lemma error_result_error_object (e : Error) :
  Callback.is_error_object e ->
  exists text,
    error_result e
    = Normal (CallToolResult.make [TextContent text] None (Some true)).
Proof.
  intros [m ->]. rewrite (error_result_of_message (mkError m) m) by now left.
  now eexists.
Qed.

Lemma debug_report_single (a b c d : Response) :
  exists text flag,
    try_catch (debug_report SyntaxError_message a b c d) error_result
    = Normal (CallToolResult.make [TextContent text] None flag)
    /\ (flag = None \/ flag = Some true).
Proof.
  destruct (debug_report SyntaxError_message a b c d) as [r|e] eqn:R;
    cbn [try_catch].
  - revert R. unfold debug_report.
    destruct (parse_first_text SyntaxError_message a); cbn [bind];
      [|discriminate].
    destruct (parse_first_text SyntaxError_message b); cbn [bind];
      [|discriminate].
    destruct (parse_first_text SyntaxError_message c); cbn [bind];
      [|discriminate].
    destruct (parse_first_text SyntaxError_message d); cbn [bind];
      [|discriminate].
    intros [= <-]. do 2 eexists. split; [reflexivity | now left].
  - destruct (error_result_error_object e (debug_report_throws a b c d e R))
      as [text ->].
    exists text, (Some true). split; [reflexivity | now right].
Qed.

(** X10.  The probe makes its four calls in order and stops at the first
    one the transport throws on: the calls made are the answered ones and
    the one that threw, so no session is requested when the file lookup
    throws.  When all four are answered it returns normally a single text
    item: the report built from the four responses, or the error result of
    the first response whose first text is missing or is not JSON.  When a
    call throws, the probe ends as its catch block does on what was thrown:
    with an error result for an [Error] object, and throwing itself for
    [null] and [undefined].  So it never throws on a transport that throws
    nothing but [Error] objects. *)
Theorem debug_stops_at_first_throw
  (graphRequest : Transport) (filePath : string) :
  let run := debug_excel_access SyntaxError_message filePath graphRequest in
  let calls := debug_calls filePath in
  snd run
  = firstn (S (List.length (answered graphRequest calls))) calls
  /\ (forall a b c d,
        answered graphRequest calls = [a; b; c; d] ->
        fst run
        = try_catch (debug_report SyntaxError_message a b c d) error_result
        /\ exists text flag,
             fst run
             = Normal (CallToolResult.make [TextContent text] None flag)
             /\ (flag = None \/ flag = Some true))
  /\ (List.length (answered graphRequest calls) < 4 ->
      exists error,
        fst run = error_result error
        /\ nth_error (map (fun c => graphRequest (fst c) (snd c)) calls)
             (List.length (answered graphRequest calls))
           = Some (Throw error)
        /\ (error = Thrown None \/ error = Thrown (Some JNull) ->
            exists thrown, fst run = Throw thrown))
  /\ ((forall path init e,
         graphRequest path init = Throw e -> Callback.is_error_object e) ->
      exists text flag,
        fst run = Normal (CallToolResult.make [TextContent text] None flag)
        /\ (flag = None \/ flag = Some true)).
Proof.
  intros run calls.
  assert (N : forall error,
            error = Thrown None \/ error = Thrown (Some JNull) ->
            exists thrown, error_result error = Throw thrown).
  { intros error H. destruct (error_result_nullish error H) as (t & E & _).
    now exists t. }
  assert (O : forall path init e,
            graphRequest path init = Throw e ->
            (forall path init e,
               graphRequest path init = Throw e ->
               Callback.is_error_object e) ->
            exists text flag,
              error_result e
              = Normal (CallToolResult.make [TextContent text] None flag)
              /\ (flag = None \/ flag = Some true)).
  { intros path init e G A.
    destruct (error_result_error_object e (A path init e G)) as [text ->].
    exists text, (Some true). split; [reflexivity | now right]. }
  unfold run, calls, debug_excel_access, debug_calls, try_io, and_then, call,
    ret.
  cbn [answered map fst snd].
  destruct (graphRequest ("/me/drive/root:" ++ filePath) None) as [a|e1]
    eqn:G1.
  2:{ cbn [fst snd List.length firstn List.app nth_error].
      split; [reflexivity|]. split; [discriminate|]. split.
      - intros _. exists e1. split; [reflexivity|]. split; [reflexivity|].
        apply N.
      - now apply (O _ _ e1 G1). }
  destruct (graphRequest
              ("/me/drive/root:" ++ filePath ++ ":/workbook/createSession")
              (Some create_session)) as [b|e2] eqn:G2.
  2:{ cbn [fst snd List.length firstn List.app nth_error].
      split; [reflexivity|]. split; [discriminate|]. split.
      - intros _. exists e2. split; [reflexivity|]. split; [reflexivity|].
        apply N.
      - now apply (O _ _ e2 G2). }
  destruct (graphRequest
              ("/me/drive/root:" ++ filePath ++ ":/workbook/worksheets")
              None) as [c|e3] eqn:G3.
  2:{ cbn [fst snd List.length firstn List.app nth_error].
      split; [reflexivity|]. split; [discriminate|]. split.
      - intros _. exists e3. split; [reflexivity|]. split; [reflexivity|].
        apply N.
      - now apply (O _ _ e3 G3). }
  destruct (graphRequest
              ("/me/drive/root:" ++ filePath
               ++ ":/workbook/worksheets/Sheet1/range(address='A1:C5')")
              None) as [d|e4] eqn:G4.
  2:{ cbn [fst snd List.length firstn List.app nth_error].
      split; [reflexivity|]. split; [discriminate|]. split.
      - intros _. exists e4. split; [reflexivity|]. split; [reflexivity|].
        apply N.
      - now apply (O _ _ e4 G4). }
  cbn [List.length firstn List.app fst snd].
  destruct (debug_report_single a b c d) as (text & flag & E & F).
  destruct (debug_report SyntaxError_message a b c d) as [r|e] eqn:D;
    cbn [try_catch] in E; cbn [fst snd List.app].
  - split; [reflexivity|]. split.
    + intros ? ? ? ? [= <- <- <- <-]. rewrite D. cbn [try_catch].
      split; [reflexivity|]. exists text, flag. auto.
    + split; [intros L; cbn in L; lia|].
      intros _. exists text, flag. auto.
  - rewrite E. cbn [fst snd List.app].
    split; [reflexivity|]. split.
    + intros ? ? ? ? [= <- <- <- <-]. rewrite D. cbn [try_catch].
      split; [now rewrite E|]. exists text, flag. auto.
    + split; [intros L; cbn in L; lia|].
      intros _. exists text, flag. auto.
Qed.

End Debug.

Lemma debug_stops_at_first_throw_witness :
  snd (debug_excel_access (fun _ => "bad text") "/book.xlsx"
         (fun _ _ => Throw (mkError "denied")))
  = [("/me/drive/root:/book.xlsx", None)].
Proof.
  apply (proj1 (debug_stops_at_first_throw (fun _ => "bad text")
                  (fun _ _ => Throw (mkError "denied")) "/book.xlsx")).
Defined.

End FixedFacts.

(** ** Reserved names never travel bare *)

Module BareNameFacts.

Import Handler HandlerNotions.

Lemma fixedParamName_not_bare (paramName : string) :
  existsb (String.eqb (JS.toLowerCase (fixedParamName paramName))) odataParams
  = false.
Proof.
  unfold fixedParamName.
  destruct (existsb (String.eqb (JS.toLowerCase paramName)) odataParams)
    eqn:E; [|exact E].
  cbn [append]. destruct (JS.toLowerCase paramName) as [|b [|c r]];
    reflexivity.
Qed.

(** X11.  No key of the headers or of the query pairs of a request is one
    of the nine reserved names without its [$], in any case of letters:
    such a name is always sent with the [$] in front. *)
Theorem stored_keys_never_bare
  (tool : Endpoint.t) (params : list (string * jsval))
  (location : ParamType) (key v : string) :
  Obj.get key (store_of location (bind_params tool params)) = Some v ->
  ~ In (JS.toLowerCase key) odataParams.
Proof.
  intros H I. unfold bind_params in H.
  apply StoreFacts.fold_store_source in H as [H|(n & value & _ & S & _)].
  - destruct location; discriminate.
  - apply StoreFacts.stores_inv in S as (d & _ & _ & K). cbn [fst] in K.
    subst key. apply AliasFacts.existsb_eqb_In in I.
    now rewrite fixedParamName_not_bare in I.
Qed.

Lemma stored_keys_never_bare_witness :
  ~ In (JS.toLowerCase "$filter") odataParams.
Proof.
  apply (stored_keys_never_bare Sample.listItems [("FILTER", JStr "x");
                                                  ("filter", JStr "a eq 1")]
           Query "$filter" "a eq 1").
  reflexivity.
Defined.

End BareNameFacts.

(** ** The order of path arguments *)

From Stdlib Require Import Permutation.

Module PathOrderFacts.

Import JS Template Handler.

Lemma fill_commute (n m v w : string) (tpl : Template.t) :
  n <> m -> fill n v (fill m w tpl) = fill m w (fill n v tpl).
Proof.
  intros N. unfold fill, fill_where. rewrite !map_map. apply map_ext.
  intros [s|k|k]; [reflexivity| |];
    unfold names; cbn [in_braces after_colon orb];
    destruct (String.eqb k m) eqn:Em; destruct (String.eqb k n) eqn:En;
    cbn [in_braces after_colon orb];
    rewrite ?Em, ?En; try reflexivity;
    apply String.eqb_eq in Em, En; elim N; congruence.
Qed.

Lemma fill_argument_commute (tool : Endpoint.t) (tpl : Template.t)
  (x y : string * jsval) :
  fst x <> fst y ->
  fill_argument tool (fill_argument tool tpl x) y
  = fill_argument tool (fill_argument tool tpl y) x.
Proof.
  intros N. unfold fill_argument.
  destruct (find_paramDef tool (fst x)) as [dx|];
    destruct (find_paramDef tool (fst y)) as [dy|]; try reflexivity.
  destruct (Param.type dx), (Param.type dy); try reflexivity.
  apply fill_commute. congruence.
Qed.

Lemma resolve_permutation (tool : Endpoint.t)
  (params params' : list (string * jsval)) :
  Permutation params params' -> NoDup (map fst params) ->
  forall tpl, resolve tool params tpl = resolve tool params' tpl.
Proof.
  unfold resolve.
  induction 1 as [|x l l' P IH|x y l|l l' l'' P1 IH1 P2 IH2]; intros D tpl.
  - reflexivity.
  - cbn [fold_left]. apply IH. cbn [map] in D. now inversion D.
  - cbn [fold_left]. f_equal. apply fill_argument_commute.
    cbn [map] in D. inversion D as [|? ? Ni _]. intros E. apply Ni.
    left. now symmetry.
  - rewrite IH1 by exact D. apply IH2.
    apply (Permutation_NoDup (Permutation_map fst P1) D).
Qed.

(** X12.  On a template of literal text without brace or colon and
    placeholders in braces of distinct names, the bound path does not
    depend on the order in which the arguments are enumerated. *)
Theorem bound_path_order_independent
  (tool : Endpoint.t) (params params' : list (string * jsval))
  (tpl : Template.t) :
  Endpoint.path tool = render tpl ->
  well_formed tpl = true ->
  plain_names tool = true ->
  NoDup (map fst params) ->
  Permutation params params' ->
  path (bind_params tool params) = path (bind_params tool params').
Proof.
  intros E W P D Pm.
  destruct (TemplateFacts.fold_path tool params (initial tool) tpl P E W)
    as [B _].
  destruct (TemplateFacts.fold_path tool params' (initial tool) tpl P E W)
    as [B' _].
  unfold bind_params. rewrite B, B'.
  f_equal. now apply resolve_permutation.
Qed.

Lemma bound_path_order_independent_witness :
  path (bind_params Sample.getVersion
          [("id", JStr "a/b"); ("version", JNum 2)])
  = path (bind_params Sample.getVersion
            [("version", JNum 2); ("id", JStr "a/b")]).
Proof.
  apply (bound_path_order_independent Sample.getVersion
           [("id", JStr "a/b"); ("version", JNum 2)]
           [("version", JNum 2); ("id", JStr "a/b")]
           Sample.getVersion_template eq_refl eq_refl eq_refl).
  - repeat constructor; cbn; intuition discriminate.
  - apply perm_swap.
Defined.

End PathOrderFacts.

(** ** The query string determines the pairs *)

Module QueryFacts.

Import JS Handler QueryReading.

Lemma decode_escaped_char (c : ascii) (rest : string) :
  decode ((if uri_unreserved c then String c EmptyString
           else percent_encode c) ++ rest)
  = String c (decode rest).
Proof. destruct c as [[] [] [] [] [] [] [] []]; reflexivity. Qed.

Lemma decode_encode (s : string) : decode (encodeURIComponent s) = s.
Proof.
  induction s as [|c s IH]; [reflexivity|].
  cbn [encodeURIComponent]. now rewrite decode_escaped_char, IH.
Qed.

Lemma pieces_nonempty (c : ascii) (s : string) : pieces c s <> [].
Proof.
  destruct s as [|x r]; cbn [pieces]; [discriminate|].
  destruct (Ascii.eqb x c); [discriminate|].
  destruct (pieces c r); discriminate.
Qed.

Lemma pieces_whole (c : ascii) (a : string) :
  lacks c a = true -> pieces c a = [a].
Proof.
  induction a as [|x a IH]; cbn [lacks pieces]; intros L; [reflexivity|].
  apply andb_true_iff in L as [L1 L2]. apply negb_true_iff in L1.
  now rewrite L1, (IH L2).
Qed.

Lemma pieces_first (c : ascii) (a rest : string) :
  lacks c a = true -> pieces c (a ++ String c rest) = a :: pieces c rest.
Proof.
  induction a as [|x a IH]; cbn [lacks append pieces]; intros L.
  - now rewrite Ascii.eqb_refl.
  - apply andb_true_iff in L as [L1 L2]. apply negb_true_iff in L1.
    now rewrite L1, (IH L2).
Qed.

Lemma cut_first (c : ascii) (a rest : string) :
  lacks c a = true -> cut c (a ++ String c rest) = (a, Some rest).
Proof.
  induction a as [|x a IH]; cbn [lacks append cut]; intros L.
  - now rewrite Ascii.eqb_refl.
  - apply andb_true_iff in L as [L1 L2]. apply negb_true_iff in L1.
    now rewrite L1, (IH L2).
Qed.

Lemma queryString_pairs (q : @Obj.obj string) :
  queryString q = join "&" (map pair_text q).
Proof.
  unfold queryString, Obj.entries. f_equal. apply map_ext. now intros [k v].
Qed.

Lemma pair_text_lacks_amp (kv : string * string) :
  lacks "&" (pair_text kv) = true.
Proof.
  unfold pair_text. rewrite !EscapeFacts.lacks_app.
  rewrite !HintFacts.encodeURIComponent_only_unreserved;
    [reflexivity | reflexivity | discriminate | reflexivity | discriminate].
Qed.

Lemma read_pair_text (kv : string * string) : read_pair (pair_text kv) = kv.
Proof.
  destruct kv as [k v]. unfold read_pair, pair_text. cbn [fst snd].
  change ("=" ++ encodeURIComponent v) with (String "=" (encodeURIComponent v)).
  rewrite cut_first.
  - now rewrite !decode_encode.
  - apply HintFacts.encodeURIComponent_only_unreserved;
      [reflexivity | discriminate].
Qed.

Lemma pieces_join (xs : list (string * string)) :
  xs <> [] -> pieces "&" (join "&" (map pair_text xs)) = map pair_text xs.
Proof.
  induction xs as [|x r IH]; intros N; [contradiction|].
  destruct r as [|y r].
  - cbn [map join]. apply pieces_whole, pair_text_lacks_amp.
  - change (join "&" (map pair_text (x :: y :: r)))
      with (pair_text x ++ String "&" (join "&" (map pair_text (y :: r)))).
    rewrite pieces_first by apply pair_text_lacks_amp.
    rewrite IH by discriminate. reflexivity.
Qed.

Lemma pair_text_not_empty (kv : string * string) (rest : string) :
  pair_text kv ++ rest <> EmptyString.
Proof.
  unfold pair_text. destruct (encodeURIComponent (fst kv)); discriminate.
Qed.

(** What is read from a query string is what it was made from. *)
Lemma read_queryString (q : @Obj.obj string) : read (queryString q) = q.
Proof.
  rewrite queryString_pairs. destruct q as [|x r]; [reflexivity|].
  unfold read.
  destruct (join "&" (map pair_text (x :: r))) eqn:E.
  - exfalso. destruct r as [|y r]; cbn [map join] in E.
    + apply (pair_text_not_empty x EmptyString).
      now rewrite StringFacts.app_nil_r.
    + now apply pair_text_not_empty in E.
  - rewrite <- E, pieces_join by discriminate.
    rewrite map_map. rewrite <- (map_id (x :: r)) at 2.
    apply map_ext. apply read_pair_text.
Qed.

Lemma app_cancel (p a b : string) : p ++ a = p ++ b -> a = b.
Proof.
  induction p as [|c p IH]; cbn [append]; [auto|].
  intros [= H]. now apply IH.
Qed.

(** X13.  The query string determines the pairs it renders, keys and
    values, number and order: two different lists of pairs never give the
    same query string, whatever characters ([&], [=], [?], ...) their keys
    and values hold; and from one bound path, two different lists never
    give the same path to send. *)
Theorem query_string_injective (q q' : @Obj.obj string) :
  (queryString q = queryString q' -> q = q')
  /\ (forall p, with_query p q = with_query p q' -> q = q').
Proof.
  assert (I : queryString q = queryString q' -> q = q').
  { intros H. rewrite <- (read_queryString q), <- (read_queryString q').
    now rewrite H. }
  split; [exact I|].
  intros p H. unfold with_query, Obj.entries in H.
  assert (L : forall (x : string * string) r,
            String.length (p ++ (if includes p "?" then "&" else "?")
                             ++ queryString (x :: r))
            <> String.length p).
  { intros x r. rewrite !JSONFacts.length_app.
    destruct (includes p "?"); cbn [String.length]; lia. }
  destruct q as [|x r], q' as [|x' r']; cbn [List.length Nat.ltb Nat.leb] in H.
  - reflexivity.
  - exfalso. apply (L x' r'). now rewrite <- H.
  - exfalso. apply (L x r). now rewrite H.
  - apply I. apply app_cancel in H. now apply app_cancel in H.
Qed.

Lemma query_string_injective_witness :
  [("a", "1&b=2")] = [("a", "1&b=2")].
Proof.
  apply (proj1 (query_string_injective [("a", "1&b=2")] [("a", "1&b=2")])).
  reflexivity.
Defined.

End QueryFacts.

(** ** A value reads back from its JSON text *)

From Stdlib Require Import DecimalFacts DecimalPos.

Module NumberTextFacts.

Import JSON Number Canonical.

Ltac digit_value_now :=
  match goal with
  | |- context [Obj.digit_value ?c] =>
      let v := eval vm_compute in (Obj.digit_value c) in
      change (Obj.digit_value c) with v
  end.

Lemma digits_value_acc (d : Decimal.uint) (acc : positive) :
  Obj.digits_value (Npos acc) (NilEmpty.string_of_uint d)
  = Npos (Pos.of_uint_acc d acc).
Proof.
  revert acc.
  induction d; intros acc;
    cbn [NilEmpty.string_of_uint Obj.digits_value Pos.of_uint_acc];
    try reflexivity;
    digit_value_now; rewrite <- IHd; f_equal; lia.
Qed.

Lemma digits_value_uint (d : Decimal.uint) :
  Obj.digits_value 0 (NilEmpty.string_of_uint d) = Pos.of_uint d.
Proof.
  induction d;
    cbn [NilEmpty.string_of_uint Obj.digits_value Pos.of_uint];
    try reflexivity;
    digit_value_now; try exact IHd;
    rewrite <- digits_value_acc; f_equal.
Qed.

Lemma to_uint_normal (p : positive) :
  Decimal.unorm (Pos.to_uint p) = Pos.to_uint p.
Proof.
  rewrite <- (DecimalPos.Unsigned.to_of (Pos.to_uint p)).
  now rewrite DecimalPos.Unsigned.of_to.
Qed.

Lemma to_uint_head (p : positive) :
  exists c r,
    NilEmpty.string_of_uint (Pos.to_uint p) = String c r
    /\ JS.is_digit c = true /\ Ascii.eqb c "0" = false.
Proof.
  pose proof (to_uint_normal p) as U.
  pose proof (DecimalPos.Unsigned.to_uint_nonzero p) as Z.
  pose proof (DecimalPos.Unsigned.to_uint_nonnil p) as N.
  destruct (Pos.to_uint p) as [|l|l|l|l|l|l|l|l|l|l]; try (now elim N);
    cbn [NilEmpty.string_of_uint];
    try (do 2 eexists; repeat split; reflexivity).
  exfalso. rewrite DecimalFacts.unorm_D0 in U.
  destruct l as [|l|l|l|l|l|l|l|l|l|l]; try (now elim Z);
    match type of U with
    | Decimal.unorm ?u = _ =>
        assert (L := DecimalFacts.nb_digits_unorm u ltac:(discriminate));
        rewrite U in L; cbn [Decimal.nb_digits] in L; lia
    end.
Qed.

(** *** Digits *)

Lemma uint_all_digits (d : Decimal.uint) :
  Obj.all_digits (NilEmpty.string_of_uint d) = true.
Proof.
  induction d; cbn [NilEmpty.string_of_uint Obj.all_digits];
    try reflexivity; exact IHd.
Qed.

Lemma digits_all (p : positive) : Obj.all_digits (digits p) = true.
Proof. apply uint_all_digits. Qed.

Lemma digits_head (p : positive) :
  exists c r,
    digits p = String c r /\ JS.is_digit c = true /\ Ascii.eqb c "0" = false.
Proof. apply to_uint_head. Qed.

Lemma digits_value_digits (p : positive) :
  Obj.digits_value 0 (digits p) = Npos p.
Proof.
  unfold digits. rewrite digits_value_uint.
  apply DecimalPos.Unsigned.of_to.
Qed.

Lemma ends_no_digit (rest : string) : ends_number rest -> no_digit rest.
Proof. destruct rest; cbn; tauto. Qed.

Lemma span_digits_all (a rest : string) :
  Obj.all_digits a = true -> no_digit rest ->
  span_digits (a ++ rest) = (a, rest).
Proof.
  intros A R. induction a as [|c a IH]; cbn [append].
  - destruct rest as [|c r]; [reflexivity|]. cbn [span_digits].
    cbn in R. now rewrite R.
  - cbn [Obj.all_digits] in A. apply andb_true_iff in A as [A1 A2].
    cbn [span_digits]. now rewrite A1, (IH A2).
Qed.

Lemma all_digits_app (a b : string) :
  Obj.all_digits (a ++ b) = Obj.all_digits a && Obj.all_digits b.
Proof.
  induction a as [|c a IH]; cbn [append Obj.all_digits]; [reflexivity|].
  now rewrite IH, andb_assoc.
Qed.

Lemma all_digits_zeros (j : nat) : Obj.all_digits (zeros j) = true.
Proof. induction j as [|j IH]; [reflexivity | exact IH]. Qed.

Lemma length_zeros (j : nat) : String.length (zeros j) = j.
Proof. induction j as [|j IH]; cbn; [reflexivity | now rewrite IH]. Qed.

Lemma take_drop (n : nat) (s : string) : take n s ++ JS.drop n s = s.
Proof.
  revert s. induction n as [|n IH]; intros [|c r]; cbn; try reflexivity.
  now rewrite IH.
Qed.

Lemma length_take (n : nat) (s : string) :
  n <= String.length s -> String.length (take n s) = n.
Proof.
  revert s. induction n as [|n IH]; intros [|c r]; cbn; intros H;
    try reflexivity; try lia.
  rewrite IH; [reflexivity | lia].
Qed.

Lemma digits_value_app (acc : N) (a b : string) :
  Obj.digits_value acc (a ++ b)
  = Obj.digits_value (Obj.digits_value acc a) b.
Proof.
  revert acc. induction a as [|c a IH]; intros acc; cbn; [reflexivity|].
  apply IH.
Qed.

Lemma digits_value_zeros (acc : N) (j : nat) :
  Obj.digits_value acc (zeros j) = (acc * 10 ^ N.of_nat j)%N.
Proof.
  revert acc. induction j as [|j IH]; intros acc.
  - cbn. lia.
  - cbn [zeros Obj.digits_value]. rewrite IH. digit_value_now.
    replace (N.of_nat (S j)) with (N.succ (N.of_nat j)) by lia.
    rewrite N.pow_succ_r'. lia.
Qed.

Lemma digits_value_leading (j : nat) (s : string) :
  Obj.digits_value 0 (zeros j ++ s) = Obj.digits_value 0 s.
Proof.
  induction j as [|j IH]; [reflexivity|].
  cbn [zeros append Obj.digits_value]. digit_value_now. exact IH.
Qed.

Lemma closes_ends_number (rest : string) :
  closes rest = true -> ends_number rest.
Proof.
  destruct rest as [|c r]; [exact (fun _ => I)|].
  cbn [closes existsb ends_number].
  intros H. repeat (apply orb_true_iff in H as [H|H]);
    try discriminate; apply Ascii.eqb_eq in H; subst c; repeat split.
Qed.

(** *** The parts of a literal *)

Lemma integer_part_digits (a rest : string) :
  (exists c r, a = String c r /\ Ascii.eqb c "0" = false) ->
  Obj.all_digits a = true -> no_digit rest ->
  integer_part (a ++ rest) = Some (a, rest).
Proof.
  intros (c & r & -> & Z) A R.
  pose proof (span_digits_all _ rest A R) as S.
  cbn [Obj.all_digits] in A. apply andb_true_iff in A as [A1 _].
  cbn [append] in *. unfold integer_part. now rewrite Z, A1, S.
Qed.

Lemma fraction_part_digits (f rest : string) :
  f <> EmptyString -> Obj.all_digits f = true -> no_digit rest ->
  fraction_part (String "." (f ++ rest)) = Some (f, rest).
Proof.
  intros N A R. unfold fraction_part.
  change (Ascii.eqb "." ".") with true. cbv iota.
  rewrite (span_digits_all f rest A R).
  destruct f; [now elim N | reflexivity].
Qed.

Lemma fraction_part_none (rest : string) :
  match rest with
  | EmptyString => True
  | String c _ => Ascii.eqb c "." = false
  end ->
  fraction_part rest = Some (EmptyString, rest).
Proof.
  destruct rest as [|c r]; [reflexivity|]. intros H.
  unfold fraction_part. now rewrite H.
Qed.

Lemma exponent_part_none (rest : string) :
  match rest with
  | EmptyString => True
  | String c _ => Ascii.eqb c "e" = false /\ Ascii.eqb c "E" = false
  end ->
  exponent_part rest = Some (0%Z, rest).
Proof.
  destruct rest as [|c r]; [reflexivity|]. intros [H1 H2].
  unfold exponent_part. now rewrite H1, H2.
Qed.

Lemma exponent_part_digits (negative : bool) (q : positive) (rest : string) :
  no_digit rest ->
  exponent_part
    (String "e" ((if negative then "-" else "+") ++ digits q ++ rest))
  = Some (signed negative (Zpos q), rest).
Proof.
  intros R. unfold exponent_part.
  change (Ascii.eqb "e" "e") with true. cbn [orb].
  pose proof (span_digits_all (digits q) rest (digits_all q) R) as S.
  destruct (digits_head q) as (c & r & E & _ & _).
  destruct negative; cbn [append]; cbn [Ascii.eqb Bool.eqb orb JS.drop];
    cbv iota; cbn [JS.drop]; rewrite S, E; rewrite <- E;
    now rewrite digits_value_digits.
Qed.

Lemma all_digits_take (n : nat) (s : string) :
  Obj.all_digits s = true -> Obj.all_digits (take n s) = true.
Proof.
  revert s. induction n as [|n IH]; intros [|c r]; cbn; auto.
  intros H. apply andb_true_iff in H as [H1 H2]. now rewrite H1, IH.
Qed.

Lemma all_digits_drop (n : nat) (s : string) :
  Obj.all_digits s = true -> Obj.all_digits (JS.drop n s) = true.
Proof.
  revert s. induction n as [|n IH]; intros [|c r]; cbn; auto.
  intros H. apply andb_true_iff in H as [H1 H2]. now apply IH.
Qed.

Lemma string_of_revapp (l d : Decimal.uint) :
  NilEmpty.string_of_uint (Decimal.revapp l d)
  = NilEmpty.string_of_uint (Decimal.revapp l Decimal.Nil)
    ++ NilEmpty.string_of_uint d.
Proof.
  revert d. induction l; intros d; cbn [Decimal.revapp];
    [reflexivity | ..];
    rewrite IHl; symmetry; rewrite IHl; rewrite StringFacts.app_assoc;
    reflexivity.
Qed.

Lemma digits_tenfold (p : positive) : digits (10 * p) = digits p ++ "0".
Proof.
  unfold digits, Pos.to_uint, Decimal.rev.
  pose proof (DecimalPos.Unsigned.to_ldec_tenfold p) as T.
  cbn [DecimalPos.Unsigned.to_lu N.mul] in T.
  rewrite T. cbn [Decimal.revapp]. now rewrite string_of_revapp.
Qed.

Lemma zeros_end (j : nat) : zeros j ++ "0" = String "0" (zeros j).
Proof. induction j as [|j IH]; cbn; [reflexivity | now rewrite IH]. Qed.

Lemma digits_shift (p : positive) (j : nat) :
  digits (Z.to_pos (Zpos p * 10 ^ Z.of_nat j)) = digits p ++ zeros j.
Proof.
  induction j as [|j IH].
  - cbn [zeros]. rewrite StringFacts.app_nil_r. f_equal.
    change (10 ^ Z.of_nat 0)%Z with 1%Z. lia.
  - replace (Z.to_pos (Zpos p * 10 ^ Z.of_nat (S j)))
      with (10 * Z.to_pos (Zpos p * 10 ^ Z.of_nat j))%positive.
    + rewrite digits_tenfold, IH, StringFacts.app_assoc, zeros_end.
      reflexivity.
    + rewrite Nat2Z.inj_succ, Z.pow_succ_r by lia.
      assert (0 < 10 ^ Z.of_nat j)%Z by (apply Z.pow_pos_nonneg; lia).
      lia.
Qed.

(** Zeros at the end of the digits count as exponent. *)
Lemma of_decimal_shift (negative : bool) (s : positive) (j : nat) :
  of_decimal negative (Npos s * 10 ^ N.of_nat j) 0
  = of_decimal negative (Npos s) (Z.of_nat j).
Proof.
  assert (P : (0 < 10 ^ Z.of_nat j)%Z) by (apply Z.pow_pos_nonneg; lia).
  assert (E : (Npos s * 10 ^ N.of_nat j)%N
              = Npos (Z.to_pos (Zpos s * 10 ^ Z.of_nat j))).
  { apply N2Z.inj. rewrite N2Z.inj_mul, N2Z.inj_pow.
    cbn [Z.of_N]. rewrite nat_N_Z. lia. }
  rewrite E. unfold of_decimal.
  rewrite digits_shift, JSONFacts.length_app, length_zeros.
  replace (0 + Z.of_nat (String.length (digits s) + j))%Z
    with (Z.of_nat j + Z.of_nat (String.length (digits s)))%Z by lia.
  change (0 <=? 0)%Z with true.
  replace (0 <=? Z.of_nat j)%Z with true by (symmetry; apply Z.leb_le; lia).
  cbv iota.
  replace (Z.to_pos (Z.pos (Z.to_pos (Z.pos s * 10 ^ Z.of_nat j)) * 10 ^ 0))
    with (Z.to_pos (Z.pos s * 10 ^ Z.of_nat j)); [reflexivity|].
  change (10 ^ 0)%Z with 1%Z. lia.
Qed.

Lemma take_head (n : nat) (c : ascii) (r : string) :
  0 < n -> take n (String c r) = String c (take (Nat.pred n) r).
Proof. destruct n; [lia | reflexivity]. Qed.

(** The text of a decimal reads as the decimal. *)
Lemma parse_decimal_text (negative : bool) (s : positive) (p : Z)
  (rest : string) :
  ends_number rest ->
  parse_unsigned negative (decimal_text s p ++ rest)
  = Some (of_decimal negative (Npos s) p, rest).
Proof.
  intros R.
  assert (Rd : no_digit rest) by now apply ends_no_digit.
  assert (Rf : fraction_part rest = Some (EmptyString, rest)).
  { apply fraction_part_none. destruct rest; cbn in *; tauto. }
  assert (Re : exponent_part rest = Some (0%Z, rest)).
  { apply exponent_part_none. destruct rest; cbn in *; tauto. }
  unfold decimal_text.
  pose proof (digits_all s) as A.
  pose proof (digits_value_digits s) as V.
  destruct (digits_head s) as (c & r & E & Dc & Zc).
  set (ds := digits s) in *.
  set (k := Z.of_nat (String.length ds)).
  assert (K : (1 <= k)%Z) by (subst k; rewrite E; cbn [String.length]; lia).
  set (n := (k + p)%Z).
  unfold parse_unsigned.
  destruct ((k <=? n)%Z && (n <=? 21)%Z) eqn:C1.
  { apply andb_true_iff in C1 as [C1 _]. apply Z.leb_le in C1.
    rewrite (integer_part_digits (ds ++ zeros (Z.to_nat (n - k))) rest).
    - rewrite Rf, Re, StringFacts.app_nil_r, digits_value_app, V.
      rewrite digits_value_zeros, of_decimal_shift.
      cbn [String.length]. do 3 f_equal. lia.
    - exists c, (r ++ zeros (Z.to_nat (n - k))). now rewrite E.
    - now rewrite all_digits_app, A, all_digits_zeros.
    - exact Rd. }
  destruct ((0 <? n)%Z && (n <=? 21)%Z) eqn:C2.
  { apply andb_true_iff in C2 as [C2 C2']. apply Z.ltb_lt in C2.
    assert (Lt : (n < k)%Z).
    { apply andb_false_iff in C1 as [C1|C1]; [apply Z.leb_gt in C1; lia|].
      congruence. }
    assert (Ln : Z.to_nat n < String.length ds) by (subst k; lia).
    rewrite !StringFacts.app_assoc.
    rewrite (integer_part_digits (take (Z.to_nat n) ds)).
    - change ("." ++ JS.drop (Z.to_nat n) ds ++ rest)
        with (String "." (JS.drop (Z.to_nat n) ds ++ rest)).
      rewrite fraction_part_digits.
      + rewrite Re, take_drop, V, JSONFacts.length_drop. do 3 f_equal. subst n k. lia.
      + intros H. apply (f_equal String.length) in H.
        rewrite JSONFacts.length_drop in H. cbn in H. lia.
      + now apply all_digits_drop.
      + exact Rd.
    - rewrite E, take_head by lia. do 2 eexists. split; [reflexivity|exact Zc].
    - now apply all_digits_take.
    - reflexivity. }
  destruct ((-6 <? n)%Z && (n <=? 0)%Z) eqn:C3.
  { apply andb_true_iff in C3 as [C3 C3']. apply Z.leb_le in C3'.
    change (("0." ++ zeros (Z.to_nat (- n)) ++ ds) ++ rest)
      with (String "0" (String "." ((zeros (Z.to_nat (- n)) ++ ds) ++ rest))).
    cbn [integer_part Ascii.eqb Bool.eqb]. cbv iota.
    change (Ascii.eqb "0" "0") with true. cbv iota.
    rewrite fraction_part_digits.
    - rewrite Re. change ("0" ++ zeros (Z.to_nat (- n)) ++ ds)
        with (zeros (S (Z.to_nat (- n))) ++ ds).
      rewrite digits_value_leading, V, JSONFacts.length_app, length_zeros.
      do 3 f_equal. subst n k. lia.
    - rewrite E. destruct (zeros (Z.to_nat (- n))); discriminate.
    - now rewrite all_digits_app, all_digits_zeros, A.
    - exact Rd. }
  assert (Far : (21 < n \/ n <= -6)%Z).
  { apply andb_false_iff in C1. apply andb_false_iff in C2.
    apply andb_false_iff in C3.
    rewrite !Z.leb_gt, !Z.ltb_ge in *. lia. }
  set (q := Z.to_pos (Z.abs (n - 1))).
  assert (Q : signed (n - 1 <? 0)%Z (Zpos q) = (n - 1)%Z).
  { subst q. destruct (n - 1 <? 0)%Z eqn:S; cbn [signed];
      [apply Z.ltb_lt in S | apply Z.ltb_ge in S]; lia. }
  rewrite E.
  destruct r as [|c' r'].
  - change ((String c ("e" ++ (if (n - 1 <? 0)%Z then "-" else "+") ++ digits q))
              ++ rest)
      with (String c EmptyString
            ++ String "e" (((if (n - 1 <? 0)%Z then "-" else "+") ++ digits q)
                           ++ rest)).
    rewrite StringFacts.app_assoc.
    rewrite (integer_part_digits (String c EmptyString)).
    + rewrite fraction_part_none by reflexivity.
      rewrite exponent_part_digits by exact Rd.
      rewrite StringFacts.app_nil_r, <- E, V, Q. cbn [String.length].
      do 3 f_equal. subst n k. rewrite E. cbn [String.length]. lia.
    + do 2 eexists. split; [reflexivity | exact Zc].
    + cbn [Obj.all_digits]. now rewrite Dc.
    + reflexivity.
  - change ((String c ("." ++ String c' r' ++ "e"
                       ++ (if (n - 1 <? 0)%Z then "-" else "+") ++ digits q))
              ++ rest)
      with (String c EmptyString
            ++ String "." ((String c' r' ++ "e"
                            ++ (if (n - 1 <? 0)%Z then "-" else "+")
                            ++ digits q) ++ rest)).
    rewrite (integer_part_digits (String c EmptyString)).
    + rewrite !StringFacts.app_assoc.
      change ("e" ++ (if (n - 1 <? 0)%Z then "-" else "+") ++ digits q ++ rest)
        with (String "e" ((if (n - 1 <? 0)%Z then "-" else "+")
                          ++ digits q ++ rest)).
      rewrite fraction_part_digits.
      * rewrite exponent_part_digits by exact Rd.
        change (String c EmptyString ++ String c' r') with (String c (String c' r')).
        rewrite <- E, V, Q. do 3 f_equal. subst n k. rewrite E.
        cbn [String.length]. lia.
      * discriminate.
      * rewrite E in A. cbn [Obj.all_digits] in A.
        apply andb_true_iff in A as [_ A]. exact A.
      * reflexivity.
    + do 2 eexists. split; [reflexivity | exact Zc].
    + cbn [Obj.all_digits]. now rewrite Dc.
    + reflexivity.
Qed.

Lemma decimal_text_head (s : positive) (p : Z) :
  exists c r, decimal_text s p = String c r /\ JS.is_digit c = true.
Proof.
  unfold decimal_text.
  destruct (digits_head s) as (c & r & E & Dc & Zc).
  set (k := Z.of_nat (String.length (digits s))).
  assert (K : (1 <= k)%Z) by (subst k; rewrite E; cbn [String.length]; lia).
  destruct ((k <=? k + p)%Z && (k + p <=? 21)%Z).
  { rewrite E. cbn [append]. eauto. }
  destruct ((0 <? k + p)%Z && (k + p <=? 21)%Z) eqn:C2.
  { apply andb_true_iff in C2 as [C2 _]. apply Z.ltb_lt in C2.
    rewrite E, take_head by lia. cbn [append]. eauto. }
  destruct ((-6 <? k + p)%Z && (k + p <=? 0)%Z).
  { cbn [append]. eauto. }
  rewrite E. destruct r; eauto.
Qed.

Lemma number_eqb_eq (x y : jsval) : Number.eqb x y = true -> x = y.
Proof.
  destruct x, y; cbn [Number.eqb]; try discriminate; intros H.
  - apply Z.eqb_eq in H. now subst.
  - apply andb_true_iff in H as [H H3]. apply andb_true_iff in H as [H1 H2].
    apply Bool.eqb_prop in H1. apply Pos.eqb_eq in H2, H3. now subst.
  - apply Bool.eqb_prop in H. now subst.
Qed.

Lemma pick_reads (negative : bool) (x : jsval) (full : positive) (scale : Z)
  (drop : nat) (c : positive * Z) :
  pick negative x full scale drop = Some c -> reads negative x c = true.
Proof.
  unfold pick.
  set (below := strip _ _ _). set (above := strip _ _ _).
  destruct (reads negative x below) eqn:B, (reads negative x above) eqn:A;
    try discriminate; intros [= <-]; auto.
  destruct (_ ?= _)%Z; auto. now destruct (Z.even _).
Qed.

Lemma shorten_reads (negative : bool) (x : jsval) (full : positive)
  (scale : Z) (drop : nat) :
  reads negative x (full, scale) = true ->
  reads negative x (shorten negative x full scale drop) = true.
Proof.
  intros H. induction drop as [|d IH]; cbn [shorten]; [exact H|].
  destruct (pick negative x full scale (S d)) as [c|] eqn:P; [|exact IH].
  now apply pick_reads in P.
Qed.

(** *** Integers that a significand holds *)

Lemma digits_value_lower (acc : N) (t : string) :
  (acc * 10 ^ N.of_nat (String.length t) <= Obj.digits_value acc t)%N.
Proof.
  revert acc. induction t as [|c r IH]; intros acc.
  - cbn. lia.
  - cbn [String.length Obj.digits_value].
    etransitivity; [|apply IH].
    replace (N.of_nat (S (String.length r)))
      with (N.succ (N.of_nat (String.length r))) by lia.
    rewrite N.pow_succ_r'.
    assert (0 < 10 ^ N.of_nat (String.length r))%N
      by (apply N.neq_0_lt_0, N.pow_nonzero; discriminate).
    nia.
Qed.

Lemma digits_length (p : positive) (j : nat) :
  (Zpos p < 10 ^ Z.of_nat j)%Z -> String.length (digits p) <= j.
Proof.
  intros H.
  destruct (digits_head p) as (c & r & E & Dc & Zc).
  pose proof (digits_value_digits p) as V.
  rewrite E in *. cbn [String.length Obj.digits_value] in *.
  pose proof (digits_value_lower (0 * 10 + Obj.digit_value c) r) as L.
  rewrite V in L.
  assert (C : (1 <= Obj.digit_value c)%N).
  { destruct c as [[] [] [] [] [] [] [] []]; try discriminate Dc;
      try discriminate Zc; vm_compute; discriminate. }
  destruct (Nat.le_gt_cases (S (String.length r)) j) as [|G]; [assumption|].
  exfalso.
  assert (P : (10 ^ Z.of_nat j <= 10 ^ Z.of_nat (String.length r))%Z)
    by (apply Z.pow_le_mono_r; lia).
  assert (Q : (10 ^ N.of_nat (String.length r) <= N.pos p)%N) by nia.
  apply N2Z.inj_le in Q. rewrite N2Z.inj_pow, nat_N_Z in Q.
  cbn [Z.of_N] in Q. lia.
Qed.

(** *** Binary64 values read exactly *)

Section Exact.

Local Open Scope Z_scope.

Lemma above_pred (n d c : Z) :
  0 < n -> 0 < d -> above n d (c + 1) -> above n d c.
Proof.
  unfold above. intros Hn Hd H.
  destruct (Z_lt_le_dec c 0) as [L|L].
  - replace (Z.max c 0) with 0 by lia.
    replace (Z.max (c + 1) 0) with 0 in H by lia.
    replace (Z.max (- c) 0) with (Z.succ (Z.max (- (c + 1)) 0)) by lia.
    rewrite Z.pow_succ_r by lia.
    assert (0 < 2 ^ Z.max (- (c + 1)) 0) by (apply Z.pow_pos_nonneg; lia).
    nia.
  - replace (Z.max (- c) 0) with 0 by lia.
    replace (Z.max (- (c + 1)) 0) with 0 in H by lia.
    replace (Z.max (c + 1) 0) with (Z.succ (Z.max c 0)) in H by lia.
    rewrite Z.pow_succ_r in H by lia.
    assert (0 < 2 ^ Z.max c 0) by (apply Z.pow_pos_nonneg; lia).
    nia.
Qed.

Lemma above_le (n d c : Z) (j : nat) :
  0 < n -> 0 < d -> above n d (c + Z.of_nat j) -> above n d c.
Proof.
  intros Hn Hd. induction j as [|j IH].
  - now rewrite Z.add_0_r.
  - intros H. apply IH. apply above_pred; auto.
    replace (c + Z.of_nat j + 1) with (c + Z.of_nat (S j)) by lia. exact H.
Qed.

Lemma above_unique (n d c l : Z) :
  0 < n -> 0 < d ->
  above n d c -> ~ above n d (c + 1) ->
  above n d l -> ~ above n d (l + 1) -> c = l.
Proof.
  intros Hn Hd C1 C2 L1 L2.
  destruct (Z.lt_trichotomy c l) as [H|[H|H]]; [|exact H|]; exfalso.
  - apply C2. apply (above_le n d (c + 1) (Z.to_nat (l - c - 1))); auto.
    replace (c + 1 + Z.of_nat (Z.to_nat (l - c - 1))) with l by lia.
    exact L1.
  - apply L2. apply (above_le n d (l + 1) (Z.to_nat (c - l - 1))); auto.
    replace (l + 1 + Z.of_nat (Z.to_nat (c - l - 1))) with c by lia.
    exact C1.
Qed.

Lemma above_scale (n d f c : Z) :
  0 < f -> above (n * f) (d * f) c <-> above n d c.
Proof. unfold above. intros Hf. split; intros H; nia. Qed.

Lemma pow2_split (a b : Z) : 0 <= a -> 0 <= b -> 2 ^ (a + b) = 2 ^ a * 2 ^ b.
Proof. intros. now apply Z.pow_add_r. Qed.

(** The difference of the logarithms is next to the logarithm of the
    quotient. *)
Lemma above_estimate (n d : Z) :
  0 < n -> 0 < d ->
  let s := Z.log2 n - Z.log2 d in
  above n d (s - 1) /\ ~ above n d (s + 1).
Proof.
  intros Hn Hd s.
  destruct (Z.log2_spec n Hn) as [N1 N2].
  destruct (Z.log2_spec d Hd) as [D1 D2].
  pose proof (Z.log2_nonneg n) as An. pose proof (Z.log2_nonneg d) as Ad.
  set (a := Z.log2 n) in *. set (b := Z.log2 d) in *.
  rewrite Z.pow_succ_r in N2, D2 by lia.
  assert (Pa : 0 < 2 ^ a) by (apply Z.pow_pos_nonneg; lia).
  assert (Pb : 0 < 2 ^ b) by (apply Z.pow_pos_nonneg; lia).
  unfold above. split.
  - destruct (Z_lt_le_dec (s - 1) 0) as [L|L].
    + replace (Z.max (s - 1) 0) with 0 by lia.
      replace (Z.max (- (s - 1)) 0) with (1 - s) by lia.
      assert (E : 2 * 2 ^ b = 2 ^ a * 2 ^ (1 - s)).
      { rewrite <- pow2_split by lia. rewrite <- Z.pow_succ_r by lia.
        f_equal. lia. }
      assert (0 < 2 ^ (1 - s)) by (apply Z.pow_pos_nonneg; lia).
      change (2 ^ 0) with 1. nia.
    + replace (Z.max (s - 1) 0) with (s - 1) by lia.
      replace (Z.max (- (s - 1)) 0) with 0 by lia.
      assert (E : 2 * 2 ^ b * 2 ^ (s - 1) = 2 ^ a).
      { rewrite <- Z.pow_succ_r by lia. rewrite <- pow2_split by lia.
        f_equal. lia. }
      assert (0 < 2 ^ (s - 1)) by (apply Z.pow_pos_nonneg; lia).
      change (2 ^ 0) with 1. nia.
  - intros H. destruct (Z_lt_le_dec (s + 1) 0) as [L|L].
    + replace (Z.max (s + 1) 0) with 0 in H by lia.
      replace (Z.max (- (s + 1)) 0) with (- s - 1) in H by lia.
      assert (E : 2 * 2 ^ a * 2 ^ (- s - 1) = 2 ^ b).
      { rewrite <- Z.pow_succ_r by lia. rewrite <- pow2_split by lia.
        f_equal. lia. }
      assert (0 < 2 ^ (- s - 1)) by (apply Z.pow_pos_nonneg; lia).
      change (2 ^ 0) with 1 in H. nia.
    + replace (Z.max (s + 1) 0) with (s + 1) in H by lia.
      replace (Z.max (- (s + 1)) 0) with 0 in H by lia.
      assert (E : 2 * 2 ^ a = 2 ^ b * 2 ^ (s + 1)).
      { rewrite <- pow2_split by lia. rewrite <- Z.pow_succ_r by lia.
        f_equal. lia. }
      assert (0 < 2 ^ (s + 1)) by (apply Z.pow_pos_nonneg; lia).
      change (2 ^ 0) with 1 in H. nia.
Qed.

(** The exponent that [nearest] starts from is the logarithm of the
    quotient. *)
Lemma nearest_exponent (n d : Z) :
  0 < n -> 0 < d ->
  let s := Z.log2 n - Z.log2 d in
  let below := if 0 <=? s then n <? d * 2 ^ s else n * 2 ^ (- s) <? d in
  let c := if below then s - 1 else s in
  above n d c /\ ~ above n d (c + 1).
Proof.
  intros Hn Hd s below c.
  destruct (above_estimate n d Hn Hd) as [E1 E2]. fold s in E1, E2.
  assert (B : below = true <-> ~ above n d s).
  { unfold below, above. destruct (0 <=? s) eqn:S.
    - apply Z.leb_le in S.
      replace (Z.max s 0) with s by lia.
      replace (Z.max (- s) 0) with 0 by lia. change (2 ^ 0) with 1.
      rewrite Z.ltb_lt. lia.
    - apply Z.leb_gt in S.
      replace (Z.max s 0) with 0 by lia.
      replace (Z.max (- s) 0) with (- s) by lia. change (2 ^ 0) with 1.
      rewrite Z.ltb_lt. lia. }
  unfold c. destruct below.
  - split; [exact E1|]. replace (s - 1 + 1) with s by lia. now apply B.
  - split; [|exact E2].
    destruct (Z_le_dec (d * 2 ^ Z.max s 0) (n * 2 ^ Z.max (- s) 0)) as [A|A];
      [exact A|].
    assert (T : false = true) by (apply B; exact A). discriminate T.
Qed.

Lemma shifted_trailing_zeros (n : positive) (j : nat) :
  exists q, Zpos n * 2 ^ Z.of_nat j = Zpos q
            /\ trailing_zeros q = (trailing_zeros n + j)%nat.
Proof.
  induction j as [|j (q & E & L)].
  - exists n. split; [cbn; lia | lia].
  - exists (xO q). split; [|cbn [trailing_zeros]; lia].
    rewrite Nat2Z.inj_succ, Z.pow_succ_r by lia. lia.
Qed.

(** An integer that a significand of 53 bits holds. *)
Lemma nearest_integer (negative : bool) (n : positive) :
  Z.log2 (Zpos n) < 1024 ->
  Zpos n mod 2 ^ Z.max 0 (Z.log2 (Zpos n) - 52) = 0 ->
  nearest negative n 1 = JNum (signed negative (Zpos n)).
Proof.
  intros H D. unfold nearest.
  change (Z.log2 1) with 0. rewrite Z.sub_0_r.
  pose proof (Z.log2_nonneg (Zpos n)) as A0.
  destruct (Z.log2_spec (Zpos n) ltac:(lia)) as [L1 L2].
  set (a := Z.log2 (Zpos n)) in *.
  replace (0 <=? a) with true by (symmetry; apply Z.leb_le; lia).
  replace (Zpos n <? 1 * 2 ^ a) with false
    by (symmetry; apply Z.ltb_ge; lia).
  replace (Z.max (a - 52) (-1074)) with (a - 52) by lia.
  destruct (a - 52 <? 0) eqn:E.
  - apply Z.ltb_lt in E. rewrite Z.mod_1_r, Z.div_1_r.
    change (2 * 0 ?= 1) with Lt. cbv iota.
    destruct (shifted_trailing_zeros n (Z.to_nat (52 - a))) as (q & Q & T).
    replace (- (a - 52)) with (Z.of_nat (Z.to_nat (52 - a))) by lia.
    rewrite Q.
    assert (Lq : Z.log2 (Zpos q) = 52).
    { rewrite <- Q, Z.log2_mul_pow2 by lia. lia. }
    rewrite Lq.
    replace (1024 <=? 52 + (a - 52)) with false
      by (symmetry; apply Z.leb_gt; lia).
    unfold of_dyadic.
    replace (0 <=? a - 52) with false by (symmetry; apply Z.leb_gt; lia).
    replace (Z.min (Z.of_nat (trailing_zeros q)) (- (a - 52)))
      with (52 - a) by lia.
    replace (- (a - 52) - (52 - a)) with 0 by lia.
    f_equal. f_equal. rewrite <- Q.
    replace (Z.of_nat (Z.to_nat (52 - a))) with (52 - a) by lia.
    apply Z.div_mul. apply Z.pow_nonzero; lia.
  - apply Z.ltb_ge in E.
    replace (Z.max 0 (a - 52)) with (a - 52) in D by lia.
    assert (P : 0 < 2 ^ (a - 52)) by (apply Z.pow_pos_nonneg; lia).
    replace (1 * 2 ^ (a - 52)) with (2 ^ (a - 52)) by lia.
    rewrite D. replace (2 * 0 ?= 2 ^ (a - 52)) with Lt
      by (symmetry; apply Z.compare_lt_iff; lia).
    cbv iota.
    pose proof (Z.div_mod (Zpos n) (2 ^ (a - 52)) ltac:(lia)) as M.
    rewrite D, Z.add_0_r in M.
    set (q := Zpos n / 2 ^ (a - 52)) in *.
    assert (Q : 0 < q) by nia.
    assert (Lq : Z.log2 q + (a - 52) = a).
    { pose proof (eq_refl : Z.log2 (Zpos n) = a) as Ha.
      rewrite M, (Z.mul_comm (2 ^ (a - 52)) q), Z.log2_mul_pow2 in Ha
        by lia.
      lia. }
    replace (1024 <=? Z.log2 q + (a - 52)) with false
      by (symmetry; apply Z.leb_gt; lia).
    unfold of_dyadic. destruct q as [|q'|q'] eqn:Eq; try lia.
    replace (0 <=? a - 52) with true by (symmetry; apply Z.leb_le; lia).
    f_equal. f_equal. lia.
Qed.

Lemma odd_trailing_zeros (m : positive) :
  match m with xO _ => false | _ => true end = true ->
  trailing_zeros m = O.
Proof. destruct m; [reflexivity | discriminate | reflexivity]. Qed.

(** An odd numerator of at most 53 bits over a power of two. *)
Lemma nearest_fraction (negative : bool) (m k : positive) :
  match m with xO _ => false | _ => true end = true ->
  Zpos m < 2 ^ 53 -> Zpos k <= 1074 ->
  nearest negative (m * 5 ^ k) (Z.to_pos (10 ^ Zpos k))
  = JFrac negative m k.
Proof.
  intros O M K.
  assert (P5 : 0 < 5 ^ Zpos k) by (apply Z.pow_pos_nonneg; lia).
  assert (P2 : 0 < 2 ^ Zpos k) by (apply Z.pow_pos_nonneg; lia).
  assert (T : 10 ^ Zpos k = 2 ^ Zpos k * 5 ^ Zpos k).
  { change 10 with (2 * 5). apply Z.pow_mul_l. }
  assert (Nn : Zpos (m * 5 ^ k) = Zpos m * 5 ^ Zpos k).
  { rewrite Pos2Z.inj_mul, Pos2Z.inj_pow. reflexivity. }
  assert (Dd : Zpos (Z.to_pos (10 ^ Zpos k)) = 2 ^ Zpos k * 5 ^ Zpos k).
  { rewrite Z2Pos.id by nia. exact T. }
  unfold nearest.
  set (n := Zpos (m * 5 ^ k)) in *. set (d := Zpos (Z.to_pos (10 ^ Zpos k))) in *.
  pose proof (nearest_exponent n d ltac:(lia) ltac:(lia)) as X.
  cbv zeta in X.
  set (s := Z.log2 n - Z.log2 d) in *.
  set (below := if 0 <=? s then n <? d * 2 ^ s else n * 2 ^ (- s) <? d) in *.
  set (c := if below then s - 1 else s) in *.
  destruct X as [X1 X2].
  pose proof (Z.log2_nonneg (Zpos m)) as A0.
  assert (A1 : Z.log2 (Zpos m) < 53) by (apply Z.log2_lt_pow2; lia).
  destruct (Z.log2_spec (Zpos m) ltac:(lia)) as [L1 L2].
  set (a := Z.log2 (Zpos m)) in *.
  rewrite Z.pow_succ_r in L2 by lia.
  assert (Pa : 0 < 2 ^ a) by (apply Z.pow_pos_nonneg; lia).
  assert (C : c = a - Zpos k).
  { apply (above_unique n d); try lia; auto.
    - rewrite Nn, Dd. apply above_scale; [lia|]. unfold above.
      destruct (Z_lt_le_dec (a - Zpos k) 0) as [L|L].
      + replace (Z.max (a - Zpos k) 0) with 0 by lia.
        replace (Z.max (- (a - Zpos k)) 0) with (Zpos k - a) by lia.
        assert (E : 2 ^ Zpos k = 2 ^ a * 2 ^ (Zpos k - a)).
        { rewrite <- pow2_split by lia. f_equal. lia. }
        assert (0 < 2 ^ (Zpos k - a)) by (apply Z.pow_pos_nonneg; lia).
        change (2 ^ 0) with 1. nia.
      + replace (Z.max (a - Zpos k) 0) with (a - Zpos k) by lia.
        replace (Z.max (- (a - Zpos k)) 0) with 0 by lia.
        assert (E : 2 ^ Zpos k * 2 ^ (a - Zpos k) = 2 ^ a).
        { rewrite <- pow2_split by lia. f_equal. lia. }
        change (2 ^ 0) with 1. nia.
    - rewrite Nn, Dd. intros H. apply above_scale in H; [|lia].
      unfold above in H.
      destruct (Z_lt_le_dec (a - Zpos k + 1) 0) as [L|L].
      + replace (Z.max (a - Zpos k + 1) 0) with 0 in H by lia.
        replace (Z.max (- (a - Zpos k + 1)) 0) with (Zpos k - a - 1) in H
          by lia.
        assert (E : 2 ^ Zpos k = 2 * 2 ^ a * 2 ^ (Zpos k - a - 1)).
        { rewrite <- Z.pow_succ_r by lia. rewrite <- pow2_split by lia.
          f_equal. lia. }
        assert (0 < 2 ^ (Zpos k - a - 1)) by (apply Z.pow_pos_nonneg; lia).
        change (2 ^ 0) with 1 in H. nia.
      + replace (Z.max (a - Zpos k + 1) 0) with (a - Zpos k + 1) in H by lia.
        replace (Z.max (- (a - Zpos k + 1)) 0) with 0 in H by lia.
        assert (E : 2 ^ Zpos k * 2 ^ (a - Zpos k + 1) = 2 * 2 ^ a).
        { rewrite <- pow2_split by lia. rewrite <- Z.pow_succ_r by lia.
          f_equal. lia. }
        change (2 ^ 0) with 1 in H. nia. }
  rewrite C.
  set (e := Z.max (a - Zpos k - 52) (-1074)).
  assert (E1 : e < 0) by lia.
  assert (E2 : 0 <= - e - Zpos k) by lia.
  replace (e <? 0) with true by (symmetry; apply Z.ltb_lt; lia).
  cbv iota.
  set (j := - e - Zpos k) in *.
  assert (Pj : 0 < 2 ^ j) by (apply Z.pow_pos_nonneg; lia).
  assert (F : n * 2 ^ (- e) = (Zpos m * 2 ^ j) * d).
  { rewrite Nn, Dd. replace (- e) with (j + Zpos k) by lia.
    rewrite pow2_split by lia. ring. }
  rewrite F, Z.div_mul, Z.mod_mul by lia.
  replace (2 * 0 ?= d) with Lt by (symmetry; apply Z.compare_lt_iff; lia).
  cbv iota.
  destruct (shifted_trailing_zeros m (Z.to_nat j)) as (q & Q & Tz).
  replace (Z.of_nat (Z.to_nat j)) with j in Q by lia.
  rewrite Q.
  assert (Lq : Z.log2 (Zpos q) = j + a).
  { rewrite <- Q. rewrite Z.log2_mul_pow2 by lia. reflexivity. }
  rewrite Lq.
  replace (1024 <=? j + a + e) with false by (symmetry; apply Z.leb_gt; lia).
  unfold of_dyadic.
  replace (0 <=? e) with false by (symmetry; apply Z.leb_gt; lia).
  rewrite Tz, (odd_trailing_zeros m O). cbn [Nat.add].
  replace (Z.min (Z.of_nat (Z.to_nat j)) (- e)) with j by lia.
  replace (- e - j) with (Zpos k) by lia.
  f_equal. rewrite <- Q, Z.div_mul by lia. reflexivity.
Qed.

End Exact.

Lemma digits_value_upper (acc : N) (t : string) :
  Obj.all_digits t = true ->
  (Obj.digits_value acc t < (acc + 1) * 10 ^ N.of_nat (String.length t))%N.
Proof.
  revert acc. induction t as [|c r IH]; intros acc A.
  - cbn. lia.
  - cbn [Obj.all_digits] in A. apply andb_true_iff in A as [A1 A2].
    cbn [String.length Obj.digits_value].
    eapply N.lt_le_trans; [apply (IH _ A2)|].
    replace (N.of_nat (S (String.length r)))
      with (N.succ (N.of_nat (String.length r))) by lia.
    rewrite N.pow_succ_r'.
    assert (C : (Obj.digit_value c <= 9)%N).
    { destruct c as [[] [] [] [] [] [] [] []]; try discriminate A1;
        vm_compute; discriminate. }
    assert (0 < 10 ^ N.of_nat (String.length r))%N
      by (apply N.neq_0_lt_0, N.pow_nonzero; discriminate).
    nia.
Qed.

Lemma digits_length_lower (p : positive) (j : nat) :
  (10 ^ Z.of_nat j <= Zpos p)%Z -> j < String.length (digits p).
Proof.
  intros H.
  pose proof (digits_value_upper 0 (digits p) (digits_all p)) as U.
  rewrite digits_value_digits in U.
  destruct (Nat.lt_ge_cases j (String.length (digits p))) as [|G];
    [assumption|]. exfalso.
  assert (P : (10 ^ Z.of_nat (String.length (digits p)) <= 10 ^ Z.of_nat j)%Z)
    by (apply Z.pow_le_mono_r; lia).
  apply N2Z.inj_lt in U. rewrite N2Z.inj_mul, N2Z.inj_pow, nat_N_Z in U.
  cbn [Z.of_N N.add] in U. lia.
Qed.

(** The exact decimal of a binary64 value reads as the value. *)
Lemma binary64_reads (x : jsval) :
  binary64 x = true ->
  x = JNum 0
  \/ exists negative c,
       expansion x = Some (negative, c) /\ reads negative x c = true.
Proof.
  assert (I : forall negative n,
    binary64 (JNum (signed negative (Zpos n))) = true ->
    reads negative (JNum (signed negative (Zpos n))) (n, 0%Z) = true).
  { intros negative n B.
    assert (B' : (Z.log2 (Zpos n) <? 1024)%Z
                 && (Zpos n mod 2 ^ Z.max 0 (Z.log2 (Zpos n) - 52) =? 0)%Z
                 = true) by now destruct negative.
    apply andb_true_iff in B' as [B1 B2].
    apply Z.ltb_lt in B1. apply Z.eqb_eq in B2.
    unfold reads, of_decimal. cbn [fst snd].
    assert (L : String.length (digits n) <= 400).
    { apply digits_length.
      destruct (Z.log2_spec (Zpos n) ltac:(lia)) as [_ L2].
      assert (2 ^ Z.succ (Z.log2 (Zpos n)) <= 2 ^ 1024)%Z
        by (apply Z.pow_le_mono_r; lia).
      assert (2 ^ 1024 < 10 ^ Z.of_nat 400)%Z by reflexivity. lia. }
    replace (400 <? 0 + Z.of_nat (String.length (digits n)))%Z with false
      by (symmetry; apply Z.ltb_ge; lia).
    replace (0 + Z.of_nat (String.length (digits n)) <? -400)%Z with false
      by (symmetry; apply Z.ltb_ge; lia).
    change (0 <=? 0)%Z with true. cbv iota.
    replace (Z.to_pos (Zpos n * 10 ^ 0)) with n
      by (change (10 ^ 0)%Z with 1%Z; lia).
    rewrite nearest_integer by assumption.
    cbn [Number.eqb]. apply Z.eqb_refl. }
  intros B. destruct x as [| |[|n|n]| | | |negative m k|];
    try discriminate B.
  - now left.
  - right. exists false, (n, 0%Z). split; [reflexivity|]. apply (I false n B).
  - right. exists true, (n, 0%Z). split; [reflexivity|]. apply (I true n B).
  - right. exists negative, ((m * 5 ^ k)%positive, Zneg k).
    split; [reflexivity|].
    cbn [binary64] in B.
    apply andb_true_iff in B as [B B3]. apply andb_true_iff in B as [B1 B2].
    apply Z.ltb_lt in B2. apply Z.leb_le in B3.
    unfold reads, of_decimal. cbn [fst snd].
    assert (P5 : (0 < 5 ^ Zpos k)%Z) by (apply Z.pow_pos_nonneg; lia).
    assert (Nn : Zpos (m * 5 ^ k) = (Zpos m * 5 ^ Zpos k)%Z).
    { rewrite Pos2Z.inj_mul, Pos2Z.inj_pow. reflexivity. }
    assert (U : String.length (digits (m * 5 ^ k)) <= 16 + Pos.to_nat k).
    { apply digits_length. rewrite Nn.
      replace (Z.of_nat (16 + Pos.to_nat k)) with (16 + Zpos k)%Z by lia.
      rewrite Z.pow_add_r by lia.
      assert (2 ^ 53 < 10 ^ 16)%Z by reflexivity.
      assert (5 ^ Zpos k <= 10 ^ Zpos k)%Z
        by (apply Z.pow_le_mono_l; lia).
      nia. }
    assert (D : Pos.to_nat k
                <= 400 + String.length (digits (m * 5 ^ k))).
    { destruct (Nat.le_gt_cases (Pos.to_nat k) 401) as [S|S].
      - destruct (digits_head (m * 5 ^ k)) as (c & r & E & _).
        rewrite E. cbn [String.length]. lia.
      - pose proof (digits_length_lower (m * 5 ^ k) (Pos.to_nat k - 401))
          as W.
        assert (10 ^ Z.of_nat (Pos.to_nat k - 401) <= Zpos (m * 5 ^ k))%Z;
          [|lia].
        rewrite Nn.
        replace (Z.of_nat (Pos.to_nat k - 401)) with (Zpos k - 401)%Z by lia.
        change 10%Z with (2 * 5)%Z. rewrite Z.pow_mul_l.
        assert (2 ^ (Zpos k - 401) <= 2 ^ 673)%Z
          by (apply Z.pow_le_mono_r; lia).
        assert (2 ^ 673 <= 5 ^ 401)%Z by (apply Z.leb_le; reflexivity).
        assert (E5 : (5 ^ Zpos k = 5 ^ (Zpos k - 401) * 5 ^ 401)%Z).
        { rewrite <- Z.pow_add_r by lia. f_equal. lia. }
        assert (0 < 5 ^ (Zpos k - 401))%Z by (apply Z.pow_pos_nonneg; lia).
        rewrite E5. nia. }
    replace (400 <? Zneg k
                    + Z.of_nat (String.length (digits (m * 5 ^ k))))%Z
      with false by (symmetry; apply Z.ltb_ge; lia).
    replace (Zneg k + Z.of_nat (String.length (digits (m * 5 ^ k)))
             <? -400)%Z
      with false by (symmetry; apply Z.ltb_ge; lia).
    change (0 <=? Zneg k)%Z with false. cbv iota.
    change (- Zneg k)%Z with (Zpos k).
    rewrite nearest_fraction by assumption.
    cbn [Number.eqb]. now rewrite Bool.eqb_reflx, !Pos.eqb_refl.
Qed.

(** The text of a binary64 value reads as the value. *)
Lemma parse_number_text (x : jsval) (rest : string) :
  binary64 x = true -> ends_number rest ->
  parse_number (to_string x ++ rest) = Some (x, rest).
Proof.
  intros B R.
  assert (Zero : parse_number ("0" ++ rest) = Some (JNum 0, rest)).
  { cbn. unfold parse_unsigned. cbn [integer_part].
    change (Ascii.eqb "0" "0") with true. cbv iota.
    rewrite fraction_part_none, exponent_part_none;
      [reflexivity | destruct rest; cbn in *; tauto ..]. }
  assert (G : forall negative full scale,
    expansion x = Some (negative, (full, scale)) ->
    reads negative x (full, scale) = true ->
    parse_number
      ((let (s, p) := shortest negative x full scale in
        (if negative then "-" else EmptyString) ++ decimal_text s p)
       ++ rest) = Some (x, rest)).
  { intros negative full scale _ H.
    pose proof (shorten_reads negative x full scale
                  (Nat.pred (String.length (digits full))) H) as S.
    fold (shortest negative x full scale) in S.
    destruct (shortest negative x full scale) as [s p].
    unfold reads in S. cbn [fst snd] in S. apply number_eqb_eq in S.
    destruct (decimal_text_head s p) as (c & r & E & Dc).
    pose proof (parse_decimal_text negative s p rest R) as P.
    destruct negative; cbn [append].
    - unfold parse_number. change (Ascii.eqb "-" "-") with true. cbv iota.
      now rewrite P, S.
    - rewrite E in *. cbn [append] in *. unfold parse_number.
      assert (N : Ascii.eqb c "-" = false).
      { destruct (Ascii.eqb_spec c "-") as [->|]; [discriminate|reflexivity]. }
      now rewrite N, P, S. }
  destruct (binary64_reads x B) as [->|(negative & [full scale] & E & H)];
    [exact Zero|].
  pose proof (G negative full scale E H) as P.
  unfold to_string. rewrite E.
  destruct x; try discriminate E; exact P.
Qed.

(** The text of a number begins with a digit or the minus sign. *)
Lemma number_text_head (x : jsval) :
  (forall negative, x <> JInf negative) ->
  exists c r,
    to_string x = String c r /\ (JS.is_digit c = true \/ c = "-"%char).
Proof.
  intros F. unfold to_string.
  destruct x as [| |n| | | |negative m k|negative];
    try (exists "0"%char, EmptyString; split; [reflexivity | now left]).
  - destruct (expansion (JNum n)) as [[negative [full scale]]|];
      [|exists "0"%char, EmptyString; split; [reflexivity | now left]].
    destruct (shortest negative (JNum n) full scale) as [s p].
    destruct (decimal_text_head s p) as (c & r & E & Dc).
    destruct negative; cbn [append]; [eauto|]. rewrite E. eauto.
  - cbn [expansion].
    destruct (shortest negative _ _ _) as [s p].
    destruct (decimal_text_head s p) as (c & r & E & Dc).
    destruct negative; cbn [append]; [eauto|]. rewrite E. eauto.
  - now elim (F negative).
Qed.

End NumberTextFacts.

Module RoundTripFacts.

Import JSON Canonical.

(** Induction on values, through their lists. *)
Lemma skip_ws_head (c : ascii) (r : string) :
  is_ws c = false -> skip_ws (String c r) = String c r.
Proof. intros H. cbn [skip_ws]. now rewrite H. Qed.

Lemma parse_value_number (c : ascii) (r : string) (f : nat) :
  JS.is_digit c = true \/ c = "-"%char ->
  parse_value (S f) (String c r)
  = parse_number (String c r).
Proof.
  intros H.
  destruct c as [[] [] [] [] [] [] [] []];
    destruct H as [H|H]; try discriminate H; reflexivity.
Qed.

Lemma stringify_head (v : jsval) :
  exists c r, stringify v = String c r /\ opens c.
Proof.
  destruct v as [|[]|n|s|xs|ps|negative m k|negative]; cbn [stringify];
    try (do 2 eexists; split; [reflexivity | repeat split]).
  - destruct (NumberTextFacts.number_text_head (JNum n))
      as (c & r & -> & H); [discriminate|].
    exists c, r. split; [reflexivity|].
    destruct H as [H| ->]; [|repeat split].
    destruct c as [[] [] [] [] [] [] [] []]; try discriminate H; repeat split.
  - destruct (NumberTextFacts.number_text_head (JFrac negative m k))
      as (c & r & -> & H); [discriminate|].
    exists c, r. split; [reflexivity|].
    destruct H as [H| ->]; [|repeat split].
    destruct c as [[] [] [] [] [] [] [] []]; try discriminate H; repeat split.
Qed.

Ltac flatten :=
  repeat first [ rewrite !StringFacts.app_assoc in *
               | progress cbn [append] in * ].

Ltac lengths :=
  repeat first
    [ match goal with
      | H : context [String.length (_ ++ _)] |- _ =>
          rewrite JSONFacts.length_app in H
      | |- context [String.length (_ ++ _)] => rewrite JSONFacts.length_app
      end
    | progress cbn [String.length] in * ];
  lia.

Lemma canonical_array (xs : list jsval) :
  canonical (JArr xs) <-> Forall canonical xs.
Proof.
  induction xs as [|x r IH].
  - split; [constructor | exact (fun _ => I)].
  - split.
    + intros [Hx Hr]. constructor; [exact Hx | now apply IH].
    + intros H. inversion H as [|? ? Hx Hr]. split; [exact Hx | now apply IH].
Qed.

Lemma canonical_object (ps : list (string * jsval)) :
  canonical (JObj ps)
  <-> of_entries ps = ps /\ Forall (fun p => canonical (snd p)) ps.
Proof.
  cbn [canonical]. apply and_iff_compat_l.
  induction ps as [|p r IH].
  - split; [constructor | exact (fun _ => I)].
  - split.
    + intros [Hx Hr]. constructor; [exact Hx | now apply IH].
    + intros H. inversion H as [|? ? Hx Hr]. split; [exact Hx | now apply IH].
Qed.

Lemma stringify_object (ps : list (string * jsval)) :
  stringify (JObj ps) = "{" ++ JS.join "," (map member_text ps) ++ "}".
Proof.
  cbn [stringify]. do 3 f_equal. apply map_ext. now intros [k x].
Qed.

Lemma elements_text (xs : list jsval) :
  xs <> [] -> Forall reads_back xs -> Forall canonical xs ->
  forall acc rest f,
    2 * String.length (JS.join "," (map stringify xs) ++ "]" ++ rest) + 2
    <= f ->
    parse_elements f acc (JS.join "," (map stringify xs) ++ "]" ++ rest)
    = Some (JArr (rev acc ++ xs)%list, rest).
Proof.
  induction xs as [|x r IH]; intros N R C acc rest f B; [contradiction|].
  inversion R as [|? ? Rx Rr]. inversion C as [|? ? Cx Cr]. subst.
  destruct f as [|f]; [lia|]. rewrite JSONFacts.parse_elements_S.
  destruct r as [|y r].
  - cbn [map JS.join] in *.
    rewrite (Rx Cx ("]" ++ rest) f eq_refl) by lia.
    cbn [append skip_ws]. change (is_ws "]") with false. cbv iota.
    change (Ascii.eqb "]" ",") with false.
    change (Ascii.eqb "]" "]") with true. cbv iota.
    now cbn [rev].
  - change (JS.join "," (map stringify (x :: y :: r)))
      with (stringify x ++ "," ++ JS.join "," (map stringify (y :: r))) in *.
    rewrite !StringFacts.app_assoc in *.
    rewrite (Rx Cx ("," ++ JS.join "," (map stringify (y :: r))
                        ++ "]" ++ rest) f eq_refl) by lengths.
    cbn [append skip_ws]. change (is_ws ",") with false. cbv iota.
    change (Ascii.eqb "," ",") with true. cbv iota.
    change (String "]" rest) with ("]" ++ rest).
    rewrite (IH ltac:(discriminate) Rr Cr (x :: acc) rest f) by lengths.
    cbn [rev]. now rewrite <- List.app_assoc.
Qed.

Lemma members_text (ps : list (string * jsval)) :
  ps <> [] -> Forall (fun p => reads_back (snd p)) ps ->
  Forall (fun p => canonical (snd p)) ps ->
  forall acc rest f,
    2 * String.length (JS.join "," (map member_text ps) ++ "}" ++ rest) + 2
    <= f ->
    parse_members f acc (JS.join "," (map member_text ps) ++ "}" ++ rest)
    = Some (JObj (fold_left (fun a p => Obj.define (fst p) (snd p) a) ps acc),
            rest).
Proof.
  induction ps as [|[k x] r IH]; intros N R C acc rest f B; [contradiction|].
  inversion R as [|? ? Rx Rr]. inversion C as [|? ? Cx Cr]. subst.
  cbn [snd] in Rx, Cx.
  destruct f as [|f]; [lia|]. rewrite JSONFacts.parse_members_S.
  destruct r as [|q r].
  - cbn [map JS.join] in *. unfold member_text, quote in *. cbn [fst snd] in *.
    flatten.
    cbn [skip_ws]. change (is_ws dquote) with false. cbv iota.
    rewrite Ascii.eqb_refl. rewrite JSONFacts.parse_quote_chars.
    cbn [skip_ws]. change (is_ws ":") with false. cbv iota.
    change (Ascii.eqb ":" ":") with true. cbv iota.
    rewrite (Rx Cx (String "}" rest) f eq_refl) by lengths.
    cbn [skip_ws]. change (is_ws "}") with false. cbv iota.
    change (Ascii.eqb "}" ",") with false.
    change (Ascii.eqb "}" "}") with true. cbv iota. reflexivity.
  - change (JS.join "," (map member_text ((k, x) :: q :: r)))
      with (member_text (k, x) ++ ","
            ++ JS.join "," (map member_text (q :: r))) in *.
    change (member_text (k, x)) with (quote k ++ ":" ++ stringify x) in *.
    unfold quote in *. flatten.
    cbn [skip_ws]. change (is_ws dquote) with false. cbv iota.
    rewrite Ascii.eqb_refl, JSONFacts.parse_quote_chars.
    cbn [skip_ws]. change (is_ws ":") with false. cbv iota.
    change (Ascii.eqb ":" ":") with true. cbv iota.
    rewrite (Rx Cx (String "," _) f eq_refl) by lengths.
    cbn [skip_ws]. change (is_ws ",") with false. cbv iota.
    change (Ascii.eqb "," ",") with true. cbv iota.
    rewrite (IH ltac:(discriminate) Rr Cr _ rest f) by lengths.
    reflexivity.
Qed.

Lemma texts_head (A : Type) (g : A -> string) (x : A) (r : list A)
  (rest : string) :
  (exists c t, g x = String c t /\ opens c) ->
  exists c t, JS.join "," (map g (x :: r)) ++ rest = String c t /\ opens c.
Proof.
  intros (c & t & E & O). destruct r as [|y r].
  - cbn [map JS.join]. rewrite E. cbn [append]. now exists c, (t ++ rest).
  - change (JS.join "," (map g (x :: y :: r)))
      with (g x ++ "," ++ JS.join "," (map g (y :: r))).
    rewrite E. cbn [append]. eexists c, _. split; [reflexivity | exact O].
Qed.

Lemma number_text (x : jsval) (rest : string) (f : nat) :
  Number.binary64 x = true -> closes rest = true ->
  parse_value (S f) (Number.to_string x ++ rest) = Some (x, rest).
Proof.
  intros B C.
  pose proof (NumberTextFacts.parse_number_text x rest B
                (NumberTextFacts.closes_ends_number rest C)) as P.
  destruct (NumberTextFacts.number_text_head x) as (c & r & E & H).
  { intros negative ->. discriminate B. }
  rewrite E in *. cbn [append] in *.
  rewrite parse_value_number by exact H. exact P.
Qed.

(** The text [JSON.stringify] writes for a canonical value, followed by
    the end of the text, a comma or a closing bracket, is read back as that
    value, and the rest is left. *)
Lemma value_text (v : jsval) : reads_back v.
Proof.
  induction v as [|b|n|s|xs IH|ps IH|negative m k|negative]
    using ValueFacts.jsval_induction;
    intros Cv rest f C B; (destruct f as [|f]; [lia|]).
  - destruct rest; reflexivity.
  - destruct b, rest; reflexivity.
  - now apply number_text.
  - apply JSONFacts.parse_quote.
  - apply canonical_array in Cv. destruct xs as [|x r]; [reflexivity|].
    cbn [stringify] in *. flatten.
    rewrite JSONFacts.parse_value_S. cbn [skip_ws].
    change (is_ws "[") with false. cbv iota.
    change (Ascii.eqb "[" "{") with false.
    change (Ascii.eqb "[" "[") with true. cbv iota.
    destruct (texts_head _ stringify x r (String "]" rest)
                (stringify_head x)) as (c & t & E & O1 & O2 & O3).
    rewrite E. cbn [skip_ws]. rewrite O1, O2. rewrite <- E.
    apply (elements_text (x :: r) ltac:(discriminate) IH Cv [] rest f).
    cbn [append]. lengths.
  - apply canonical_object in Cv as [Co Cv].
    destruct ps as [|p r]; [reflexivity|].
    rewrite stringify_object in *. flatten.
    rewrite JSONFacts.parse_value_S. cbn [skip_ws].
    change (is_ws "{") with false. cbv iota.
    change (Ascii.eqb "{" "{") with true. cbv iota.
    destruct (texts_head _ member_text p r (String "}" rest))
      as (c & t & E & O1 & O2 & O3).
    { destruct p as [k x]. unfold member_text, quote. cbn [fst append].
      do 2 eexists. split; [reflexivity | repeat split]. }
    rewrite E. cbn [skip_ws]. rewrite O1, O3. rewrite <- E.
    rewrite <- Co at 2.
    apply (members_text (p :: r) ltac:(discriminate) IH Cv [] rest f).
    cbn [append]. lengths.
  - now apply number_text.
  - discriminate Cv.
Qed.

(** [JSON.parse(JSON.stringify(v))] is [v] for a canonical value. *)
Lemma parse_stringify (v : jsval) :
  canonical v -> parse (stringify v) = Some v.
Proof.
  intros Cv. unfold parse.
  pose proof (value_text v Cv EmptyString
                (2 * String.length (stringify v) + 1) eq_refl) as P.
  rewrite StringFacts.app_nil_r in P. rewrite P by lia. reflexivity.
Qed.

Lemma body_value_text (v : jsval) :
  canonical v -> Value.is_string v = false ->
  Handler.body_value (JStr (stringify v)) = Handler.body_value v.
Proof.
  intros Cv S. cbn [Handler.body_value]. rewrite (parse_stringify v Cv).
  now destruct v.
Qed.

(** X14. An argument that assigns [body] can be given as a structured value
    or as the JSON text of that value: for a value that is not a string,
    whose objects have their properties in enumeration order and whose
    numbers are finite binary64 values, both calls hand the same path and
    options to [graphRequest], and the callback answers the same. *)
Theorem body_text_or_value
  (graphRequest : GraphRequest) (tool : Endpoint.t) (paramName : string)
  (v : jsval) (before after : list (string * jsval)) :
  Handler.writes_body tool paramName = true ->
  canonical v ->
  Value.is_string v = false ->
  Handler.request tool (before ++ (paramName, JStr (stringify v)) :: after)%list
  = Handler.request tool (before ++ (paramName, v) :: after)%list
  /\ Handler.handler graphRequest tool
       (before ++ (paramName, JStr (stringify v)) :: after)%list
     = Handler.handler graphRequest tool
         (before ++ (paramName, v) :: after)%list.
Proof.
  intros W Cv S.
  assert (E : Handler.bind_params tool
                (before ++ (paramName, JStr (stringify v)) :: after)%list
              = Handler.bind_params tool
                  (before ++ (paramName, v) :: after)%list).
  { rewrite !BinderFacts.bind_params_app. cbn [fold_left].
    rewrite !(BinderFacts.bind_param_body _ _ _ _ W).
    now rewrite (body_value_text v Cv S). }
  assert (R : Handler.request tool
                (before ++ (paramName, JStr (stringify v)) :: after)%list
              = Handler.request tool
                  (before ++ (paramName, v) :: after)%list).
  { unfold Handler.request. now rewrite E. }
  split; [exact R|].
  unfold Handler.handler, Handler.attempt. now rewrite R.
Qed.

Lemma body_text_or_value_witness :
  Handler.request Sample.createItem
    [("payload",
      JStr (stringify
              (JObj [("name", JStr "a");
                     ("tags", JArr [JNum 1; JNum (-20); JNull; JBool true]);
                     ("meta", JObj [])])))]
  = Handler.request Sample.createItem
      [("payload",
        JObj [("name", JStr "a");
              ("tags", JArr [JNum 1; JNum (-20); JNull; JBool true]);
              ("meta", JObj [])])].
Proof.
  exact (proj1 (body_text_or_value Sample.no_transport Sample.createItem
                  "payload"
                  (JObj [("name", JStr "a");
                         ("tags", JArr [JNum 1; JNum (-20); JNull; JBool true]);
                         ("meta", JObj [])])
                  [] [] eq_refl
                  (conj eq_refl
                     (conj I (conj (conj eq_refl (conj eq_refl (conj I (conj I I))))
                                   (conj (conj eq_refl I) I))))
                  eq_refl)).
Defined.

End RoundTripFacts.

(** ** The release script *)

Module ReleaseFacts.

Import Release.

Section Script.

Variable World : Type.
Variable execSync : World -> string -> World * completion string.
Variable readFileSync : World -> string -> completion string.
Variable SyntaxError_message : string -> string.

Ltac unfold_script :=
  unfold Release.run, Release.release, check_branch, check_clean, check_type,
    run_tests, publish, and_then, try_script, exec, readFile, lift, ret, exit.

Ltac next_command :=
  match goal with
  | |- context [execSync ?w ?c] =>
      let E := fresh "E" in
      destruct (execSync w c) as [? [?|?]] eqn:E
  end.

Lemma release_types_in (t : string) :
  existsb (String.eqb t) release_types = true -> In t release_types.
Proof.
  intros H. apply existsb_exists in H as (x & I & E).
  apply String.eqb_eq in E. now subst.
Qed.

Lemma run_guards (args : list string) (w : World) :
  (exists w1 out w2 w3 shown,
      execSync w branch_command = (w1, Normal out)
      /\ trim out = "main"
      /\ execSync w1 status_command = (w2, Normal EmptyString)
      /\ In (releaseType args) release_types
      /\ execSync w2 test_command = (w3, Normal shown)
      /\ release World execSync readFileSync SyntaxError_message args w
         = (let '(w', ran, s) :=
              publish World execSync readFileSync SyntaxError_message
                (releaseType args) w3 in
            (w', (probes ++ ran)%list, s)))
  \/ (exists n,
         n <= 3
         /\ run World execSync readFileSync SyntaxError_message args w
            = (firstn n probes, Exited 1)
         /\ 0 < n).
Proof.
  unfold Release.run, Release.release, check_branch, check_clean, check_type,
    run_tests.
  unfold and_then at 1 2 3 4. unfold try_script, and_then, exec, ret, exit.
  destruct (execSync w branch_command) as [w1 [out|e]] eqn:E1;
    [| right; exists 1; repeat split; lia].
  destruct (String.eqb (trim out) "main") eqn:B;
    [| right; exists 1; repeat split; lia].
  apply String.eqb_eq in B.
  destruct (execSync w1 status_command) as [w2 [changes|e]] eqn:E2;
    [| right; exists 2; repeat split; lia].
  destruct changes as [|c changes];
    [| right; exists 2; repeat split; lia].
  cbn [String.length Nat.ltb Nat.leb].
  destruct (existsb (String.eqb (releaseType args)) release_types) eqn:T;
    [| right; exists 2; repeat split; lia].
  apply release_types_in in T.
  destruct (execSync w2 test_command) as [w3 [shown|e]] eqn:E3;
    [| right; exists 3; repeat split; lia].
  left. exists w1, out, w2, w3, shown. repeat split; try assumption.
  destruct (publish _ _ _ _ _ w3) as [[w' ran] s]. reflexivity.
Qed.

(** The commands of [publish]: they follow the plan, nothing exits, and
    when all of them return the version is the one read after the bump. *)
Lemma publish_run (releaseType : string) (w : World) :
  exists w' ran s,
    publish World execSync readFileSync SyntaxError_message releaseType w
    = (w', ran, s)
    /\ exists version rest,
         [bump_command releaseType; add_command; commit_command version;
          push_command; release_command version]
         = (ran ++ rest)%list
         /\ 0 < List.length ran
         /\ match s with
            | Go _ =>
                rest = []
                /\ bind (readFileSync
                           (fst (execSync w (bump_command releaseType)))
                           "./package.json")
                        (fun text =>
                           bind (package_version SyntaxError_message text)
                                version_text)
                   = Normal version
            | Exit _ => False
            | Raise _ => True
            end.
Proof.
  unfold publish, and_then, exec, readFile, lift, ret.
  destruct (execSync w (bump_command releaseType)) as [w4 [o4|e]] eqn:E4;
    cbn [fst].
  2:{ do 3 eexists. split; [reflexivity|]. exists EmptyString. eexists.
      split; [reflexivity|]. cbn. split; [lia | exact I]. }
  destruct (readFileSync w4 "./package.json") as [text|e]; cbn [bind].
  2:{ do 3 eexists. split; [reflexivity|]. exists EmptyString. eexists.
      split; [reflexivity|]. cbn. split; [lia | exact I]. }
  destruct (package_version SyntaxError_message text) as [version|e];
    cbn [bind].
  2:{ do 3 eexists. split; [reflexivity|]. exists EmptyString. eexists.
      split; [reflexivity|]. cbn. split; [lia | exact I]. }
  destruct (execSync w4 add_command) as [w5 [o5|e]] eqn:E5.
  2:{ do 3 eexists. split; [reflexivity|]. exists EmptyString. eexists.
      split; [reflexivity|]. cbn. split; [lia | exact I]. }
  destruct (version_text version) as [v|e].
  2:{ do 3 eexists. split; [reflexivity|]. exists EmptyString. eexists.
      split; [reflexivity|]. cbn. split; [lia | exact I]. }
  destruct (execSync w5 (commit_command v)) as [w6 [o6|e]] eqn:E6.
  2:{ do 3 eexists. split; [reflexivity|]. exists v. eexists.
      split; [reflexivity|]. cbn. split; [lia | exact I]. }
  destruct (execSync w6 push_command) as [w7 [o7|e]] eqn:E7.
  2:{ do 3 eexists. split; [reflexivity|]. exists v. eexists.
      split; [reflexivity|]. cbn. split; [lia | exact I]. }
  destruct (execSync w7 (release_command v)) as [w8 [o8|e]] eqn:E8.
  2:{ do 3 eexists. split; [reflexivity|]. exists v. eexists.
      split; [reflexivity|]. cbn. split; [lia | exact I]. }
  do 3 eexists. split; [reflexivity|]. exists v, []. cbn. auto with arith.
Qed.

Lemma in_firstn (A : Type) (x : A) (n : nat) (l : list A) :
  In x (firstn n l) -> In x l.
Proof.
  intros H. rewrite <- (firstn_skipn n l). apply in_or_app. now left.
Qed.

(** X15.  A command that changes something runs only behind the guards:
    when the script runs a command other than the three that only look, the
    branch printed was [main] up to white space, [git status] printed
    nothing, the release type is one of the three, and [npm test]
    returned. *)
Theorem changes_run_behind_guards (args : list string) (w : World)
  (command : string) :
  In command
     (fst (run World execSync readFileSync SyntaxError_message args w)) ->
  ~ In command probes ->
  exists w1 out w2 w3 shown,
    execSync w branch_command = (w1, Normal out)
    /\ trim out = "main"
    /\ execSync w1 status_command = (w2, Normal EmptyString)
    /\ In (releaseType args) release_types
    /\ execSync w2 test_command = (w3, Normal shown).
Proof.
  intros I N.
  destruct (run_guards args w)
    as [(w1 & out & w2 & w3 & shown & E1 & B & E2 & T & E3 & _)
       |(n & _ & R & _)].
  - now exists w1, out, w2, w3, shown.
  - rewrite R in I. cbn [fst] in I. apply in_firstn in I. contradiction.
Qed.

(** X16.  A script that runs to its end has run the eight commands of the
    plan, in order and nothing else, and the version in the commit message,
    in the tag, in the title and in the notes is the text of the [version]
    of [package.json] as read after the bump. *)
Theorem completed_release_follows_plan (args : list string) (w : World) :
  snd (run World execSync readFileSync SyntaxError_message args w)
  = Completed ->
  exists version,
    bumped_version World execSync readFileSync SyntaxError_message args w
    = Normal version
    /\ fst (run World execSync readFileSync SyntaxError_message args w)
       = plan (releaseType args) version.
Proof.
  intros C.
  destruct (run_guards args w)
    as [(w1 & out & w2 & w3 & shown & E1 & B & E2 & T & E3 & R)
       |(n & _ & R & _)].
  2:{ rewrite R in C. discriminate C. }
  destruct (publish_run (releaseType args) w3)
    as (w' & ran & s & P & version & rest & L & _ & S).
  unfold run in *. rewrite R, P in *.
  destruct s as [[]|code|e]; try discriminate C.
  destruct S as [-> V]. rewrite List.app_nil_r in L. subst ran.
  exists version. split; [|reflexivity].
  unfold bumped_version. rewrite E1. cbn [fst]. rewrite E2. cbn [fst].
  rewrite E3. cbn [fst]. exact V.
Qed.

(** X17.  Whatever the commands do, those run are an initial part of the
    plan.  The script exits, with code 1, only while it has run no command
    but the three that only look; once it has run the version bump, a
    failing command or an unreadable [package.json] ends it with an
    uncaught exception, the commands before it already run. *)
Theorem commands_follow_plan (args : list string) (w : World) :
  exists version rest,
    plan (releaseType args) version
    = (fst (run World execSync readFileSync SyntaxError_message args w)
       ++ rest)%list
    /\ match
         snd (run World execSync readFileSync SyntaxError_message args w)
       with
       | Completed => rest = []
       | Exited code =>
           code = 1%Z
           /\ exists n,
                0 < n <= 3
                /\ fst (run World execSync readFileSync SyntaxError_message
                          args w)
                   = firstn n probes
       | Uncaught _ =>
           In (bump_command (releaseType args))
              (fst (run World execSync readFileSync SyntaxError_message
                      args w))
       end.
Proof.
  destruct (run_guards args w)
    as [(w1 & out & w2 & w3 & shown & E1 & B & E2 & T & E3 & R)
       |(n & Hn & R & Pn)].
  - destruct (publish_run (releaseType args) w3)
      as (w' & ran & s & P & version & rest & L & N & S).
    unfold run. rewrite R, P.
    exists version, rest. unfold plan. rewrite L.
    destruct s as [[]|code|e]; cbn [fst snd].
    + split; [now rewrite List.app_assoc | tauto].
    + contradiction.
    + split; [now rewrite List.app_assoc|].
      apply in_or_app. right.
      destruct ran as [|c ran]; [cbn in N; lia|].
      cbn [app] in L. injection L as <- _. now left.
  - rewrite R. cbn [fst snd].
    exists EmptyString, (skipn n (plan (releaseType args) EmptyString)).
    split; [|split; [reflexivity | exists n; split; [lia | reflexivity]]].
    rewrite <- (firstn_skipn n (plan (releaseType args) EmptyString)) at 1.
    f_equal. destruct n as [|[|[|[|n]]]]; [reflexivity .. | lia].
Qed.

End Script.

Lemma changes_run_behind_guards_witness :
  exists w1 out w2 w3 shown,
    ReleaseSample.calm "main" 0 branch_command = (w1, Normal out)
    /\ trim out = "main"
    /\ ReleaseSample.calm "main" w1 status_command
       = (w2, Normal EmptyString)
    /\ In (releaseType ["minor"]) release_types
    /\ ReleaseSample.calm "main" w2 test_command = (w3, Normal shown).
Proof.
  apply (changes_run_behind_guards nat (ReleaseSample.calm "main")
           (ReleaseSample.file "1.2.3") ReleaseSample.no_message
           ["minor"] 0 push_command).
  - vm_compute. do 6 right. left. reflexivity.
  - vm_compute. intros [H|[H|[H|[]]]]; discriminate H.
Defined.

Lemma completed_release_follows_plan_witness :
  exists version,
    bumped_version nat (ReleaseSample.calm " main") (ReleaseSample.file "2.0.0")
      ReleaseSample.no_message [] 0
    = Normal version
    /\ fst (run nat (ReleaseSample.calm " main") (ReleaseSample.file "2.0.0")
              ReleaseSample.no_message [] 0)
       = plan (releaseType []) version.
Proof.
  apply completed_release_follows_plan. vm_compute. reflexivity.
Defined.

End ReleaseFacts.
